(** * Event_Finder: the storage layer and the route handlers

    A shallow embedding of [server/storage.ts] (class [MemStorage]), of the
    class [PgStorage] (the module [./pgStorage], which follows
    [server/index.ts] in the sources), of the schema (the module
    [@shared/schema], which follows [server/types.ts], and the SQL migration)
    and of the handlers of [server/routes.ts] that the stated properties talk
    about.  The definitions come first, the properties after them.

    Conventions of the embedding.
    - A JavaScript [number] that holds an identifier or a count is a [Z] or a
      [nat]; one that holds a coordinate or a distance is an element of an
      abstract carrier [number] with the operations of the class [JSNumber].
    - A JavaScript string is a [string] of 8-bit characters; case mapping is
      the one of the ASCII letters.
    - [null] and [undefined] are both [None].
    - A [Date] is the integer count of milliseconds it wraps; [new Date()] is
      an explicit argument [now].
    - Every [async] method is run to completion: one call is one function
      from the store to a result and the next store. *)

From Stdlib Require Import ZArith List String Ascii Bool Lia QArith Qround.
From Stdlib Require Import Sorted Permutation.
Import ListNotations.

Local Open Scope Z_scope.
Local Open Scope string_scope.
Local Open Scope list_scope.

Set Implicit Arguments.

(** ** Strings *)

Module JsString.

(** [toLowerCase] on one ASCII character: 'A'..'Z' go to 'a'..'z'. *)
Definition lower_ascii (c : ascii) : ascii :=
  let n := nat_of_ascii c in
  if (Nat.leb 65 n && Nat.leb n 90)%bool then ascii_of_nat (n + 32) else c.

(** [String.prototype.toLowerCase]. *)
Fixpoint toLowerCase (s : string) : string :=
  match s with
  | EmptyString => EmptyString
  | String c s' => String (lower_ascii c) (toLowerCase s')
  end.

(** [String.prototype.startsWith]. *)
Fixpoint startsWith (s p : string) {struct p} : bool :=
  match p, s with
  | EmptyString, _ => true
  | String _ _, EmptyString => false
  | String a p', String b s' => Ascii.eqb a b && startsWith s' p'
  end.

(** [String.prototype.includes]: [sub] occurs in [s] at some position. *)
Fixpoint includes (s sub : string) : bool :=
  startsWith s sub ||
  match s with
  | EmptyString => false
  | String _ s' => includes s' sub
  end.

(** [a || ''] for a nullable string: [null] and the empty string both give
    the empty string. *)
Definition or_empty (a : option string) : string :=
  match a with
  | Some s => s
  | None => ""
  end.

(** [!s] for a value that is a string or absent: absent and [""] are falsy. *)
Definition falsy (a : option string) : bool :=
  match a with
  | None => true
  | Some s => String.eqb s ""
  end.

Definition is_space (c : ascii) : bool :=
  let n := nat_of_ascii c in
  (Nat.eqb n 32 || (Nat.leb 9 n && Nat.leb n 13))%bool.

Definition digit_value (c : ascii) : option Z :=
  let n := nat_of_ascii c in
  if (Nat.leb 48 n && Nat.leb n 57)%bool then Some (Z.of_nat (n - 48))
  else if (Nat.leb 97 n && Nat.leb n 122)%bool then Some (Z.of_nat (n - 87))
  else if (Nat.leb 65 n && Nat.leb n 90)%bool then Some (Z.of_nat (n - 55))
  else None.

Fixpoint skip_spaces (s : string) : string :=
  match s with
  | String c s' => if is_space c then skip_spaces s' else s
  | EmptyString => s
  end.

(** Longest prefix of digits of the radix, read most significant first;
    [None] when there is no digit at all. *)
Fixpoint digits (radix : Z) (acc : option Z) (s : string) : option Z :=
  match s with
  | EmptyString => acc
  | String c s' =>
    match digit_value c with
    | Some d =>
      if Z.ltb d radix
      then digits radix (Some (match acc with Some a => (a * radix + d)%Z | None => d end)) s'
      else acc
    | None => acc
    end
  end.

(** [parseInt(s)] without a radix argument; [None] is [NaN]. *)
Definition parseInt (s : string) : option Z :=
  let s := skip_spaces s in
  let '(neg, s) :=
    match s with
    | String "-" s' => (true, s')
    | String "+" s' => (false, s')
    | _ => (false, s)
    end in
  let '(radix, s) :=
    match s with
    | String "0" (String "x" s') => (16, s')
    | String "0" (String "X" s') => (16, s')
    | _ => (10, s)
    end in
  match digits radix None s with
  | Some n => Some (if neg then - n else n)
  | None => None
  end.

End JsString.

(** ** The SQL operator [LIKE]

    [like(column, pattern)] of the query builder is PostgreSQL's
    [column LIKE pattern]: characters of the pattern match themselves and
    only themselves (letter case included), [%] matches any run of
    characters, [_] matches any one character, and a backslash takes the
    special meaning away from the character after it. *)

Module Sql.

Fixpoint like_from (p : string) : string -> bool :=
  match p with
  | EmptyString => fun t => match t with EmptyString => true | _ => false end
  | String c p' =>
    if Ascii.eqb c "%" then
      fix any (t : string) : bool :=
        like_from p' t ||
        match t with
        | EmptyString => false
        | String _ t' => any t'
        end
    else if Ascii.eqb c "_" then
      fun t => match t with
               | EmptyString => false
               | String _ t' => like_from p' t'
               end
    else if Ascii.eqb c "\" then
      match p' with
      | EmptyString => fun _ => false
      | String d p'' =>
        fun t => match t with
                 | EmptyString => false
                 | String x t' => Ascii.eqb x d && like_from p'' t'
                 end
      end
    else
      fun t => match t with
               | EmptyString => false
               | String x t' => Ascii.eqb x c && like_from p' t'
               end
  end.

Definition like (column pattern : string) : bool := like_from pattern column.

End Sql.

(** ** JavaScript numbers

    Coordinates and distances are IEEE binary64 values handled through the
    language's own operators and the engine's [Math] object, none of which is
    code of this repository.  They are the fields of a class; the laws are the
    facts about [<=], [-] and [||] on binary64 values that the sorting step of
    [getEventsNearLocation] relies on.  [num_le a a = true] says that [a] is
    not [NaN].  The difference of two binary64 values other than [NaN] has the
    sign of their comparison (it is [NaN] for two equal infinities, and never
    rounds to zero for two different values), also after [|| 0] has turned a
    zero of either sign into [0]. *)

Class JSNumber (number : Type) : Type := {
  (** the value of a decimal literal of the source *)
  num_lit : Q -> number;
  num_add : number -> number -> number;
  num_sub : number -> number -> number;
  num_mul : number -> number -> number;
  num_div : number -> number -> number;
  (** [a <= b] and [a < b] *)
  num_le : number -> number -> bool;
  num_lt : number -> number -> bool;
  (** truthiness: what [a || b] and [!a] test *)
  num_truthy : number -> bool;
  Math_PI : number;
  Math_sin : number -> number;
  Math_cos : number -> number;
  Math_sqrt : number -> number;
  Math_atan2 : number -> number -> number;
  (** [parseFloat(x.toFixed(1))] *)
  num_toFixed1 : number -> number;

  num_le_trans : forall a b c,
    num_le a b = true -> num_le b c = true -> num_le a c = true;
  num_le_total : forall a b,
    num_le a a = true -> num_le b b = true ->
    num_le a b = true \/ num_le b a = true;
  num_le_self : forall a b,
    num_le a b = true -> num_le a a = true /\ num_le b b = true;
  num_sub_sign : forall a b,
    num_le a a = true -> num_le b b = true ->
    let or0 := fun x => if num_truthy x then x else num_lit 0 in
    num_lt (num_lit 0) (num_sub (or0 a) (or0 b)) = negb (num_le a b)
}.

(** [a || 0] where [a] is a number, [null] or [undefined]. *)
Definition or_zero {number} `{JSNumber number} (a : option number) : number :=
  match a with
  | Some x => if num_truthy x then x else num_lit 0
  | None => num_lit 0
  end.

(** ** Arrays

    [Array.prototype.sort(comparefn)] is stable; [comparefn(x, y) > 0] is what
    places [x] after [y].  The model inserts the elements from the last to the
    first, each one in front of the part already sorted and then past the
    elements it has to follow.  For a comparison function that orders the
    elements consistently every stable sort returns this list. *)

Section ArraySort.
Context {number : Type} `{JSNumber number} {A : Type}.
Variable comparefn : A -> A -> number.

Fixpoint sort_insert (x : A) (l : list A) : list A :=
  match l with
  | [] => [x]
  | y :: l' =>
    if num_lt (num_lit 0) (comparefn x y)
    then y :: sort_insert x l'
    else x :: l
  end.

Definition Array_sort (l : list A) : list A := fold_right sort_insert [] l.

End ArraySort.

(** [Array.prototype.find]. *)
Definition Array_find {A} (f : A -> bool) (l : list A) : option A := List.find f l.

(** [l.map(f).filter(Boolean)] where [f] yields an object or [null]. *)
Fixpoint map_filter_Boolean {A B} (f : A -> option B) (l : list A) : list B :=
  match l with
  | [] => []
  | x :: l' =>
    match f x with
    | Some y => y :: map_filter_Boolean f l'
    | None => map_filter_Boolean f l'
    end
  end.

(** ** The schema (the module [@shared/schema]) *)

Module User.
Record t : Type := mk {
  id : Z;
  username : string;
  password : string;
  email : string;
  name : string;
  avatar : option string;
  createdAt : Z
}.
End User.

Module InsertUser.
Record t : Type := mk {
  username : string;
  password : string;
  email : string;
  name : string;
  avatar : option string
}.
End InsertUser.

(** A row of [events].  [distanceInKilometers] is the column of the schema;
    [distanceInMiles] is the property that [MemStorage.createEvent] sets to
    [null] and that [getEventsNearLocation] attaches.  A property that is
    absent is [None] like one that is [null]. *)
Module Event.
Record t (number : Type) : Type := mk {
  id : Z;
  title : string;
  description : string;
  location : string;
  address : string;
  latitude : number;
  longitude : number;
  date : Z;
  endDate : option Z;
  categoryId : string;
  price : option Z;
  isFree : bool;
  imageUrl : option string;
  hostId : Z;
  isOnline : bool;
  createdAt : Z;
  distanceInKilometers : option number;
  distanceInMiles : option number
}.

(** [{ ...event, distanceInMiles }] *)
Definition with_distanceInMiles {number} (d : number) (e : t number) : t number :=
  mk (id e) (title e) (description e) (location e) (address e) (latitude e)
     (longitude e) (date e) (endDate e) (categoryId e) (price e) (isFree e)
     (imageUrl e) (hostId e) (isOnline e) (createdAt e)
     (distanceInKilometers e) (Some d).
End Event.

Module InsertEvent.
Record t (number : Type) : Type := mk {
  title : string;
  description : string;
  location : string;
  address : string;
  latitude : number;
  longitude : number;
  date : Z;
  endDate : option Z;
  categoryId : string;
  price : option Z;
  isFree : option bool;
  imageUrl : option string;
  hostId : Z;
  isOnline : option bool
}.
End InsertEvent.

(** [Partial<InsertEvent>]: a field is absent ([None]) or given; a nullable
    field that is given holds a value or [null]. *)
Module PartialInsertEvent.
Record t (number : Type) : Type := mk {
  title : option string;
  description : option string;
  location : option string;
  address : option string;
  latitude : option number;
  longitude : option number;
  date : option Z;
  endDate : option (option Z);
  categoryId : option string;
  price : option (option Z);
  isFree : option bool;
  imageUrl : option (option string);
  hostId : option Z;
  isOnline : option bool
}.

Definition or_else {A} (given : option A) (old : A) : A :=
  match given with
  | Some a => a
  | None => old
  end.

(** [{ ...event, ...eventUpdate }] *)
Definition spread {number} (event : Event.t number) (eventUpdate : t number)
  : Event.t number :=
  Event.mk (Event.id event)
    (or_else (title eventUpdate) (Event.title event))
    (or_else (description eventUpdate) (Event.description event))
    (or_else (location eventUpdate) (Event.location event))
    (or_else (address eventUpdate) (Event.address event))
    (or_else (latitude eventUpdate) (Event.latitude event))
    (or_else (longitude eventUpdate) (Event.longitude event))
    (or_else (date eventUpdate) (Event.date event))
    (or_else (endDate eventUpdate) (Event.endDate event))
    (or_else (categoryId eventUpdate) (Event.categoryId event))
    (or_else (price eventUpdate) (Event.price event))
    (or_else (isFree eventUpdate) (Event.isFree event))
    (or_else (imageUrl eventUpdate) (Event.imageUrl event))
    (or_else (hostId eventUpdate) (Event.hostId event))
    (or_else (isOnline eventUpdate) (Event.isOnline event))
    (Event.createdAt event)
    (Event.distanceInKilometers event)
    (Event.distanceInMiles event).
End PartialInsertEvent.

Module Attendee.
Record t : Type := mk {
  id : Z;
  userId : Z;
  eventId : Z;
  createdAt : Z
}.
End Attendee.

Module InsertAttendee.
Record t : Type := mk {
  userId : Z;
  eventId : Z
}.
End InsertAttendee.

(** The [{ id, name, avatar }] summary of a user. *)
Module Summary.
Record t : Type := mk {
  id : Z;
  name : string;
  avatar : string
}.

(** [{ id: user.id, name: user.name, avatar: user.avatar || '' }] *)
Definition of_user (u : User.t) : t :=
  mk (User.id u) (User.name u) (JsString.or_empty (User.avatar u)).

(** [{ id: 0, name: 'Unknown', avatar: '' }] *)
Definition unknown : t := mk 0 "Unknown" "".
End Summary.

Module EventWithAttendees.
Record t (number : Type) : Type := mk {
  event : Event.t number;
  attendees : nat;
  attendeesList : list Summary.t;
  host : Summary.t
}.

(** [{ ...event, distanceInMiles }] on an enriched event *)
Definition with_distanceInMiles {number} (d : number) (e : t number) : t number :=
  mk (Event.with_distanceInMiles d (event e)) (attendees e) (attendeesList e) (host e).

Definition distanceInMiles {number} (e : t number) : option number :=
  Event.distanceInMiles (event e).
End EventWithAttendees.

(** ** Asynchronous calls on a store

    A call gives back a value or throws, and leaves the store in a new state;
    what the statements before a throw did stays done. *)

Inductive Exception : Type :=
| TypeError
| ConstraintViolation (constraint : string).

Inductive outcome (A : Type) : Type :=
| Returns (a : A)
| Throws (e : Exception).
Arguments Returns {A} a.
Arguments Throws {A} e.

Definition Async (S A : Type) : Type := S -> outcome A * S.

Definition ret {S A} (a : A) : Async S A := fun s => (Returns a, s).

Definition throw {S A} (e : Exception) : Async S A := fun s => (Throws e, s).

Definition bind {S A B} (m : Async S A) (k : A -> Async S B) : Async S B :=
  fun s =>
    match m s with
    | (Returns a, s') => k a s'
    | (Throws e, s') => (Throws e, s')
    end.

(** [try { m } catch (error) { h }] *)
Definition try_catch {S A} (m : Async S A) (h : Exception -> Async S A) : Async S A :=
  fun s =>
    match m s with
    | (Returns a, s') => (Returns a, s')
    | (Throws e, s') => h e s'
    end.

(** a read of the store *)
Definition read {S A} (f : S -> A) : Async S A := fun s => (Returns (f s), s).

Notation "x <- m ;; k" := (bind m (fun x => k))
  (at level 61, m at next level, right associativity).
Notation "m ;;; k" := (bind m (fun _ => k))
  (at level 61, right associativity).

(** ** [Map<number, V>]

    The entries in insertion order, which is the order [values()] yields
    them in; [set] on a key that is present keeps its place. *)

Module JsMap.

Definition t (V : Type) : Type := list (Z * V).

Definition empty {V} : t V := [].

Definition get {V} (k : Z) (m : t V) : option V :=
  match List.find (fun p => Z.eqb (fst p) k) m with
  | Some p => Some (snd p)
  | None => None
  end.

Definition has {V} (k : Z) (m : t V) : bool :=
  existsb (fun p => Z.eqb (fst p) k) m.

Fixpoint replace {V} (k : Z) (v : V) (m : t V) : t V :=
  match m with
  | [] => []
  | p :: m' => if Z.eqb (fst p) k then (k, v) :: m' else p :: replace k v m'
  end.

Definition set {V} (k : Z) (v : V) (m : t V) : t V :=
  if has k m then replace k v m else m ++ [(k, v)].

(** [m.delete(k)]: whether the key was there, and the map without it. *)
Definition delete {V} (k : Z) (m : t V) : bool * t V :=
  (has k m, filter (fun p => negb (Z.eqb (fst p) k)) m).

Definition values {V} (m : t V) : list V := map snd m.

End JsMap.

(** ** The sample data of [seedData] and [seedDatabase]

    The two seeding methods create the same users and events; the events
    differ only in where the host id comes from.  A timestamp written without
    a zone is read in the zone of the process; the values below are those of
    a process running in UTC. *)

Module Seed.
Section WithNumber.
Context {number : Type} `{JSNumber number}.

Definition user1 : InsertUser.t :=
  InsertUser.mk "johndoe" "password123" "john@example.com" "John Doe"
    (Some "https://images.unsplash.com/photo-1500648767791-00dcc994a43e?ixlib=rb-1.2.1&ixid=eyJhcHBfaWQiOjEyMDd9&auto=format&fit=facearea&facepad=2&w=256&h=256&q=80").

Definition user2 : InsertUser.t :=
  InsertUser.mk "janedoe" "password123" "jane@example.com" "Jane Doe"
    (Some "https://images.unsplash.com/photo-1494790108377-be9c29b29330?ixlib=rb-1.2.1&ixid=eyJhcHBfaWQiOjEyMDd9&auto=format&fit=facearea&facepad=2&w=256&h=256&q=80").

Definition event1 (hostId : Z) : InsertEvent.t number :=
  InsertEvent.mk "Summer Music Festival"
    "Join us for a day of amazing music performances in Central Park!"
    "Central Park" "Central Park, New York, NY"
    (num_lit 40.785091) (num_lit (-73.968285))
    1686837600000 (Some 1686866400000) "Music" (Some 25) (Some false)
    (Some "https://images.unsplash.com/photo-1501281668745-f7f57925c3b4?ixlib=rb-1.2.1&auto=format&fit=crop&w=800&h=500&q=80")
    hostId (Some false).

Definition event2 (hostId : Z) : InsertEvent.t number :=
  InsertEvent.mk "Annual Tech Conference"
    "The biggest tech conference in New York City"
    "Javits Center" "Javits Center, New York, NY"
    (num_lit 40.7570877) (num_lit (-74.0028733))
    1687597200000 (Some 1687629600000) "Business" (Some 149) (Some false)
    (Some "https://images.unsplash.com/photo-1517457373958-b7bdd4587205?ixlib=rb-1.2.1&auto=format&fit=crop&w=800&h=500&q=80")
    hostId (Some false).

Definition event3 (hostId : Z) : InsertEvent.t number :=
  InsertEvent.mk "International Food Festival"
    "Taste foods from all around the world"
    "Bryant Park" "Bryant Park, New York, NY"
    (num_lit 40.753605) (num_lit (-73.9834889))
    1687086000000 (Some 1687118400000) "Food" (Some 0) (Some true)
    (Some "https://images.unsplash.com/photo-1470753937643-efeb931202a9?ixlib=rb-1.2.1&auto=format&fit=crop&w=800&h=500&q=80")
    hostId (Some false).

Definition event4 (hostId : Z) : InsertEvent.t number :=
  InsertEvent.mk "Modern Art Exhibition"
    "Featuring modern art from local and international artists"
    "MoMA" "MoMA, New York, NY"
    (num_lit 40.7614327) (num_lit (-73.9776216))
    1687255200000 (Some 1687284000000) "Arts" (Some 15) (Some false)
    (Some "https://images.unsplash.com/photo-1527525443983-6e60c75fff46?ixlib=rb-1.2.1&auto=format&fit=crop&w=800&h=500&q=80")
    hostId (Some false).

Definition event5 (hostId : Z) : InsertEvent.t number :=
  InsertEvent.mk "Startup Networking Mixer"
    "Connect with other entrepreneurs and startups in NYC"
    "WeWork" "WeWork, New York, NY"
    (num_lit 40.7484) (num_lit (-73.9857))
    1687458600000 (Some 1687469400000) "Business" (Some 10) (Some false)
    (Some "https://images.unsplash.com/photo-1521737604893-d14cc237f11d?ixlib=rb-1.2.1&auto=format&fit=crop&w=800&h=500&q=80")
    hostId (Some false).

Definition event6 (hostId : Z) : InsertEvent.t number :=
  InsertEvent.mk "Sunset Yoga Workshop"
    "Relax and unwind with sunset yoga on the High Line"
    "The High Line" "The High Line, New York, NY"
    (num_lit 40.7479925) (num_lit (-74.0047649))
    1686942000000 (Some 1686947400000) "Health" (Some 20) (Some false)
    (Some "https://images.unsplash.com/photo-1540747913346-19e32dc3e97e?ixlib=rb-1.2.1&auto=format&fit=crop&w=800&h=500&q=80")
    hostId (Some false).

End WithNumber.
End Seed.

(** ** [class MemStorage] ([server/storage.ts]) *)

Module MemStorage.

Record t (number : Type) : Type := mk {
  users : JsMap.t User.t;
  events : JsMap.t (Event.t number);
  attendees : JsMap.t Attendee.t;
  userId : Z;
  eventId : Z;
  attendeeId : Z
}.

Section WithNumber.
Context {number : Type} `{JSNumber number}.

Local Abbreviation store := (t number).

Definition getUser (st : store) (id : Z) : option User.t :=
  JsMap.get id (users st).

Definition getUserByUsername (st : store) (username : string) : option User.t :=
  Array_find (fun user => String.eqb (User.username user) username)
    (JsMap.values (users st)).

Definition createUser (now : Z) (insertUser : InsertUser.t) : Async store User.t :=
  fun st =>
    let id := userId st in
    let createdAt := now in
    let user :=
      User.mk id (InsertUser.username insertUser) (InsertUser.password insertUser)
        (InsertUser.email insertUser) (InsertUser.name insertUser)
        (InsertUser.avatar insertUser) createdAt in
    (Returns user,
     mk (JsMap.set id user (users st)) (events st) (attendees st)
        (userId st + 1) (eventId st) (attendeeId st)).

Definition getEvent (st : store) (id : Z) : option (EventWithAttendees.t number) :=
  match JsMap.get id (events st) with
  | None => None
  | Some event =>
    let eventAttendees :=
      filter (fun a => Z.eqb (Attendee.eventId a) id) (JsMap.values (attendees st)) in
    match JsMap.get (Event.hostId event) (users st) with
    | None => None
    | Some host =>
      let attendeeUsers :=
        map_filter_Boolean
          (fun a =>
             match JsMap.get (Attendee.userId a) (users st) with
             | Some user => Some (Summary.of_user user)
             | None => None
             end)
          eventAttendees in
      Some (EventWithAttendees.mk event (List.length eventAttendees) attendeeUsers
              (Summary.of_user host))
    end
  end.

(** The entries are what [getEvent] gave: the cast to
    [Promise<EventWithAttendees>] does not turn [undefined] into an event. *)
Definition getAllEvents (st : store) : list (option (EventWithAttendees.t number)) :=
  let events := JsMap.values (events st) in
  map (fun event => getEvent st (Event.id event)) events.

Definition getEventsByCategory (st : store) (categoryId : string)
  : list (option (EventWithAttendees.t number)) :=
  if String.eqb categoryId "All" then getAllEvents st
  else
    let events :=
      filter (fun event => String.eqb (Event.categoryId event) categoryId)
        (JsMap.values (events st)) in
    map (fun event => getEvent st (Event.id event)) events.

Definition deg2rad (deg : number) : number :=
  num_mul deg (num_div Math_PI (num_lit 180)).

Definition calculateDistance (lat1 lon1 lat2 lon2 : number) : number :=
  let R := num_lit 3958.8 in
  let dLat := deg2rad (num_sub lat2 lat1) in
  let dLon := deg2rad (num_sub lon2 lon1) in
  let a :=
    num_add
      (num_mul (Math_sin (num_div dLat (num_lit 2))) (Math_sin (num_div dLat (num_lit 2))))
      (num_mul
         (num_mul
            (num_mul (Math_cos (deg2rad lat1)) (Math_cos (deg2rad lat2)))
            (Math_sin (num_div dLon (num_lit 2))))
         (Math_sin (num_div dLon (num_lit 2)))) in
  let c :=
    num_mul (num_lit 2)
      (Math_atan2 (Math_sqrt a) (Math_sqrt (num_sub (num_lit 1) a))) in
  let distance := num_mul R c in
  num_toFixed1 distance.

(** [allEvents.map(event => ...)]: reading [event.latitude] of an entry that
    is [undefined] throws. *)
Fixpoint attach_distances (lat lng : number)
    (allEvents : list (option (EventWithAttendees.t number)))
  : outcome (list (EventWithAttendees.t number)) :=
  match allEvents with
  | [] => Returns []
  | None :: _ => Throws TypeError
  | Some event :: rest =>
    let distanceInMiles :=
      calculateDistance lat lng
        (Event.latitude (EventWithAttendees.event event))
        (Event.longitude (EventWithAttendees.event event)) in
    match attach_distances lat lng rest with
    | Returns rest' =>
      Returns (EventWithAttendees.with_distanceInMiles distanceInMiles event :: rest')
    | Throws e => Throws e
    end
  end.

(** [event.distanceInMiles <= distance]; the field has just been set, the
    other branch is what [null <= distance] tests. *)
Definition within (distance : number) (event : EventWithAttendees.t number) : bool :=
  match EventWithAttendees.distanceInMiles event with
  | Some d => num_le d distance
  | None => num_le (num_lit 0) distance
  end.

(** [(a, b) => (a.distanceInMiles || 0) - (b.distanceInMiles || 0)] *)
Definition by_distance (a b : EventWithAttendees.t number) : number :=
  num_sub (or_zero (EventWithAttendees.distanceInMiles a))
          (or_zero (EventWithAttendees.distanceInMiles b)).

Definition getEventsNearLocation (st : store) (lat lng distance : number)
  : outcome (list (EventWithAttendees.t number)) :=
  let allEvents := getAllEvents st in
  match attach_distances lat lng allEvents with
  | Returns withDistance =>
    Returns (Array_sort by_distance (filter (within distance) withDistance))
  | Throws e => Throws e
  end.

Definition searchEvents (st : store) (query : string)
  : list (option (EventWithAttendees.t number)) :=
  let lowercaseQuery := JsString.toLowerCase query in
  let events :=
    filter
      (fun event =>
         JsString.includes (JsString.toLowerCase (Event.title event)) lowercaseQuery
         || JsString.includes (JsString.toLowerCase (Event.description event)) lowercaseQuery
         || JsString.includes (JsString.toLowerCase (Event.location event)) lowercaseQuery)
      (JsMap.values (events st)) in
  map (fun event => getEvent st (Event.id event)) events.

Definition createEvent (now : Z) (insertEvent : InsertEvent.t number)
  : Async store (Event.t number) :=
  fun st =>
    let id := eventId st in
    let createdAt := now in
    let event :=
      Event.mk id
        (InsertEvent.title insertEvent) (InsertEvent.description insertEvent)
        (InsertEvent.location insertEvent) (InsertEvent.address insertEvent)
        (InsertEvent.latitude insertEvent) (InsertEvent.longitude insertEvent)
        (InsertEvent.date insertEvent)
        (InsertEvent.endDate insertEvent)
        (InsertEvent.categoryId insertEvent)
        (InsertEvent.price insertEvent)
        (match InsertEvent.isFree insertEvent with Some b => b | None => false end)
        (InsertEvent.imageUrl insertEvent)
        (InsertEvent.hostId insertEvent)
        (match InsertEvent.isOnline insertEvent with Some b => b | None => false end)
        createdAt
        None
        None in
    (Returns event,
     mk (users st) (JsMap.set id event (events st)) (attendees st)
        (userId st) (eventId st + 1) (attendeeId st)).

Definition updateEvent (id : Z) (eventUpdate : PartialInsertEvent.t number)
  : Async store (option (Event.t number)) :=
  fun st =>
    match JsMap.get id (events st) with
    | None => (Returns None, st)
    | Some event =>
      let updatedEvent := PartialInsertEvent.spread event eventUpdate in
      (Returns (Some updatedEvent),
       mk (users st) (JsMap.set id updatedEvent (events st)) (attendees st)
          (userId st) (eventId st) (attendeeId st))
    end.

Definition deleteEvent (id : Z) : Async store bool :=
  fun st =>
    let '(removed, events') := JsMap.delete id (events st) in
    (Returns removed,
     mk (users st) events' (attendees st) (userId st) (eventId st) (attendeeId st)).

Definition getEventAttendees (st : store) (eventId : Z) : list Attendee.t :=
  filter (fun attendee => Z.eqb (Attendee.eventId attendee) eventId)
    (JsMap.values (attendees st)).

Definition createAttendee (now : Z) (insertAttendee : InsertAttendee.t)
  : Async store Attendee.t :=
  fun st =>
    let id := attendeeId st in
    let createdAt := now in
    let attendee :=
      Attendee.mk id (InsertAttendee.userId insertAttendee)
        (InsertAttendee.eventId insertAttendee) createdAt in
    (Returns attendee,
     mk (users st) (events st) (JsMap.set id attendee (attendees st))
        (userId st) (eventId st) (attendeeId st + 1)).

Definition deleteAttendee (userId' eventId' : Z) : Async store bool :=
  fun st =>
    match Array_find
            (fun a => Z.eqb (Attendee.userId a) userId' && Z.eqb (Attendee.eventId a) eventId')
            (JsMap.values (attendees st)) with
    | None => (Returns false, st)
    | Some attendee =>
      let '(removed, attendees') := JsMap.delete (Attendee.id attendee) (attendees st) in
      (Returns removed,
       mk (users st) (events st) attendees' (userId st) (eventId st) (attendeeId st))
    end.

Definition isUserAttending (st : store) (userId' eventId' : Z) : bool :=
  existsb
    (fun a => Z.eqb (Attendee.userId a) userId' && Z.eqb (Attendee.eventId a) eventId')
    (JsMap.values (attendees st)).

Definition seedData (now : Z) : Async store unit :=
  user1 <- createUser now Seed.user1 ;;
  user2 <- createUser now Seed.user2 ;;
  event1 <- createEvent now (Seed.event1 1) ;;
  event2 <- createEvent now (Seed.event2 2) ;;
  event3 <- createEvent now (Seed.event3 1) ;;
  event4 <- createEvent now (Seed.event4 2) ;;
  event5 <- createEvent now (Seed.event5 1) ;;
  event6 <- createEvent now (Seed.event6 2) ;;
  createAttendee now (InsertAttendee.mk 1 2) ;;;
  createAttendee now (InsertAttendee.mk 2 1) ;;;
  createAttendee now (InsertAttendee.mk 1 3) ;;;
  createAttendee now (InsertAttendee.mk 2 3) ;;;
  createAttendee now (InsertAttendee.mk 1 5) ;;;
  createAttendee now (InsertAttendee.mk 2 4) ;;;
  createAttendee now (InsertAttendee.mk 1 6) ;;;
  ret tt.

(** [new MemStorage()] *)
Definition constructor (now : Z) : store :=
  snd (seedData now (mk JsMap.empty JsMap.empty JsMap.empty 1 1 1)).

End WithNumber.
End MemStorage.

(** ** [class PgStorage] (the module [./pgStorage])

    The database is the three tables of the migration, each a list of rows in
    the order the rows were inserted, and the three [SERIAL] sequences.  The
    statements of the query builder are the list operations below; a [select]
    without [ORDER BY] yields the rows in the order of the table.  The
    constraints are the ones the migration declares.  Failures of the
    connection are not modelled. *)

Module PgStorage.

Record t (number : Type) : Type := mk {
  users : list User.t;
  events : list (Event.t number);
  attendees : list Attendee.t;
  users_id_seq : Z;
  events_id_seq : Z;
  attendees_id_seq : Z
}.

Section WithNumber.
Context {number : Type} `{JSNumber number}.

Local Abbreviation db := (t number).

(** [db.select().from(table).where(condition)] *)
Definition select_where {Row} (table : list Row) (condition : Row -> bool) : list Row :=
  filter condition table.

(** [result[0]] *)
Definition first {Row} (result : list Row) : option Row := hd_error result.

(** a constraint of the schema: the statement fails when it does not hold *)
Definition check {S} (ok : bool) (constraint : string) : Async S unit :=
  if ok then ret tt else throw (ConstraintViolation constraint).

(** [nextval] of the three sequences; a value drawn is not given back when
    the insert fails. *)
Definition nextval_users_id : Async db Z :=
  fun d =>
    (Returns (users_id_seq d),
     mk (users d) (events d) (attendees d)
        (users_id_seq d + 1) (events_id_seq d) (attendees_id_seq d)).

Definition nextval_events_id : Async db Z :=
  fun d =>
    (Returns (events_id_seq d),
     mk (users d) (events d) (attendees d)
        (users_id_seq d) (events_id_seq d + 1) (attendees_id_seq d)).

Definition nextval_attendees_id : Async db Z :=
  fun d =>
    (Returns (attendees_id_seq d),
     mk (users d) (events d) (attendees d)
        (users_id_seq d) (events_id_seq d) (attendees_id_seq d + 1)).

(** [db.insert(users).values(user).returning()] *)
Definition insert_user (now : Z) (user : InsertUser.t) : Async db (list User.t) :=
  id <- nextval_users_id ;;
  let row :=
    User.mk id (InsertUser.username user) (InsertUser.password user)
      (InsertUser.email user) (InsertUser.name user) (InsertUser.avatar user) now in
  table <- read (@users number) ;;
  check (negb (existsb (fun u => Z.eqb (User.id u) id) table))
    "users_pkey" ;;;
  check (negb (existsb (fun u => String.eqb (User.username u) (User.username row)) table))
    "users_username_key" ;;;
  check (negb (existsb (fun u => String.eqb (User.email u) (User.email row)) table))
    "users_email_key" ;;;
  fun d =>
    (Returns [row],
     mk (users d ++ [row]) (events d) (attendees d)
        (users_id_seq d) (events_id_seq d) (attendees_id_seq d)).

(** [db.insert(events).values(event).returning()]; the columns the payload
    leaves out take their defaults. *)
Definition insert_event (now : Z) (event : InsertEvent.t number)
  : Async db (list (Event.t number)) :=
  id <- nextval_events_id ;;
  let row :=
    Event.mk id
      (InsertEvent.title event) (InsertEvent.description event)
      (InsertEvent.location event) (InsertEvent.address event)
      (InsertEvent.latitude event) (InsertEvent.longitude event)
      (InsertEvent.date event) (InsertEvent.endDate event)
      (InsertEvent.categoryId event) (InsertEvent.price event)
      (match InsertEvent.isFree event with Some b => b | None => false end)
      (InsertEvent.imageUrl event)
      (InsertEvent.hostId event)
      (match InsertEvent.isOnline event with Some b => b | None => false end)
      now None None in
  table <- read (@events number) ;;
  hosts <- read (@users number) ;;
  check (negb (existsb (fun e => Z.eqb (Event.id e) id) table))
    "events_pkey" ;;;
  check (existsb (fun u => Z.eqb (User.id u) (Event.hostId row)) hosts)
    "events_host_id_fkey" ;;;
  fun d =>
    (Returns [row],
     mk (users d) (events d ++ [row]) (attendees d)
        (users_id_seq d) (events_id_seq d) (attendees_id_seq d)).

(** [db.insert(attendees).values(attendeeData).returning()] *)
Definition insert_attendee (now : Z) (attendeeData : InsertAttendee.t)
  : Async db (list Attendee.t) :=
  id <- nextval_attendees_id ;;
  let row :=
    Attendee.mk id (InsertAttendee.userId attendeeData)
      (InsertAttendee.eventId attendeeData) now in
  table <- read (@attendees number) ;;
  people <- read (@users number) ;;
  occasions <- read (@events number) ;;
  check (negb (existsb (fun a => Z.eqb (Attendee.id a) id) table))
    "attendees_pkey" ;;;
  check (negb (existsb
                 (fun a => Z.eqb (Attendee.userId a) (Attendee.userId row)
                           && Z.eqb (Attendee.eventId a) (Attendee.eventId row))
                 table))
    "attendees_user_id_event_id_key" ;;;
  check (existsb (fun u => Z.eqb (User.id u) (Attendee.userId row)) people)
    "attendees_user_id_fkey" ;;;
  check (existsb (fun e => Z.eqb (Event.id e) (Attendee.eventId row)) occasions)
    "attendees_event_id_fkey" ;;;
  fun d =>
    (Returns [row],
     mk (users d) (events d) (attendees d ++ [row])
        (users_id_seq d) (events_id_seq d) (attendees_id_seq d)).
(** [db.delete(attendees).where(condition).returning()] *)
Definition delete_attendees (condition : Attendee.t -> bool) : Async db (list Attendee.t) :=
  fun d =>
    (Returns (filter condition (attendees d)),
     mk (users d) (events d) (filter (fun a => negb (condition a)) (attendees d))
        (users_id_seq d) (events_id_seq d) (attendees_id_seq d)).

(** [db.delete(events).where(condition).returning()]; the attendee rows of a
    deleted event go with it ([ON DELETE CASCADE]). *)
Definition delete_events (condition : Event.t number -> bool)
  : Async db (list (Event.t number)) :=
  fun d =>
    let deleted := filter condition (events d) in
    (Returns deleted,
     mk (users d)
        (filter (fun e => negb (condition e)) (events d))
        (filter
           (fun a => negb (existsb (fun e => Z.eqb (Event.id e) (Attendee.eventId a)) deleted))
           (attendees d))
        (users_id_seq d) (events_id_seq d) (attendees_id_seq d)).

Definition getUser (d : db) (id : Z) : option User.t :=
  let result := select_where (users d) (fun u => Z.eqb (User.id u) id) in
  first result.

Definition getUserByUsername (d : db) (username : string) : option User.t :=
  let result := select_where (users d) (fun u => String.eqb (User.username u) username) in
  first result.

Definition createUser (now : Z) (user : InsertUser.t) : Async db (option User.t) :=
  result <- insert_user now user ;;
  ret (first result).

Definition getFormattedAttendees (d : db) (eventId : Z) : list Summary.t :=
  let eventAttendees :=
    select_where (attendees d) (fun a => Z.eqb (Attendee.eventId a) eventId) in
  let attendeeDetails :=
    map
      (fun attendee =>
         let userResult :=
           select_where (users d) (fun u => Z.eqb (User.id u) (Attendee.userId attendee)) in
         match userResult with
         | [] => None
         | user :: _ => Some (Summary.of_user user)
         end)
      eventAttendees in
  map_filter_Boolean (fun attendee => attendee) attendeeDetails.

Definition getEvent (d : db) (id : Z) : option (EventWithAttendees.t number) :=
  let eventResult := select_where (events d) (fun e => Z.eqb (Event.id e) id) in
  match eventResult with
  | [] => None
  | event :: _ =>
    let attendeesList := getFormattedAttendees d id in
    let attendeesCount := List.length attendeesList in
    let hostResult :=
      select_where (users d) (fun u => Z.eqb (User.id u) (Event.hostId event)) in
    match hostResult with
    | [] => None
    | host0 :: _ =>
      let host := Summary.of_user host0 in
      Some (EventWithAttendees.mk event attendeesCount attendeesList host)
    end
  end.

(** The callback the three list methods map over their rows. *)
Definition withDetails (d : db) (event : Event.t number) : EventWithAttendees.t number :=
  let attendeesList := getFormattedAttendees d (Event.id event) in
  let hostResult :=
    select_where (users d) (fun u => Z.eqb (User.id u) (Event.hostId event)) in
  let host :=
    match hostResult with
    | host0 :: _ => Summary.of_user host0
    | [] => Summary.unknown
    end in
  EventWithAttendees.mk event (List.length attendeesList) attendeesList host.

Definition getAllEvents (d : db) : list (EventWithAttendees.t number) :=
  let allEvents := events d in
  let eventsWithDetails := map (withDetails d) allEvents in
  eventsWithDetails.

Definition getEventsByCategory (d : db) (categoryId : string)
  : list (EventWithAttendees.t number) :=
  if String.eqb categoryId "All" then getAllEvents d
  else
    let categoryEvents :=
      select_where (events d) (fun e => String.eqb (Event.categoryId e) categoryId) in
    let eventsWithDetails := map (withDetails d) categoryEvents in
    eventsWithDetails.

Definition deg2rad (deg : number) : number :=
  num_mul deg (num_div Math_PI (num_lit 180)).

Definition calculateDistance (lat1 lon1 lat2 lon2 : number) : number :=
  let R := num_lit 6371 in
  let dLat := deg2rad (num_sub lat2 lat1) in
  let dLon := deg2rad (num_sub lon2 lon1) in
  let a :=
    num_add
      (num_mul (Math_sin (num_div dLat (num_lit 2))) (Math_sin (num_div dLat (num_lit 2))))
      (num_mul
         (num_mul
            (num_mul (Math_cos (deg2rad lat1)) (Math_cos (deg2rad lat2)))
            (Math_sin (num_div dLon (num_lit 2))))
         (Math_sin (num_div dLon (num_lit 2)))) in
  let c :=
    num_mul (num_lit 2)
      (Math_atan2 (Math_sqrt a) (Math_sqrt (num_sub (num_lit 1) a))) in
  let distance := num_mul R c in
  num_toFixed1 distance.

(** [event.distanceInMiles <= distance]; the field has just been set, the
    other branch is what [null <= distance] tests. *)
Definition within (distance : number) (event : EventWithAttendees.t number) : bool :=
  match EventWithAttendees.distanceInMiles event with
  | Some d => num_le d distance
  | None => num_le (num_lit 0) distance
  end.

(** [(a, b) => (a.distanceInMiles || 0) - (b.distanceInMiles || 0)] *)
Definition by_distance (a b : EventWithAttendees.t number) : number :=
  num_sub (or_zero (EventWithAttendees.distanceInMiles a))
          (or_zero (EventWithAttendees.distanceInMiles b)).

Definition getEventsNearLocation (d : db) (lat lng distance : number)
  : list (EventWithAttendees.t number) :=
  let allEvents := getAllEvents d in
  Array_sort by_distance
    (filter (within distance)
       (map
          (fun event =>
             let distanceInMiles :=
               calculateDistance lat lng
                 (Event.latitude (EventWithAttendees.event event))
                 (Event.longitude (EventWithAttendees.event event)) in
             EventWithAttendees.with_distanceInMiles distanceInMiles event)
          allEvents)).

Definition searchEvents (d : db) (query : string) : list (EventWithAttendees.t number) :=
  let searchPattern := ("%" ++ query ++ "%")%string in
  let searchResults :=
    select_where (events d)
      (fun e =>
         Sql.like (Event.title e) searchPattern
         || Sql.like (Event.description e) searchPattern
         || Sql.like (Event.location e) searchPattern) in
  let eventsWithDetails := map (withDetails d) searchResults in
  eventsWithDetails.

Definition createEvent (now : Z) (event : InsertEvent.t number)
  : Async db (option (Event.t number)) :=
  result <- insert_event now event ;;
  ret (first result).

Definition deleteEvent (id : Z) : Async db bool :=
  try_catch
    (delete_attendees (fun a => Z.eqb (Attendee.eventId a) id) ;;;
     result <- delete_events (fun e => Z.eqb (Event.id e) id) ;;
     ret (Nat.ltb 0 (List.length result)))
    (fun error => ret false).

Definition getEventAttendees (d : db) (eventId : Z) : list Attendee.t :=
  select_where (attendees d) (fun a => Z.eqb (Attendee.eventId a) eventId).

Definition createAttendee (now : Z) (attendeeData : InsertAttendee.t)
  : Async db (option Attendee.t) :=
  result <- insert_attendee now attendeeData ;;
  ret (first result).

Definition deleteAttendee (userId eventId : Z) : Async db bool :=
  try_catch
    (result <- delete_attendees
                 (fun a => Z.eqb (Attendee.userId a) userId
                           && Z.eqb (Attendee.eventId a) eventId) ;;
     ret (Nat.ltb 0 (List.length result)))
    (fun error => ret false).

Definition isUserAttending (d : db) (userId eventId : Z) : bool :=
  let result :=
    select_where (attendees d)
      (fun a => Z.eqb (Attendee.userId a) userId && Z.eqb (Attendee.eventId a) eventId) in
  Nat.ltb 0 (List.length result).

(** a database right after the migration *)
Definition migrated : db := mk [] [] [] 1 1 1.

End WithNumber.
End PgStorage.

(** ** [interface IStorage]

    The methods the handlers below call.  A method that only reads is a
    function of the store. *)

Class IStorage (number : Type) (S : Type) : Type := {
  getUserByUsername : S -> string -> option User.t;
  getEvent : S -> Z -> option (EventWithAttendees.t number);
  isUserAttending : S -> Z -> Z -> bool;
  getEventAttendees : S -> Z -> list Attendee.t;
  createAttendee : Z -> InsertAttendee.t -> Async S (option Attendee.t)
}.

#[export] Instance MemStorage_IStorage {number}
  : IStorage number (MemStorage.t number) := {
  getUserByUsername := MemStorage.getUserByUsername;
  getEvent := MemStorage.getEvent;
  isUserAttending := MemStorage.isUserAttending;
  getEventAttendees := MemStorage.getEventAttendees;
  createAttendee := fun now a =>
    attendee <- MemStorage.createAttendee now a ;; ret (Some attendee)
}.

(** [export const storage = pgStorage] *)
#[export] Instance PgStorage_IStorage {number}
  : IStorage number (PgStorage.t number) := {
  getUserByUsername := PgStorage.getUserByUsername;
  getEvent := PgStorage.getEvent;
  isUserAttending := PgStorage.isUserAttending;
  getEventAttendees := PgStorage.getEventAttendees;
  createAttendee := PgStorage.createAttendee
}.

(** ** The handlers of [registerRoutes] ([server/routes.ts]) *)

Module Routes.

(** [req.session]: [SessionData] of [server/types.ts] *)
Record Session : Type := mkSession {
  user : option User.t;
  userId : option Z
}.

(** a user record with [password] taken out *)
Record UserWithoutPassword : Type := mkUserWithoutPassword {
  id : Z;
  username : string;
  email : string;
  name : string;
  avatar : option string;
  createdAt : Z
}.

Definition without_password (u : User.t) : UserWithoutPassword :=
  mkUserWithoutPassword (User.id u) (User.username u) (User.email u) (User.name u)
    (User.avatar u) (User.createdAt u).

(** The JSON bodies the two handlers send. *)
Inductive Body (number : Type) : Type :=
| Message (message : string)
    (** [{ message }] *)
| Failure (message : string)
    (** [{ success: false, message }] *)
| LoggedIn (user : UserWithoutPassword)
    (** [{ success: true, user }] *)
| UpdatedEvent (event : option (EventWithAttendees.t number)).
Arguments Message {number} message.
Arguments Failure {number} message.
Arguments LoggedIn {number} user.
Arguments UpdatedEvent {number} event.

Record Response (number : Type) : Type := mkResponse {
  status : Z;
  body : Body number
}.

Section Handlers.
Context {number : Type} {S : Type} `{IStorage number S}.

(** [!req.session.userId] *)
Definition not_logged_in (session : Session) : bool :=
  match userId session with
  | None => true
  | Some n => Z.eqb n 0
  end.

(** [app.post("/api/auth/login", ...)]; [username] and [password] are the two
    fields of [req.body], each a string or absent.  The handler gives the
    response and the session it leaves. *)
Definition login (st : S) (session : Session) (username password : option string)
  : Response number * Session :=
  if JsString.falsy username || JsString.falsy password then
    (mkResponse 400 (Failure "Username and password are required"), session)
  else
    let user := getUserByUsername st (JsString.or_empty username) in
    match user with
    | None =>
      (mkResponse 401 (Failure "Invalid username or password"), session)
    | Some user =>
      if negb (String.eqb (User.password user) (JsString.or_empty password)) then
        (mkResponse 401 (Failure "Invalid username or password"), session)
      else
        (mkResponse 200 (LoggedIn (without_password user)),
         mkSession (Some user) (Some (User.id user)))
    end.

(** [app.post("/api/events/:id/attend", ...)]; [id] is [req.params.id]. *)
Definition attend (now : Z) (session : Session) (id : string) : Async S (Response number) :=
  try_catch
    (if not_logged_in session then
       ret (mkResponse 401 (Message "You must be logged in to register for events"))
     else
       match JsString.parseInt id with
       | None => ret (mkResponse 400 (Message "Invalid event ID"))
       | Some eventId =>
         let userId := match userId session with Some n => n | None => 0 end in
         isAttending <- read (fun st => isUserAttending st userId eventId) ;;
         if (isAttending : bool) then
           ret (mkResponse 400 (Message "You are already registered for this event"))
         else
           newAttendee <- createAttendee now (InsertAttendee.mk userId eventId) ;;
           updatedEvent <- read (fun st => getEvent st eventId) ;;
           ret (mkResponse 201 (UpdatedEvent updatedEvent))
       end)
    (fun error => ret (mkResponse 500 (Message "Failed to register for event"))).

End Handlers.
End Routes.

(** ** Notions the properties are stated with *)

(** From the specification of [searchEvents]: [q] is a case-insensitive
    substring of [t] when some run of consecutive characters of [t] is [q] up
    to the case of the letters. *)
Definition case_insensitive_substring (q t : string) : Prop :=
  exists pre mid post,
    t = (pre ++ mid ++ post)%string /\
    JsString.toLowerCase mid = JsString.toLowerCase q.

(** From the specification of [searchEvents]: a match in any one of the three
    fields qualifies the event. *)
Definition search_matches {number} (q : string) (e : Event.t number) : Prop :=
  case_insensitive_substring q (Event.title e) \/
  case_insensitive_substring q (Event.description e) \/
  case_insensitive_substring q (Event.location e).

(** the test of the filter in [MemStorage.searchEvents] *)
Definition mem_search_test {number} (query : string) (event : Event.t number) : bool :=
  let lowercaseQuery := JsString.toLowerCase query in
  JsString.includes (JsString.toLowerCase (Event.title event)) lowercaseQuery
  || JsString.includes (JsString.toLowerCase (Event.description event)) lowercaseQuery
  || JsString.includes (JsString.toLowerCase (Event.location event)) lowercaseQuery.

(** the test of the [where] in [PgStorage.searchEvents] *)
Definition pg_search_test {number} (query : string) (e : Event.t number) : bool :=
  let searchPattern := ("%" ++ query ++ "%")%string in
  Sql.like (Event.title e) searchPattern
  || Sql.like (Event.description e) searchPattern
  || Sql.like (Event.location e) searchPattern.

(** a character with no special meaning in a [LIKE] pattern *)
Definition plain_ascii (c : ascii) : bool :=
  negb (Ascii.eqb c "%") && negb (Ascii.eqb c "_") && negb (Ascii.eqb c "\").

(** a query without such characters *)
Fixpoint plain (q : string) : bool :=
  match q with
  | EmptyString => true
  | String c q' => plain_ascii c && plain q'
  end.

(** The representation invariant of a [Map] keyed by the id of its values:
    no key twice, and every value under its own id. *)
Definition keyed {V} (key : V -> Z) (m : JsMap.t V) : Prop :=
  NoDup (map fst m) /\ Forall (fun p => key (snd p) = fst p) m.

(** The stores a [MemStorage] object goes through. *)
Inductive reachable {number} `{JSNumber number} : MemStorage.t number -> Prop :=
| reach_constructor (now : Z) :
    reachable (MemStorage.constructor now)
| reach_createUser (now : Z) (u : InsertUser.t) st :
    reachable st -> reachable (snd (MemStorage.createUser now u st))
| reach_createEvent (now : Z) (p : InsertEvent.t number) st :
    reachable st -> reachable (snd (MemStorage.createEvent now p st))
| reach_updateEvent (id : Z) (p : PartialInsertEvent.t number) st :
    reachable st -> reachable (snd (MemStorage.updateEvent id p st))
| reach_deleteEvent (id : Z) st :
    reachable st -> reachable (snd (MemStorage.deleteEvent id st))
| reach_createAttendee (now : Z) (a : InsertAttendee.t) st :
    reachable st -> reachable (snd (MemStorage.createAttendee now a st))
| reach_deleteAttendee (userId eventId : Z) st :
    reachable st -> reachable (snd (MemStorage.deleteAttendee userId eventId st)).

(** An entry of a listing of [MemStorage] stands for a stored event: it is
    that event enriched, or [undefined] because the host is missing. *)
Definition stands_for {number} (st : MemStorage.t number) (e : Event.t number)
    (r : option (EventWithAttendees.t number)) : Prop :=
  match r with
  | Some x => EventWithAttendees.event x = e
  | None => MemStorage.getUser st (Event.hostId e) = None
  end.

(** the entries of a listing of [MemStorage] that are events *)
Definition defined_entries {number} (l : list (option (EventWithAttendees.t number)))
  : list (EventWithAttendees.t number) :=
  map_filter_Boolean (fun r => r) l.

Section Ordering.
Context {number : Type} `{JSNumber number}.

(** an element whose key is a number other than [NaN] *)
Definition comparable {A} (key : A -> number) (x : A) : Prop :=
  num_le (key x) (key x) = true.

Definition key_le {A} (key : A -> number) (x y : A) : Prop :=
  num_le (key x) (key y) = true.

(** the number the comparison function of [getEventsNearLocation] reads *)
Definition distance_key (e : EventWithAttendees.t number) : number :=
  match EventWithAttendees.distanceInMiles e with
  | Some d => d
  | None => num_lit 0
  end.

(** The list is in ascending order of the attached distance: of two
    elements the earlier one carries the smaller or equal distance. *)
Definition ascending_by_distance (l : list (EventWithAttendees.t number)) : Prop :=
  StronglySorted
    (fun a b =>
       exists x y,
         EventWithAttendees.distanceInMiles a = Some x /\
         EventWithAttendees.distanceInMiles b = Some y /\
         num_le x y = true)
    l.

(** an enriched event with the distance from [(lat, lng)] attached *)
Definition with_distance (calculateDistance : number -> number -> number -> number -> number)
    (lat lng : number) (event : EventWithAttendees.t number)
  : EventWithAttendees.t number :=
  EventWithAttendees.with_distanceInMiles
    (calculateDistance lat lng
       (Event.latitude (EventWithAttendees.event event))
       (Event.longitude (EventWithAttendees.event event)))
    event.

(** the distance from [(lat, lng)] is at most [distance] *)
Definition near (calculateDistance : number -> number -> number -> number -> number)
    (lat lng distance : number) (event : EventWithAttendees.t number) : bool :=
  num_le
    (calculateDistance lat lng
       (Event.latitude (EventWithAttendees.event event))
       (Event.longitude (EventWithAttendees.event event)))
    distance.

End Ordering.

(** The event a payload describes: its fields, the defaults for what it
    leaves out, and the id and creation time it is given. *)
Definition event_of_payload {number} (id now : Z) (p : InsertEvent.t number)
  : Event.t number :=
  Event.mk id
    (InsertEvent.title p) (InsertEvent.description p) (InsertEvent.location p)
    (InsertEvent.address p) (InsertEvent.latitude p) (InsertEvent.longitude p)
    (InsertEvent.date p) (InsertEvent.endDate p) (InsertEvent.categoryId p)
    (InsertEvent.price p)
    (match InsertEvent.isFree p with Some b => b | None => false end)
    (InsertEvent.imageUrl p) (InsertEvent.hostId p)
    (match InsertEvent.isOnline p with Some b => b | None => false end)
    now None None.

(** the summaries of the attendee rows whose user is found by [getUser], in
    the order of the rows; a row whose user is not found gives nothing *)
Definition resolved_attendees (getUser : Z -> option User.t) (rows : list Attendee.t)
  : list Summary.t :=
  map_filter_Boolean
    (fun a =>
       match getUser (Attendee.userId a) with
       | Some u => Some (Summary.of_user u)
       | None => None
       end)
    rows.

(** an event enriched by a list method of [PgStorage] when its host is
    missing *)
Definition with_unknown_host {number} (d : PgStorage.t number) (e : Event.t number)
  : EventWithAttendees.t number :=
  EventWithAttendees.mk e
    (List.length (PgStorage.getFormattedAttendees d (Event.id e)))
    (PgStorage.getFormattedAttendees d (Event.id e))
    Summary.unknown.

(** the response to a failed login *)
Definition invalid_credentials {number} : Routes.Response number :=
  Routes.mkResponse 401 (Routes.Failure "Invalid username or password").

(** The property of the login endpoint with no condition on the request:
    every request whose username is unknown, and every request whose username
    is known with another password, is answered with the 401 response. *)
Definition login_failure_is_always_401 (number : Type) : Prop :=
  forall (d : PgStorage.t number) (session : Routes.Session) (username password : string),
    (PgStorage.getUserByUsername d username = None \/
     exists user, PgStorage.getUserByUsername d username = Some user /\
                  User.password user <> password) ->
    fst (Routes.login d session (Some username) (Some password)) = invalid_credentials.

(** ** Sample stores *)

(** The rows of the sample data in a migrated database, inserted through
    [createUser], [createEvent] and [createAttendee]. *)
Definition pg_sample {number} `{JSNumber number} (now : Z) : PgStorage.t number :=
  snd ((PgStorage.createUser now Seed.user1 ;;;
        PgStorage.createUser now Seed.user2 ;;;
        PgStorage.createEvent now (Seed.event1 1) ;;;
        PgStorage.createEvent now (Seed.event2 2) ;;;
        PgStorage.createEvent now (Seed.event3 1) ;;;
        PgStorage.createEvent now (Seed.event4 2) ;;;
        PgStorage.createEvent now (Seed.event5 1) ;;;
        PgStorage.createEvent now (Seed.event6 2) ;;;
        PgStorage.createAttendee now (InsertAttendee.mk 1 2) ;;;
        PgStorage.createAttendee now (InsertAttendee.mk 2 1) ;;;
        PgStorage.createAttendee now (InsertAttendee.mk 1 3) ;;;
        PgStorage.createAttendee now (InsertAttendee.mk 2 3) ;;;
        PgStorage.createAttendee now (InsertAttendee.mk 1 5) ;;;
        PgStorage.createAttendee now (InsertAttendee.mk 2 4) ;;;
        PgStorage.createAttendee now (InsertAttendee.mk 1 6))
         PgStorage.migrated).

(** a database with one event, hosted by a user that does not exist *)
Definition orphan_event_db {number} `{JSNumber number} (now : Z) : PgStorage.t number :=
  PgStorage.mk [] [event_of_payload 1 now (Seed.event1 1)] [] 1 2 1.

(** the row of "johndoe" in the sample stores created at time [now] *)
Definition johndoe (now : Z) : User.t :=
  User.mk 1 "johndoe" "password123" "john@example.com" "John Doe"
    (InsertUser.avatar Seed.user1) now.

(** ** A rational model of [number]

    Exact rational arithmetic with the order of the rationals, and for the
    functions of [Math] the first terms of their series: a calculator that
    runs the model on concrete coordinates.  It is the instance the
    properties are instantiated at, and shows that the laws of [JSNumber] can
    be met. *)

Module QNumber.

Local Open Scope Q_scope.

Definition le (a b : Q) : bool := Qle_bool a b.
Definition lt (a b : Q) : bool := negb (Qle_bool b a).
Definition truthy (a : Q) : bool := negb (Qeq_bool a 0).

Definition PI : Q := 3.141592653589793.

Definition sin (x : Q) : Q :=
  Qred (x - x^3 / 6 + x^5 / 120 - x^7 / 5040 + x^9 / 362880).

Definition cos (x : Q) : Q :=
  Qred (1 - x^2 / 2 + x^4 / 24 - x^6 / 720 + x^8 / 40320).

(** the square root to fifteen decimal places *)
Definition sqrt (x : Q) : Q :=
  Qred (Z.sqrt (Qnum x * 10 ^ 30 / Zpos (Qden x)) # 10 ^ 15).

(** [atan2(y, x)] for [0 < x] and [y] small against [x] *)
Definition atan2 (y x : Q) : Q :=
  if Qle_bool x 0 then Qred (PI / 2)
  else let t := y / x in Qred (t - t^3 / 3 + t^5 / 5).

(** one decimal place, halves upwards *)
Definition toFixed1 (x : Q) : Q := Qred (Qfloor (x * 10 + (1 # 2)) # 10).

End QNumber.

(** ** The rest of [interface IStorage]

    The other methods the handlers below call.  The reads of the interface
    are total functions of the store; [answers] tells whether a read that
    looks an id up is answered at all, or its promise rejected.

    The id columns of the migration are [SERIAL] and [INTEGER], types of
    four bytes: the database refuses a statement that compares such a column
    with a number outside the type, and the promise of the read is rejected.
    A [Map] of [MemStorage] takes every number as a key. *)

Definition int4 (n : Z) : bool :=
  Z.leb (-2147483648) n && Z.leb n 2147483647.

Class IStorageRest (number : Type) (S : Type) : Type := {
  getUser : S -> Z -> option User.t;
  createUser : Z -> InsertUser.t -> Async S (option User.t);
  createEvent : Z -> InsertEvent.t number -> Async S (option (Event.t number));
  deleteEvent : Z -> Async S bool;
  deleteAttendee : Z -> Z -> Async S bool;
  (** whether a read by this id is answered, and not rejected *)
  answers : S -> Z -> bool
}.

#[export] Instance MemStorage_IStorageRest {number}
  : IStorageRest number (MemStorage.t number) := {
  getUser := MemStorage.getUser;
  createUser := fun now u => user <- MemStorage.createUser now u ;; ret (Some user);
  createEvent := fun now e => event <- MemStorage.createEvent now e ;; ret (Some event);
  deleteEvent := MemStorage.deleteEvent;
  deleteAttendee := MemStorage.deleteAttendee;
  answers := fun _ _ => true
}.

#[export] Instance PgStorage_IStorageRest {number}
  : IStorageRest number (PgStorage.t number) := {
  getUser := PgStorage.getUser;
  createUser := PgStorage.createUser;
  createEvent := PgStorage.createEvent;
  deleteEvent := PgStorage.deleteEvent;
  deleteAttendee := PgStorage.deleteAttendee;
  answers := fun _ id => int4 id
}.

(** ** More handlers of [registerRoutes] ([server/routes.ts]) *)

Module Endpoints.

(** The JSON bodies these handlers send. *)
Inductive Body (number : Type) : Type :=
| Message (message : string)
    (** [{ message }] *)
| Failure (message : string)
    (** [{ success: false, message }] *)
| Success (message : string)
    (** [{ success: true, message }] *)
| UserBody (user : Routes.UserWithoutPassword)
    (** [userWithoutPassword] *)
| EventBody (event : option (EventWithAttendees.t number))
    (** an enriched event, or nothing when it is [undefined] *)
| AttendeesBody (rows : list Attendee.t)
| Empty.
    (** [send()] *)
Arguments Message {number} message.
Arguments Failure {number} message.
Arguments Success {number} message.
Arguments UserBody {number} user.
Arguments EventBody {number} event.
Arguments AttendeesBody {number} rows.
Arguments Empty {number}.

Record Response (number : Type) : Type := mkResponse {
  status : Z;
  body : Body number
}.

(** What [schema.parse(req.body)] comes to: the parsed data, or a [ZodError]
    whose message [fromZodError] renders.  The schemas are the library's. *)
Inductive Parsed (A : Type) : Type :=
| Valid (data : A)
| Invalid (message : string).
Arguments Valid {A} data.
Arguments Invalid {A} message.

(** [req.session.destroy(...)] *)
Definition destroyed : Routes.Session := Routes.mkSession None None.

Section Handlers.
Context {number : Type} {S : Type} `{IStorage number S} `{IStorageRest number S}.

(** [req.session.userId] once it is known to be set *)
Definition session_userId (session : Routes.Session) : Z :=
  match Routes.userId session with
  | Some n => n
  | None => 0
  end.

(** [app.post("/api/auth/signup", ...)] *)
Definition signup (now : Z) (parsed : Parsed InsertUser.t) : Async S (Response number) :=
  match parsed with
  | Invalid message => ret (mkResponse 400 (Message message))
  | Valid userData =>
    try_catch
      (existingUser <- read (fun st => getUserByUsername st (InsertUser.username userData)) ;;
       match existingUser with
       | Some _ => ret (mkResponse 400 (Message "Username already exists"))
       | None =>
         newUser <- createUser now userData ;;
         match newUser with
         | Some newUser =>
           ret (mkResponse 201 (UserBody (Routes.without_password newUser)))
         | None => throw TypeError
         end
       end)
      (fun error => ret (mkResponse 500 (Message "Failed to create user")))
  end.

(** [app.get("/api/auth/me", ...)]: the response and the session it leaves. *)
Definition me (st : S) (session : Routes.Session) : Response number * Routes.Session :=
  if Routes.not_logged_in session then
    (mkResponse 401 (Failure "Not authenticated"), session)
  else
    match getUser st (session_userId session) with
    | None => (mkResponse 401 (Failure "User not found"), destroyed)
    | Some user => (mkResponse 200 (UserBody (Routes.without_password user)), session)
    end.

(** [app.post("/api/auth/logout", ...)], the store of sessions not failing *)
Definition logout (session : Routes.Session) : Response number * Routes.Session :=
  (mkResponse 200 (Success "Logged out successfully"), destroyed).

(** [await storage.read(id)] inside the [try] of a handler that only reads:
    what the read gives, or nothing when its promise is rejected and the
    [catch] of the handler runs. *)
Definition awaited {A : Type} (st : S) (id : Z) (read : S -> Z -> A) : option A :=
  if answers st id then Some (read st id) else None.

(** [app.get("/api/events/:id", ...)] *)
Definition get_event (st : S) (id : string) : Response number :=
  match JsString.parseInt id with
  | None => mkResponse 400 (Message "Invalid event ID")
  | Some eventId =>
    match awaited st eventId getEvent with
    | Some event =>
      match event with
      | None => mkResponse 404 (Message "Event not found")
      | Some event => mkResponse 200 (EventBody (Some event))
      end
    | None => mkResponse 500 (Message "Failed to retrieve event")
    end
  end.

(** [app.post("/api/events", ...)] *)
Definition create_event (now : Z) (parsed : Parsed (InsertEvent.t number))
  : Async S (Response number) :=
  match parsed with
  | Invalid message => ret (mkResponse 400 (Message message))
  | Valid eventData =>
    try_catch
      (newEvent <- createEvent now eventData ;;
       match newEvent with
       | Some newEvent =>
         eventWithDetails <- read (fun st => getEvent st (Event.id newEvent)) ;;
         ret (mkResponse 201 (EventBody eventWithDetails))
       | None => throw TypeError
       end)
      (fun error => ret (mkResponse 500 (Message "Failed to create event")))
  end.

(** [app.delete("/api/events/:id", ...)] *)
Definition delete_event (id : string) : Async S (Response number) :=
  try_catch
    (match JsString.parseInt id with
     | None => ret (mkResponse 400 (Message "Invalid event ID"))
     | Some eventId =>
       success <- deleteEvent eventId ;;
       if (success : bool) then ret (mkResponse 204 Empty)
       else ret (mkResponse 404 (Message "Event not found"))
     end)
    (fun error => ret (mkResponse 500 (Message "Failed to delete event"))).

(** [app.get("/api/events/:id/attendees", ...)] *)
Definition list_attendees (st : S) (id : string) : Response number :=
  match JsString.parseInt id with
  | None => mkResponse 400 (Message "Invalid event ID")
  | Some eventId =>
    match awaited st eventId getEventAttendees with
    | Some attendees => mkResponse 200 (AttendeesBody attendees)
    | None => mkResponse 500 (Message "Failed to retrieve event attendees")
    end
  end.

(** [app.delete("/api/events/:id/attend", ...)].  [isUserAttending] is here
    the total read of the class: an id that the database refuses is taken
    for an id that no row has. *)
Definition unattend (session : Routes.Session) (id : string) : Async S (Response number) :=
  try_catch
    (if Routes.not_logged_in session then
       ret (mkResponse 401 (Message "You must be logged in to cancel registration"))
     else
       match JsString.parseInt id with
       | None => ret (mkResponse 400 (Message "Invalid event ID"))
       | Some eventId =>
         let userId := session_userId session in
         isAttending <- read (fun st => isUserAttending st userId eventId) ;;
         if negb isAttending then
           ret (mkResponse 400 (Message "You are not registered for this event"))
         else
           success <- deleteAttendee userId eventId ;;
           if negb success then
             ret (mkResponse 404 (Message "Registration not found"))
           else
             updatedEvent <- read (fun st => getEvent st eventId) ;;
             ret (mkResponse 200 (EventBody updatedEvent))
       end)
    (fun error => ret (mkResponse 500 (Message "Failed to cancel registration"))).

End Handlers.
End Endpoints.

(** ** The request log of [server/index.ts] *)

Module Logging.

(** The literal that ends a cut line: in the source it is the three code
    units U+00E2, U+20AC and U+00A6, one character each here.  The second is
    above 255 and is written 128, its code in the Windows-1252 table, where
    the other two have the codes 226 and 166. *)
Definition ellipsis : string :=
  String (ascii_of_nat 226)
    (String (ascii_of_nat 128) (String (ascii_of_nat 166) EmptyString)).

(** The line the [finish] listener logs, if any.  [statusCode] and [duration]
    are the texts of the two numbers; [capturedJsonResponse] is the text
    [JSON.stringify] gives for the body, when a body was sent and is truthy. *)
Definition logLine (method path statusCode duration : string)
    (capturedJsonResponse : option string) : option string :=
  if JsString.startsWith path "/api" then
    let logLine :=
      (method ++ " " ++ path ++ " " ++ statusCode ++ " in " ++ duration ++ "ms")%string in
    let logLine :=
      match capturedJsonResponse with
      | Some json => (logLine ++ " :: " ++ json)%string
      | None => logLine
      end in
    let logLine :=
      if Nat.ltb 80 (String.length logLine)
      then (substring 0 79 logLine ++ ellipsis)%string
      else logLine in
    Some logLine
  else None.

End Logging.

(** ** Invariants of the stores *)

(** every key of the map is below the counter the next id comes from *)
Definition below {V} (next : Z) (m : JsMap.t V) : Prop :=
  Forall (fun p => fst p < next) m.

(** The invariant of a [MemStorage] object: each map holds its values under
    their own ids, and the ids handed out so far are below the counters. *)
Definition mem_invariant {number} (st : MemStorage.t number) : Prop :=
  keyed User.id (MemStorage.users st) /\
  below (MemStorage.userId st) (MemStorage.users st) /\
  keyed (@Event.id number) (MemStorage.events st) /\
  below (MemStorage.eventId st) (MemStorage.events st) /\
  keyed Attendee.id (MemStorage.attendees st) /\
  below (MemStorage.attendeeId st) (MemStorage.attendees st).

(** the pair an attendee row registers *)
Definition registration (a : Attendee.t) : Z * Z := (Attendee.userId a, Attendee.eventId a).

(** The constraints of the migration, as a property of the tables. *)
Record pg_integrity {number} (d : PgStorage.t number) : Prop := {
  users_pkey : NoDup (map User.id (PgStorage.users d));
  users_username_key : NoDup (map User.username (PgStorage.users d));
  users_email_key : NoDup (map User.email (PgStorage.users d));
  events_pkey : NoDup (map (@Event.id number) (PgStorage.events d));
  attendees_pkey : NoDup (map Attendee.id (PgStorage.attendees d));
  attendees_user_id_event_id_key : NoDup (map registration (PgStorage.attendees d));
  events_host_id_fkey :
    forall e, In e (PgStorage.events d) ->
              In (Event.hostId e) (map User.id (PgStorage.users d));
  attendees_user_id_fkey :
    forall a, In a (PgStorage.attendees d) ->
              In (Attendee.userId a) (map User.id (PgStorage.users d));
  attendees_event_id_fkey :
    forall a, In a (PgStorage.attendees d) ->
              In (Attendee.eventId a) (map (@Event.id number) (PgStorage.events d))
}.

(** The databases the methods of [PgStorage] modelled here lead to from a
    migrated one. *)
Inductive pg_reachable {number} : PgStorage.t number -> Prop :=
| pg_reach_migrated :
    pg_reachable PgStorage.migrated
| pg_reach_createUser (now : Z) (u : InsertUser.t) d :
    pg_reachable d -> pg_reachable (snd (PgStorage.createUser now u d))
| pg_reach_createEvent (now : Z) (p : InsertEvent.t number) d :
    pg_reachable d -> pg_reachable (snd (PgStorage.createEvent now p d))
| pg_reach_deleteEvent (id : Z) d :
    pg_reachable d -> pg_reachable (snd (PgStorage.deleteEvent id d))
| pg_reach_createAttendee (now : Z) (a : InsertAttendee.t) d :
    pg_reachable d -> pg_reachable (snd (PgStorage.createAttendee now a d))
| pg_reach_deleteAttendee (userId eventId : Z) d :
    pg_reachable d -> pg_reachable (snd (PgStorage.deleteAttendee userId eventId d)).

(** the tables of two databases are the same (the sequences may differ) *)
Definition same_tables {number} (d d' : PgStorage.t number) : Prop :=
  PgStorage.users d' = PgStorage.users d /\
  PgStorage.events d' = PgStorage.events d /\
  PgStorage.attendees d' = PgStorage.attendees d.

(** the ids in the tables are positive and below the next values of the
    sequences *)
Definition pg_sequences {number} (d : PgStorage.t number) : Prop :=
  0 < PgStorage.users_id_seq d /\
  0 < PgStorage.events_id_seq d /\
  0 < PgStorage.attendees_id_seq d /\
  Forall (fun u => 0 < User.id u < PgStorage.users_id_seq d) (PgStorage.users d) /\
  Forall (fun e => 0 < Event.id e < PgStorage.events_id_seq d) (PgStorage.events d) /\
  Forall (fun a => 0 < Attendee.id a < PgStorage.attendees_id_seq d) (PgStorage.attendees d).

(** ** More notions the properties are stated with *)

(** the test both classes use for the rows of a pair *)
Definition registers (userId eventId : Z) (a : Attendee.t) : bool :=
  Z.eqb (Attendee.userId a) userId && Z.eqb (Attendee.eventId a) eventId.

(** The user a payload describes, with the id and creation time it is
    given. *)
Definition user_of_payload (id now : Z) (u : InsertUser.t) : User.t :=
  User.mk id (InsertUser.username u) (InsertUser.password u) (InsertUser.email u)
    (InsertUser.name u) (InsertUser.avatar u) now.

(** the row of "janedoe" in the sample stores created at time [now] *)
Definition janedoe (now : Z) : User.t :=
  User.mk 2 "janedoe" "password123" "jane@example.com" "Jane Doe"
    (InsertUser.avatar Seed.user2) now.

(** a decimal digit *)
Definition decimal (c : ascii) : bool :=
  let n := nat_of_ascii c in
  (Nat.leb 48 n && Nat.leb n 57)%bool.

(** a text of decimal digits *)
Fixpoint decimals (s : string) : bool :=
  match s with
  | EmptyString => true
  | String c s' => decimal c && decimals s'
  end.

(** the line of the request log before it is cut *)
Definition full_line (method path statusCode duration : string)
    (capturedJsonResponse : option string) : string :=
  ((method ++ " " ++ path ++ " " ++ statusCode ++ " in " ++ duration ++ "ms")
   ++ match capturedJsonResponse with
      | Some json => " :: " ++ json
      | None => ""
      end)%string.

(** the text of a JSON body, for the sample line of the request log *)
Definition thirty_numbers : string :=
  "[1,2,3,4,5,6,7,8,9,10,11,12,13,14,15,16,17,18,19,20,21,22,23,24,25,26,27,28,29,30]".

(** ** More laws of JavaScript numbers

    [=] between two numbers is the identity of values, what [Object.is]
    tells: the two zeros are two values and [NaN] is one.  [==] is
    [num_eq]: it takes the two zeros for equal and is false of [NaN]. *)

(** [a == b]: for two numbers, what [a <= b && b <= a] is *)
Definition num_eq {number} `{JSNumber number} (a b : number) : bool :=
  num_le a b && num_le b a.

(** [a == 0] *)
Definition num_is_zero {number} `{JSNumber number} (a : number) : bool :=
  num_eq a (num_lit 0).

(** Signs.  Rounding is symmetric about zero: a product and a quotient
    change sign with an operand, also when they are a zero, an infinity or
    [NaN]; a difference changes sign with the order of its operands, unless
    it is the [+0] or the [NaN] that both orders give.  That [Math.sin] is
    odd is a law of the engine: the language leaves the values of the
    function to it. *)
Class JSNumberSigns (number : Type) `{JSNumber number} : Type := {
  (** unary [-] *)
  num_neg : number -> number;
  num_neg_neg : forall a, num_neg (num_neg a) = a;
  num_sub_swap : forall a b,
    num_sub b a = num_neg (num_sub a b) \/ num_sub b a = num_sub a b;
  num_mul_comm : forall a b, num_mul a b = num_mul b a;
  num_mul_neg : forall a b, num_mul (num_neg a) b = num_neg (num_mul a b);
  num_div_neg : forall a b, num_div (num_neg a) b = num_neg (num_div a b);
  Math_sin_neg : forall a, Math_sin (num_neg a) = num_neg (Math_sin a)
}.
Arguments JSNumberSigns number {_}.

(** Zeros.  A number is finite when it is neither an infinity nor [NaN].
    The difference of a finite number and itself is a zero, and so is the
    product of a zero and a finite number, the half, the sum, the sine and
    the square root of zeros, the angle [atan2] gives a zero and 1, and a
    zero rounded to one decimal place.  The literals of the source are
    finite, the factor of [deg2rad] is, and below 1, and a cosine lies
    between -1 and 1. *)
Class JSNumberZeros (number : Type) `{JSNumber number} : Type := {
  (** [Number.isFinite] *)
  num_isFinite : number -> bool;
  num_zero_finite : forall z, num_is_zero z = true -> num_isFinite z = true;
  num_lit_finite : forall q : Q,
    (- inject_Z (2 ^ 1023) <= q)%Q -> (q <= inject_Z (2 ^ 1023))%Q ->
    num_isFinite (num_lit q) = true;
  num_deg_finite : num_isFinite (num_div Math_PI (num_lit 180)) = true;
  num_mul_deg_finite : forall a,
    num_isFinite a = true ->
    num_isFinite (num_mul a (num_div Math_PI (num_lit 180))) = true;
  Math_cos_finite : forall a b,
    num_isFinite a = true -> num_isFinite b = true ->
    num_isFinite (num_mul (Math_cos a) (Math_cos b)) = true;
  num_sub_self : forall a,
    num_isFinite a = true -> num_is_zero (num_sub a a) = true;
  num_mul_zero : forall z a,
    num_is_zero z = true -> num_isFinite a = true ->
    num_is_zero (num_mul z a) = true /\ num_is_zero (num_mul a z) = true;
  num_half_zero : forall z,
    num_is_zero z = true -> num_is_zero (num_div z (num_lit 2)) = true;
  num_add_zero : forall z w,
    num_is_zero z = true -> num_is_zero w = true -> num_is_zero (num_add z w) = true;
  Math_sin_zero : forall z, num_is_zero z = true -> num_is_zero (Math_sin z) = true;
  Math_sqrt_zero : forall z, num_is_zero z = true -> num_is_zero (Math_sqrt z) = true;
  num_one_sub_zero : forall z,
    num_is_zero z = true -> num_sub (num_lit 1) z = num_lit 1;
  Math_sqrt_one : Math_sqrt (num_lit 1) = num_lit 1;
  Math_atan2_zero : forall z,
    num_is_zero z = true -> num_is_zero (Math_atan2 z (num_lit 1)) = true;
  num_toFixed1_zero : forall z,
    num_is_zero z = true -> num_is_zero (num_toFixed1 z) = true
}.
Arguments JSNumberZeros number {_}.

(** The two parts of [calculateDistance], which the two classes share but
    for the radius: the sum [a], and the distance it gives. *)
Definition haversine {number} `{JSNumber number} (lat1 lon1 lat2 lon2 : number) : number :=
  let dLat := MemStorage.deg2rad (num_sub lat2 lat1) in
  let dLon := MemStorage.deg2rad (num_sub lon2 lon1) in
  num_add
    (num_mul (Math_sin (num_div dLat (num_lit 2))) (Math_sin (num_div dLat (num_lit 2))))
    (num_mul
       (num_mul
          (num_mul (Math_cos (MemStorage.deg2rad lat1)) (Math_cos (MemStorage.deg2rad lat2)))
          (Math_sin (num_div dLon (num_lit 2))))
       (Math_sin (num_div dLon (num_lit 2)))).

Definition arc_length {number} `{JSNumber number} (R a : number) : number :=
  num_toFixed1
    (num_mul R
       (num_mul (num_lit 2)
          (Math_atan2 (Math_sqrt a) (Math_sqrt (num_sub (num_lit 1) a))))).

(** * Properties *)

(** ** Strings *)

Module JsStringFacts.
Import JsString.

Local Open Scope string_scope.

Lemma toLowerCase_app (a b : string) :
  toLowerCase (a ++ b) = (toLowerCase a ++ toLowerCase b)%string.
Proof.
  induction a as [|c a IH]; simpl; [reflexivity|].
  now rewrite IH.
Qed.

Lemma toLowerCase_length (a : string) :
  String.length (toLowerCase a) = String.length a.
Proof.
  induction a as [|c a IH]; simpl; congruence.
Qed.

Lemma lower_ascii_idem (c : ascii) : lower_ascii (lower_ascii c) = lower_ascii c.
Proof.
  destruct c as [[] [] [] [] [] [] [] []]; reflexivity.
Qed.

Lemma toLowerCase_idem (a : string) : toLowerCase (toLowerCase a) = toLowerCase a.
Proof.
  induction a as [|c a IH]; simpl; [reflexivity|].
  now rewrite lower_ascii_idem, IH.
Qed.

(** [startsWith s p] holds exactly when [s] is [p] followed by something. *)
Lemma startsWith_spec (s p : string) :
  startsWith s p = true <-> exists post, s = (p ++ post)%string.
Proof.
  revert s. induction p as [|a p IH]; intros s; simpl.
  - split; [intros _; now exists s | reflexivity].
  - destruct s as [|b s].
    + split; [discriminate | intros [post E]; discriminate].
    + rewrite andb_true_iff, Ascii.eqb_eq, IH. split.
      * intros [-> [post ->]]. now exists post.
      * intros [post E]. injection E as -> ->. split; [reflexivity | now exists post].
Qed.

(** [includes s sub] holds exactly when [sub] occurs in [s]. *)
Lemma includes_spec (s sub : string) :
  includes s sub = true <-> exists pre post, s = (pre ++ sub ++ post)%string.
Proof.
  induction s as [|c s IH].
  - simpl. rewrite orb_false_r, startsWith_spec. split.
    + intros [post E]. now exists "", post.
    + intros [pre [post E]]. destruct pre; [now exists post | discriminate].
  - cbn [includes]. rewrite orb_true_iff, startsWith_spec, IH. split.
    + intros [[post E] | [pre [post E]]].
      * now exists "", post.
      * exists (String c pre), post. simpl. now rewrite E.
    + intros [pre [post E]]. destruct pre as [|c' pre].
      * left. now exists post.
      * right. injection E as _ E. now exists pre, post.
Qed.

(** A split of [toLowerCase t] comes from a split of [t]. *)
Lemma toLowerCase_split (t x y : string) :
  toLowerCase t = (x ++ y)%string ->
  exists a b, t = (a ++ b)%string /\ toLowerCase a = x /\ toLowerCase b = y.
Proof.
  revert t. induction x as [|c x IH]; intros t E.
  - exists "", t. simpl in *. auto.
  - destruct t as [|d t]; [discriminate|].
    simpl in E. injection E as Ec E.
    destruct (IH _ E) as [a [b [-> [<- <-]]]].
    exists (String d a), b. simpl. now rewrite Ec.
Qed.

End JsStringFacts.

Lemma includes_toLowerCase_spec (t q : string) :
  JsString.includes (JsString.toLowerCase t) (JsString.toLowerCase q) = true
  <-> case_insensitive_substring q t.
Proof.
  rewrite JsStringFacts.includes_spec. split.
  - intros [pre' [rest E]].
    destruct (JsStringFacts.toLowerCase_split _ _ _ E) as [pre [r [-> [_ Er]]]].
    destruct (JsStringFacts.toLowerCase_split _ _ _ Er) as [mid [post [-> [Em _]]]].
    now exists pre, mid, post.
  - intros [pre [mid [post [-> Em]]]].
    exists (JsString.toLowerCase pre), (JsString.toLowerCase post).
    now rewrite !JsStringFacts.toLowerCase_app, Em.
Qed.

(** ** [LIKE] *)

Module SqlFacts.
Import Sql.

Lemma like_from_percent (p t : string) :
  like_from (String "%" p) t
  = like_from p t || match t with
                     | EmptyString => false
                     | String _ t' => like_from (String "%" p) t'
                     end.
Proof. destruct t; reflexivity. Qed.

Lemma like_from_plain (c : ascii) (p t : string) :
  plain_ascii c = true ->
  like_from (String c p) t
  = match t with
    | EmptyString => false
    | String x t' => Ascii.eqb x c && like_from p t'
    end.
Proof.
  unfold plain_ascii. rewrite !andb_true_iff, !negb_true_iff. intros [[P U] B].
  simpl. rewrite P, U, B. reflexivity.
Qed.

(** [%] alone matches every text. *)
Lemma like_from_any (t : string) : like_from "%" t = true.
Proof.
  induction t as [|x t IH]; rewrite like_from_percent; [reflexivity|].
  rewrite IH. apply orb_true_r.
Qed.

(** A plain text followed by [%] matches the texts that start with it. *)
Lemma like_from_prefix (q t : string) :
  plain q = true -> like_from (q ++ "%") t = JsString.startsWith t q.
Proof.
  revert t. induction q as [|c q IH]; intros t P.
  - apply like_from_any.
  - simpl in P. apply andb_true_iff in P. destruct P as [Pc Pq].
    change (String c q ++ "%")%string with (String c (q ++ "%")).
    rewrite like_from_plain by assumption. destruct t as [|x t]; [reflexivity|].
    simpl. rewrite IH by assumption. now rewrite Ascii.eqb_sym.
Qed.

(** A plain text between two [%] matches the texts it occurs in, letter
    case included. *)
Lemma like_includes (t q : string) :
  plain q = true -> like t ("%" ++ q ++ "%") = JsString.includes t q.
Proof.
  intros P. unfold like. change ("%" ++ q ++ "%")%string with (String "%" (q ++ "%")).
  induction t as [|x t IH]; rewrite like_from_percent, like_from_prefix by assumption.
  - reflexivity.
  - cbn [JsString.includes]. now rewrite IH.
Qed.

End SqlFacts.

(** ** [Map] *)

Module JsMapFacts.
Import JsMap.

Section WithValue.
Context {V : Type}.
Implicit Types (m : JsMap.t V) (k : Z) (v : V).

Lemma has_In m k : has k m = true <-> In k (map fst m).
Proof.
  unfold has. rewrite existsb_exists, in_map_iff. split.
  - intros [p [Hp E]]. apply Z.eqb_eq in E. now exists p.
  - intros [p [E Hp]]. exists p. split; [assumption | now apply Z.eqb_eq].
Qed.

Lemma get_None m k : get k m = None <-> ~ In k (map fst m).
Proof.
  unfold get. induction m as [|p m IH]; simpl.
  - tauto.
  - destruct (Z.eqb_spec (fst p) k) as [E|N].
    + split; [discriminate | intros C; exfalso; apply C; now left].
    + rewrite IH. tauto.
Qed.

Lemma get_app_r m k v : get k m = None -> get k (m ++ [(k, v)]) = Some v.
Proof.
  unfold get. induction m as [|p m IH]; simpl.
  - now rewrite Z.eqb_refl.
  - destruct (Z.eqb (fst p) k); [discriminate | exact IH].
Qed.

Lemma get_app_l m m' k v : get k m = Some v -> get k (m ++ m') = Some v.
Proof.
  unfold get. induction m as [|p m IH]; simpl; [discriminate|].
  destruct (Z.eqb (fst p) k); [trivial | exact IH].
Qed.

Lemma get_app_None m m' k : get k m = None -> get k (m ++ m') = get k m'.
Proof.
  unfold get. induction m as [|p m IH]; simpl; [reflexivity|].
  destruct (Z.eqb (fst p) k); [discriminate | exact IH].
Qed.

Lemma get_replace_eq m k v : has k m = true -> get k (replace k v m) = Some v.
Proof.
  unfold get, has. induction m as [|p m IH]; simpl; [discriminate|].
  destruct (Z.eqb (fst p) k) eqn:E; simpl.
  - now rewrite Z.eqb_refl.
  - rewrite E. exact IH.
Qed.

Lemma get_replace_neq m k k' v : k' <> k -> get k' (replace k v m) = get k' m.
Proof.
  intros N. unfold get. induction m as [|p m IH]; simpl; [reflexivity|].
  destruct (Z.eqb_spec (fst p) k) as [E|E]; simpl.
  - destruct (Z.eqb_spec k k') as [C|_]; [congruence|].
    destruct (Z.eqb_spec (fst p) k') as [C|_]; [congruence | reflexivity].
  - destruct (Z.eqb (fst p) k'); [reflexivity | exact IH].
Qed.

(** [m.set(k, v)] then [m.get(k)] gives [v]. *)
Lemma get_set_eq m k v : get k (set k v m) = Some v.
Proof.
  unfold set. destruct (has k m) eqn:E.
  - now apply get_replace_eq.
  - apply get_app_r. apply get_None. rewrite <- has_In. congruence.
Qed.

Lemma get_set_neq m k k' v : k' <> k -> get k' (set k v m) = get k' m.
Proof.
  intros N. unfold set. destruct (has k m).
  - now apply get_replace_neq.
  - destruct (get k' m) as [v'|] eqn:G.
    + now apply get_app_l.
    + rewrite get_app_None by assumption. unfold get. simpl.
      destruct (Z.eqb_spec k k'); [congruence | reflexivity].
Qed.

Lemma keys_replace m k v : map fst (replace k v m) = map fst m.
Proof.
  induction m as [|p m IH]; simpl; [reflexivity|].
  destruct (Z.eqb_spec (fst p) k) as [E|E]; simpl; congruence.
Qed.

Lemma In_replace m k v p :
  In p (replace k v m) -> p = (k, v) \/ In p m.
Proof.
  induction m as [|p' m IH]; simpl; [tauto|].
  destruct (Z.eqb (fst p') k); simpl; intuition.
Qed.

(** [set] keeps the representation invariant when the value carries the key. *)
Lemma keyed_set (key : V -> Z) m k v :
  key v = k -> keyed key m -> keyed key (set k v m).
Proof.
  intros Hk [ND F]. unfold set. destruct (has k m) eqn:E; split.
  - now rewrite keys_replace.
  - rewrite Forall_forall in *. intros p Hp.
    destruct (In_replace _ _ _ _ Hp) as [-> | Hin]; [assumption | now apply F].
  - rewrite map_app. simpl. apply NoDup_app; [assumption | repeat constructor; simpl; tauto |].
    intros a Ha [<- | []]. apply has_In in Ha. congruence.
  - apply Forall_app. split; [assumption | now repeat constructor].
Qed.

Lemma keyed_delete (key : V -> Z) m k : keyed key m -> keyed key (snd (delete k m)).
Proof.
  intros [ND F]. unfold delete. simpl. split.
  - clear F. induction m as [|p m IH]; simpl; [constructor|].
    inversion ND as [|? ? Hn ND']; subst.
    destruct (negb (Z.eqb (fst p) k)); simpl; [|now apply IH].
    constructor; [|now apply IH].
    rewrite in_map_iff. intros [q [Eq Hq]]. apply filter_In in Hq.
    apply Hn. rewrite in_map_iff. exists q. tauto.
  - rewrite Forall_forall in *. intros p Hp. apply filter_In in Hp. now apply F.
Qed.

(** Under the invariant a value of the map is found under its own id. *)
Lemma get_value (key : V -> Z) m v :
  keyed key m -> In v (values m) -> get (key v) m = Some v.
Proof.
  intros [ND F]. unfold values, get. induction m as [|p m IH]; simpl; [tauto|].
  inversion ND as [|? ? Hn ND']; subst. inversion F as [|? ? Hp F']; subst.
  intros [<- | Hin].
  - rewrite Hp, Z.eqb_refl. reflexivity.
  - destruct (Z.eqb_spec (fst p) (key v)) as [E|_]; [|now apply IH].
    exfalso. apply Hn. apply in_map_iff in Hin. destruct Hin as [q [<- Hq]].
    rewrite Forall_forall in F'. rewrite E, (F' _ Hq). now apply in_map.
Qed.

Lemma get_delete m k : get k (snd (delete k m)) = None.
Proof.
  apply get_None. unfold delete. simpl. rewrite in_map_iff.
  intros [p [E Hp]]. apply filter_In in Hp. destruct Hp as [_ Hp].
  apply negb_true_iff, Z.eqb_neq in Hp. congruence.
Qed.

(** Under the invariant a value found under a key carries that key. *)
Lemma get_Some_key (key : V -> Z) m k v :
  keyed key m -> get k m = Some v -> key v = k.
Proof.
  intros [_ F]. unfold get. destruct (find _ m) as [p|] eqn:E; [|discriminate].
  intros [= <-]. apply find_some in E. destruct E as [Hin Ek].
  apply Z.eqb_eq in Ek. rewrite Forall_forall in F. now rewrite (F p Hin).
Qed.

Lemma get_Some_In m k v : get k m = Some v -> In v (values m).
Proof.
  unfold get, values. destruct (find _ m) as [p|] eqn:E; [|discriminate].
  intros [= <-]. apply find_some in E. now apply in_map.
Qed.

End WithValue.
End JsMapFacts.
(** ** Lists *)

Lemma filter_filter_negb {A} (p : A -> bool) (l : list A) :
  filter p (filter (fun x => negb (p x)) l) = [].
Proof.
  induction l as [|x l IH]; simpl; [reflexivity|].
  destruct (p x) eqn:E; simpl; [assumption | now rewrite E].
Qed.

Lemma filter_id {A} (p : A -> bool) (l : list A) :
  Forall (fun x => p x = true) l -> filter p l = l.
Proof.
  induction 1 as [|x l Hx _ IH]; simpl; [reflexivity|].
  now rewrite Hx, IH.
Qed.

Lemma filter_map_comm {A B} (f : A -> B) (p : B -> bool) (l : list A) :
  filter p (map f l) = map f (filter (fun x => p (f x)) l).
Proof.
  induction l as [|x l IH]; simpl; [reflexivity|].
  destruct (p (f x)); simpl; now rewrite IH.
Qed.

Lemma map_filter_Boolean_In {A B} (f : A -> option B) (l : list A) (y : B) :
  In y (map_filter_Boolean f l) <-> exists x, In x l /\ f x = Some y.
Proof.
  induction l as [|x l IH]; simpl.
  - split; [tauto | intros [? [[] _]]].
  - destruct (f x) as [z|] eqn:E; simpl; rewrite IH; split.
    + intros [<- | [x' [Hx' E']]]; [now exists x; auto | exists x'; auto].
    + intros [x' [[<- | Hx'] E']]; [left; congruence | right; now exists x'].
    + intros [x' [Hx' E']]. exists x'. auto.
    + intros [x' [[<- | Hx'] E']]; [congruence | now exists x'].
Qed.

Lemma map_filter_Boolean_map {A B C} (g : A -> B) (f : B -> option C) (l : list A) :
  map_filter_Boolean f (map g l) = map_filter_Boolean (fun x => f (g x)) l.
Proof.
  induction l as [|x l IH]; simpl; [reflexivity|].
  destruct (f (g x)); now rewrite IH.
Qed.

Lemma existsb_false_filter {A} (p : A -> bool) (l : list A) :
  existsb p l = false <-> filter p l = [].
Proof.
  induction l as [|x l IH]; simpl; [tauto|].
  destruct (p x); simpl; [split; discriminate | exact IH].
Qed.


(** ** [Array.prototype.sort] *)

Section ArraySortFacts.
Context {number : Type} `{JSNumber number} {A : Type}.
Variable comparefn : A -> A -> number.
Variable key : A -> number.

(** the comparison function orders by the key *)
Hypothesis comparefn_key : forall x y,
  comparable key x -> comparable key y ->
  num_lt (num_lit 0) (comparefn x y) = negb (num_le (key x) (key y)).

Lemma sort_insert_Permutation (x : A) (l : list A) :
  Permutation (sort_insert comparefn x l) (x :: l).
Proof.
  induction l as [|y l IH]; simpl; [reflexivity|].
  destruct (num_lt (num_lit 0) (comparefn x y)); [|reflexivity].
  rewrite IH. apply perm_swap.
Qed.

Lemma Array_sort_Permutation (l : list A) : Permutation (Array_sort comparefn l) l.
Proof.
  induction l as [|x l IH]; simpl; [reflexivity|].
  rewrite sort_insert_Permutation. now constructor.
Qed.

Lemma key_le_trans (x y z : A) : key_le key x y -> key_le key y z -> key_le key x z.
Proof. unfold key_le. apply num_le_trans. Qed.

Lemma sort_insert_sorted (x : A) (l : list A) :
  comparable key x -> Forall (comparable key) l ->
  StronglySorted (key_le key) l ->
  StronglySorted (key_le key) (sort_insert comparefn x l).
Proof.
  intros Hx Hl Hs. induction Hs as [|y l Hs IH Hy]; simpl.
  - repeat constructor.
  - inversion Hl as [|? ? Cy Cl]; subst.
    rewrite comparefn_key by assumption.
    destruct (num_le (key x) (key y)) eqn:E; simpl.
    + constructor; [now constructor|].
      constructor; [exact E|].
      eapply Forall_impl; [|exact Hy]. intros z Hz. now apply key_le_trans with y.
    + constructor; [now apply IH|].
      eapply Permutation_Forall; [symmetry; apply sort_insert_Permutation|].
      constructor; [|assumption].
      destruct (num_le_total (key y) (key x) Cy Hx) as [L|L]; [exact L|].
      unfold key_le in *. congruence.
Qed.

(** Sorting elements whose keys are comparable puts them in the order of
    the keys. *)
Lemma Array_sort_sorted (l : list A) :
  Forall (comparable key) l -> StronglySorted (key_le key) (Array_sort comparefn l).
Proof.
  induction 1 as [|x l Hx Hl IH]; simpl; [constructor|].
  apply sort_insert_sorted; [assumption | | assumption].
  eapply Permutation_Forall; [symmetry; apply Array_sort_Permutation | assumption].
Qed.

End ArraySortFacts.

(** ** The rational model meets the laws *)

Module QNumberFacts.
Import QNumber.

Local Open Scope Q_scope.

Lemma le_trans a b c : le a b = true -> le b c = true -> le a c = true.
Proof. unfold le. rewrite !Qle_bool_iff. apply Qle_trans. Qed.

Lemma le_total a b : le a a = true -> le b b = true -> le a b = true \/ le b a = true.
Proof.
  intros _ _. unfold le. rewrite !Qle_bool_iff.
  destruct (Qlt_le_dec a b) as [L|L]; [left; now apply Qlt_le_weak | now right].
Qed.

Lemma le_self a b : le a b = true -> le a a = true /\ le b b = true.
Proof. intros _. unfold le. rewrite !Qle_bool_iff. split; apply Qle_refl. Qed.

Lemma or0_eq a : (if truthy a then a else 0) == a.
Proof.
  unfold truthy. destruct (Qeq_bool a 0) eqn:E; simpl; [|reflexivity].
  apply Qeq_bool_iff in E. now symmetry.
Qed.

Lemma sub_sign a b :
  le a a = true -> le b b = true ->
  let or0 := fun x => if truthy x then x else 0 in
  lt 0 (Qred (or0 a - or0 b)) = negb (le a b).
Proof.
  intros _ _ or0. unfold lt, le. f_equal.
  apply eq_true_iff_eq. rewrite !Qle_bool_iff, Qred_correct.
  unfold or0. rewrite !or0_eq. split; intros L.
  - apply Qplus_le_l with (z := - b). now rewrite Qplus_opp_r.
  - apply Qplus_le_l with (z := - b) in L. now rewrite Qplus_opp_r in L.
Qed.

End QNumberFacts.

#[export] Instance Q_JSNumber : JSNumber Q := {
  num_lit := fun q => q;
  num_add := fun a b => Qred (a + b);
  num_sub := fun a b => Qred (a - b);
  num_mul := fun a b => Qred (a * b);
  num_div := fun a b => Qred (a / b);
  num_le := QNumber.le;
  num_lt := QNumber.lt;
  num_truthy := QNumber.truthy;
  Math_PI := QNumber.PI;
  Math_sin := QNumber.sin;
  Math_cos := QNumber.cos;
  Math_sqrt := QNumber.sqrt;
  Math_atan2 := QNumber.atan2;
  num_toFixed1 := QNumber.toFixed1;
  num_le_trans := QNumberFacts.le_trans;
  num_le_total := QNumberFacts.le_total;
  num_le_self := QNumberFacts.le_self;
  num_sub_sign := QNumberFacts.sub_sign
}.

(** the sample store of [MemStorage] and the sample database, built at time 0 *)
Definition mem0 : MemStorage.t Q := MemStorage.constructor 0.
Definition pg0 : PgStorage.t Q := pg_sample 0.

(** ** [PgStorage] *)

Module PgStorageFacts.
Import PgStorage.

Section WithNumber.
Context {number : Type} `{JSNumber number}.
Implicit Types (d : PgStorage.t number) (e : Event.t number).

Lemma getUser_None d id :
  getUser d id = None <-> select_where (users d) (fun u => Z.eqb (User.id u) id) = [].
Proof.
  unfold getUser, first. destruct (select_where _ _); simpl; split; congruence.
Qed.

(** What [withDetails] gives for a row whose host is missing. *)
Lemma withDetails_unknown_host d e :
  getUser d (Event.hostId e) = None ->
  withDetails d e =
    EventWithAttendees.mk e (List.length (getFormattedAttendees d (Event.id e)))
      (getFormattedAttendees d (Event.id e)) Summary.unknown.
Proof.
  intros G. apply getUser_None in G. unfold withDetails. now rewrite G.
Qed.

Lemma withDetails_event d e : EventWithAttendees.event (withDetails d e) = e.
Proof. reflexivity. Qed.

(** Under the primary key a row is the one [select] finds by its id. *)
Lemma select_by_id d e :
  NoDup (map (@Event.id number) (events d)) -> In e (events d) ->
  select_where (events d) (fun e' => Z.eqb (Event.id e') (Event.id e)) = [e].
Proof.
  unfold select_where. induction (events d) as [|x l IH]; simpl; [tauto|].
  intros ND. inversion ND as [|? ? Hn ND']; subst.
  intros [-> | Hin].
  - rewrite Z.eqb_refl. f_equal.
    apply existsb_false_filter. apply not_true_is_false. intros C.
    apply existsb_exists in C. destruct C as [y [Hy Ey]]. apply Z.eqb_eq in Ey.
    apply Hn. rewrite <- Ey. now apply in_map.
  - destruct (Z.eqb_spec (Event.id x) (Event.id e)) as [E|_]; [|now apply IH].
    exfalso. apply Hn. rewrite E. now apply in_map.
Qed.

Lemma getEvent_unknown_host d e :
  NoDup (map (@Event.id number) (events d)) -> In e (events d) ->
  getUser d (Event.hostId e) = None -> getEvent d (Event.id e) = None.
Proof.
  intros ND Hin G. unfold getEvent. rewrite select_by_id by assumption.
  apply getUser_None in G. now rewrite G.
Qed.

Lemma getEventsByCategory_All d : getEventsByCategory d "All" = getAllEvents d.
Proof. reflexivity. Qed.

Lemma getEventsByCategory_other d (c : string) :
  c <> "All" ->
  getEventsByCategory d c =
    map (withDetails d) (filter (fun e => String.eqb (Event.categoryId e) c) (events d)).
Proof.
  intros N. unfold getEventsByCategory.
  destruct (String.eqb_spec c "All"); [contradiction | reflexivity].
Qed.

(** The result of [deleteEvent], statement by statement. *)
Lemma deleteEvent_spec (id : Z) d :
  let '(r, d') := deleteEvent id d in
  r = Returns (existsb (fun e => Z.eqb (Event.id e) id) (events d)) /\
  events d' = filter (fun e => negb (Z.eqb (Event.id e) id)) (events d) /\
  attendees d' = filter (fun a => negb (Z.eqb (Attendee.eventId a) id)) (attendees d) /\
  users d' = users d.
Proof.
  unfold deleteEvent, try_catch, bind, ret, delete_attendees, delete_events. simpl.
  repeat split.
  - f_equal. induction (events d) as [|x l IH]; simpl; [reflexivity|].
    destruct (Z.eqb (Event.id x) id); simpl; [reflexivity | exact IH].
  - apply filter_id. rewrite Forall_forall. intros a Ha.
    apply filter_In in Ha. destruct Ha as [_ Ha].
    apply negb_true_iff, not_true_is_false. intros C.
    apply existsb_exists in C. destruct C as [e [He Ee]].
    apply filter_In in He. destruct He as [_ He].
    apply Z.eqb_eq in He, Ee. apply negb_true_iff, Z.eqb_neq in Ha. congruence.
Qed.

(** After [deleteEvent(id)] no attendee row of the event is left, and the
    event is gone. *)
Lemma deleteEvent_clears_attendees (id : Z) d :
  getEventAttendees (snd (deleteEvent id d)) id = [] /\
  getEvent (snd (deleteEvent id d)) id = None.
Proof.
  pose proof (deleteEvent_spec id d) as S.
  destruct (deleteEvent id d) as [r d']. destruct S as [_ [Ev [At _]]]. simpl. split.
  - unfold getEventAttendees, select_where. rewrite At.
    apply (filter_filter_negb (fun a => Z.eqb (Attendee.eventId a) id)).
  - unfold getEvent, select_where. rewrite Ev.
    now rewrite (filter_filter_negb (fun e => Z.eqb (Event.id e) id)).
Qed.

End WithNumber.
End PgStorageFacts.

(** ** [MemStorage] *)

Module MemStorageFacts.
Import MemStorage.

Section WithNumber.
Context {number : Type} `{JSNumber number}.
Implicit Types (st : MemStorage.t number) (e : Event.t number).

(** [deleteEvent] touches the map of events and nothing else. *)
Lemma deleteEvent_frame (id : Z) st :
  let st' := snd (deleteEvent id st) in
  attendees st' = attendees st /\ users st' = users st /\
  events st' = snd (JsMap.delete id (events st)) /\
  fst (deleteEvent id st) = Returns (JsMap.has id (events st)).
Proof. unfold deleteEvent. simpl. auto. Qed.

Lemma deleteEvent_getEventAttendees (id id' : Z) st :
  getEventAttendees (snd (deleteEvent id st)) id' = getEventAttendees st id'.
Proof. reflexivity. Qed.

Lemma createEvent_keyed (now : Z) (p : InsertEvent.t number) st :
  keyed (@Event.id number) (events st) ->
  keyed (@Event.id number) (events (snd (createEvent now p st))).
Proof. intros K. unfold createEvent. simpl. now apply JsMapFacts.keyed_set. Qed.

Lemma deleteEvent_keyed (id : Z) st :
  keyed (@Event.id number) (events st) ->
  keyed (@Event.id number) (events (snd (deleteEvent id st))).
Proof. intros K. unfold deleteEvent. simpl. now apply JsMapFacts.keyed_delete. Qed.

Lemma updateEvent_keyed (id : Z) (p : PartialInsertEvent.t number) st :
  keyed (@Event.id number) (events st) ->
  keyed (@Event.id number) (events (snd (updateEvent id p st))).
Proof.
  intros K. unfold updateEvent.
  destruct (JsMap.get id (events st)) as [event|] eqn:G; simpl; [|assumption].
  apply JsMapFacts.keyed_set; [|assumption].
  simpl. now apply (JsMapFacts.get_Some_key _ K G).
Qed.

Lemma constructor_keyed (now : Z) : keyed (@Event.id number) (events (constructor now)).
Proof.
  split.
  - cbv -[Z.add]. repeat (constructor; [simpl; intuition discriminate|]). constructor.
  - cbv -[Z.add]. repeat constructor.
Qed.

(** Every store a [MemStorage] object goes through keeps each event under
    its own id. *)
Lemma reachable_keyed st : reachable st -> keyed (@Event.id number) (events st).
Proof.
  induction 1 as [now | now u st _ IH | now p st _ IH | id p st _ IH | id st _ IH
                 | now a st _ IH | uid eid st _ IH].
  - apply constructor_keyed.
  - exact IH.
  - now apply createEvent_keyed.
  - now apply updateEvent_keyed.
  - now apply deleteEvent_keyed.
  - exact IH.
  - unfold deleteAttendee. destruct (Array_find _ _); exact IH.
Qed.

(** Under the invariant [getEvent] of a stored event finds that event. *)
Lemma getEvent_value st e :
  keyed (@Event.id number) (events st) -> In e (JsMap.values (events st)) ->
  (getUser st (Event.hostId e) = None /\ getEvent st (Event.id e) = None) \/
  (exists x, getEvent st (Event.id e) = Some x /\ EventWithAttendees.event x = e).
Proof.
  intros K Hin. unfold getEvent, getUser.
  rewrite (JsMapFacts.get_value e K Hin).
  destruct (JsMap.get (Event.hostId e) (users st)); [right | left; auto].
  eexists. split; reflexivity.
Qed.

End WithNumber.
End MemStorageFacts.

(** * The stated properties *)

(** ** Deleting an event *)

Section Deleting.
Context {number : Type} `{JSNumber number}.

(** C1, on the code of [MemStorage]: in the store the constructor builds,
    [deleteEvent(3)] removes the event and answers [true], and the two
    attendee rows of event 3 are still what [getEventAttendees(3)] returns. *)
Theorem C1_MemStorage_deleteEvent_keeps_attendee_rows (now : Z) :
  let st := MemStorage.constructor (number := number) now in
  let '(removed, st') := MemStorage.deleteEvent 3 st in
  removed = Returns true /\
  MemStorage.getEvent st' 3 = None /\
  MemStorage.getEventAttendees st' 3 = [Attendee.mk 3 1 3 now; Attendee.mk 4 2 3 now].
Proof.
  cbv -[Z.add]. repeat split.
Qed.

End Deleting.

(** ** Searching *)

Section Searching.
Context {number : Type} `{JSNumber number}.

(** The filter of [MemStorage.searchEvents] keeps an event exactly when the
    query is a case-insensitive substring of one of the three fields. *)
Lemma mem_search_test_spec (query : string) (event : Event.t number) :
  mem_search_test query event = true <-> search_matches query event.
Proof.
  unfold mem_search_test, search_matches.
  rewrite !orb_true_iff, !includes_toLowerCase_spec. tauto.
Qed.

Lemma MemStorage_searchEvents_eq (st : MemStorage.t number) (query : string) :
  MemStorage.searchEvents st query =
  map (fun e => MemStorage.getEvent st (Event.id e))
      (filter (mem_search_test query) (JsMap.values (MemStorage.events st))).
Proof. reflexivity. Qed.

Lemma PgStorage_searchEvents_eq (d : PgStorage.t number) (query : string) :
  PgStorage.searchEvents d query =
  map (PgStorage.withDetails d) (filter (pg_search_test query) (PgStorage.events d)).
Proof. reflexivity. Qed.

(** The [where] of [PgStorage.searchEvents], for a query without [%], [_]
    and backslash, keeps an event exactly when the query occurs in one of the
    three fields with the same letter case. *)
Lemma pg_search_test_plain (query : string) (e : Event.t number) :
  plain query = true ->
  pg_search_test query e
  = JsString.includes (Event.title e) query
    || JsString.includes (Event.description e) query
    || JsString.includes (Event.location e) query.
Proof.
  intros P. unfold pg_search_test. cbv zeta.
  now rewrite !SqlFacts.like_includes by assumption.
Qed.

(** C2, on the code of [PgStorage]: the sample database holds event 1, whose
    location "Central Park" has "central" as a case-insensitive substring,
    and [searchEvents("central")] returns no event, while the same search on
    the sample store of [MemStorage] returns one. *)
Theorem C2_PgStorage_searchEvents_is_case_sensitive (now : Z) :
  let d := pg_sample (number := number) now in
  PgStorage.searchEvents d "central" = [] /\
  (exists e, In e (PgStorage.events d) /\ Event.id e = 1 /\ search_matches "central" e) /\
  List.length (MemStorage.searchEvents (MemStorage.constructor (number := number) now) "central")
    = 1%nat.
Proof.
  cbv zeta. split; [|split].
  - vm_compute. reflexivity.
  - eexists. split; [vm_compute; left; reflexivity|]. split; [reflexivity|].
    right; right. exists "", "Central", " Park". split; reflexivity.
  - vm_compute. reflexivity.
Qed.

End Searching.

(** ** Listing by category *)

Section Listing.
Context {number : Type} `{JSNumber number}.

Lemma MemStorage_entries_stand_for (st : MemStorage.t number) (l : list (Event.t number)) :
  keyed (@Event.id number) (MemStorage.events st) ->
  incl l (JsMap.values (MemStorage.events st)) ->
  Forall2 (stands_for st) l (map (fun e => MemStorage.getEvent st (Event.id e)) l).
Proof.
  intros K. induction l as [|e l IH]; intros I; simpl; constructor.
  - destruct (MemStorageFacts.getEvent_value st e K (I e (or_introl eq_refl)))
      as [[G ->] | [x [-> E]]]; simpl; assumption.
  - apply IH. intros x Hx. apply I. now right.
Qed.


(** [MemStorage.searchEvents] returns one entry for each stored event that
    the query matches in the sense of the specification, in order. *)
Lemma MemStorage_searchEvents_spec (st : MemStorage.t number) (query : string) :
  keyed (@Event.id number) (MemStorage.events st) ->
  exists matching,
    Forall2 (stands_for st) matching (MemStorage.searchEvents st query) /\
    forall e, In e matching <->
              In e (JsMap.values (MemStorage.events st)) /\ search_matches query e.
Proof.
  intros K. exists (filter (mem_search_test query) (JsMap.values (MemStorage.events st))).
  split.
  - apply MemStorage_entries_stand_for; [assumption|].
    intros e He. now apply filter_In in He.
  - intros e. rewrite filter_In, mem_search_test_spec. tauto.
Qed.

End Listing.


(** ** Events near a location *)

Section NearLocation.
Context {number : Type} `{JSNumber number}.

Local Abbreviation EWA := (EventWithAttendees.t number).

Lemma or_zero_lit_0 : or_zero (Some (num_lit 0)) = or_zero (None : option number).
Proof. unfold or_zero. now destruct (num_truthy (num_lit 0)). Qed.

(** The comparison function of the two classes orders by the distance. *)
Lemma by_distance_key (a b : EWA) :
  comparable distance_key a -> comparable distance_key b ->
  num_lt (num_lit 0)
    (num_sub (or_zero (EventWithAttendees.distanceInMiles a))
             (or_zero (EventWithAttendees.distanceInMiles b)))
  = negb (num_le (distance_key a) (distance_key b)).
Proof.
  unfold comparable, distance_key. intros Ca Cb.
  rewrite <- (num_sub_sign _ _ Ca Cb). cbv zeta.
  destruct (EventWithAttendees.distanceInMiles a), (EventWithAttendees.distanceInMiles b);
    rewrite <- ?or_zero_lit_0; reflexivity.
Qed.

Lemma StronglySorted_impl {A} (R R' : A -> A -> Prop) (P : A -> Prop) (l : list A) :
  (forall a b, P a -> P b -> R a b -> R' a b) ->
  Forall P l -> StronglySorted R l -> StronglySorted R' l.
Proof.
  intros I F S. induction S as [|a l S IH Ha]; constructor.
  - apply IH. now inversion F.
  - inversion F as [|? ? Pa Pl]; subst.
    rewrite Forall_forall in *. intros b Hb. apply I; auto.
Qed.

(** The pipeline both classes run on their full listing: attach, keep what
    is near, sort. *)
Lemma near_pipeline (calculateDistance : number -> number -> number -> number -> number)
    (within : number -> EWA -> bool) (by_distance : EWA -> EWA -> number)
    (lat lng distance : number) (allEvents : list EWA) :
  (forall d e, within d e =
     match EventWithAttendees.distanceInMiles e with
     | Some x => num_le x d
     | None => num_le (num_lit 0) d
     end) ->
  (forall a b, by_distance a b =
     num_sub (or_zero (EventWithAttendees.distanceInMiles a))
             (or_zero (EventWithAttendees.distanceInMiles b))) ->
  let r :=
    Array_sort by_distance
      (filter (within distance) (map (with_distance calculateDistance lat lng) allEvents)) in
  Permutation r
    (map (with_distance calculateDistance lat lng)
       (filter (near calculateDistance lat lng distance) allEvents)) /\
  ascending_by_distance r.
Proof.
  intros W B r.
  assert (E : filter (within distance) (map (with_distance calculateDistance lat lng) allEvents)
              = map (with_distance calculateDistance lat lng)
                  (filter (near calculateDistance lat lng distance) allEvents)).
  { rewrite filter_map_comm. f_equal. apply filter_ext. intros e. now rewrite W. }
  assert (P : Permutation r
                (map (with_distance calculateDistance lat lng)
                   (filter (near calculateDistance lat lng distance) allEvents))).
  { unfold r. rewrite E. apply Array_sort_Permutation. }
  assert (F : Forall
                (fun e => exists x, EventWithAttendees.distanceInMiles e = Some x /\
                                    num_le x x = true)
                (map (with_distance calculateDistance lat lng)
                   (filter (near calculateDistance lat lng distance) allEvents))).
  { rewrite Forall_forall. intros e He. apply in_map_iff in He.
    destruct He as [e0 [<- He0]]. apply filter_In in He0. destruct He0 as [_ N].
    eexists. split; [reflexivity|]. unfold near in N. now apply num_le_self in N. }
  split; [exact P|].
  unfold ascending_by_distance.
  apply StronglySorted_impl with
    (R := key_le distance_key)
    (P := fun e => exists x, EventWithAttendees.distanceInMiles e = Some x /\ num_le x x = true).
  - intros a b [x [Ea _]] [y [Eb _]]. unfold key_le, distance_key. rewrite Ea, Eb.
    intros L. now exists x, y.
  - eapply Permutation_Forall; [symmetry; exact P | exact F].
  - unfold r. rewrite E. apply Array_sort_sorted.
    + intros a b Ca Cb. rewrite B. now apply by_distance_key.
    + eapply Forall_impl; [|exact F]. intros e [x [Ee L]].
      unfold comparable, distance_key. now rewrite Ee.
Qed.

(** [attach_distances] succeeds on a listing without [undefined]. *)
Lemma attach_distances_Some (lat lng : number) (l : list EWA) :
  MemStorage.attach_distances lat lng (map Some l)
  = Returns (map (with_distance MemStorage.calculateDistance lat lng) l).
Proof.
  induction l as [|e l IH]; simpl; [reflexivity|]. now rewrite IH.
Qed.

(** It throws on a listing with an [undefined] entry. *)
Lemma attach_distances_None (lat lng : number)
    (l : list (option EWA)) :
  In None l -> MemStorage.attach_distances lat lng l = Throws TypeError.
Proof.
  induction l as [|[e|] l IH]; simpl; [tauto | | reflexivity].
  intros [C | Hin]; [discriminate|]. now rewrite IH.
Qed.

(** Host integrity gives a listing without [undefined]. *)
Lemma MemStorage_getAllEvents_Some (st : MemStorage.t number) :
  keyed (@Event.id number) (MemStorage.events st) ->
  Forall (fun e => MemStorage.getUser st (Event.hostId e) <> None)
    (JsMap.values (MemStorage.events st)) ->
  exists allEvents,
    MemStorage.getAllEvents st = map Some allEvents /\
    map (@EventWithAttendees.event number) allEvents = JsMap.values (MemStorage.events st).
Proof.
  intros K. unfold MemStorage.getAllEvents.
  assert (I : incl (JsMap.values (MemStorage.events st)) (JsMap.values (MemStorage.events st)))
    by apply incl_refl.
  revert I. generalize (JsMap.values (MemStorage.events st)) at 1 3 4 5.
  induction l as [|e l IH]; intros I F.
  - now exists [].
  - inversion F as [|? ? He Hl]; subst.
    destruct IH as [all [E1 E2]]; [intros x Hx; apply I; now right | assumption |].
    destruct (MemStorageFacts.getEvent_value st e K (I e (or_introl eq_refl)))
      as [[G _] | [x [G E]]]; [contradiction|].
    exists (x :: all). simpl. now rewrite G, E1, E, E2.
Qed.


End NearLocation.


(** The scenario of the specification in the rational model: of the sample
    events, the one in Central Park is the only one within a mile of
    (40.7850, -73.9682), at distance 0.0. *)
Example near_central_park :
  match MemStorage.getEventsNearLocation mem0 40.7850%Q (-73.9682)%Q 1%Q with
  | Returns r =>
    map (fun e => (Event.id (EventWithAttendees.event e), EventWithAttendees.distanceInMiles e)) r
    = [(1, Some 0%Q)]
  | Throws _ => False
  end.
Proof. vm_compute. reflexivity. Qed.

(** ** Creating and reading an event *)

Section Reading.
Context {number : Type} `{JSNumber number}.

Lemma select_where_app {Row} (t1 t2 : list Row) (c : Row -> bool) :
  PgStorage.select_where (t1 ++ t2) c
  = PgStorage.select_where t1 c ++ PgStorage.select_where t2 c.
Proof. apply filter_app. Qed.

Lemma select_where_nil {Row} (t : list Row) (c : Row -> bool) :
  (forall x, In x t -> c x = false) -> PgStorage.select_where t c = [].
Proof.
  intros N. unfold PgStorage.select_where. induction t as [|x t IH]; simpl; [reflexivity|].
  rewrite (N x (or_introl eq_refl)). apply IH. intros y Hy. apply N. now right.
Qed.

Lemma PgStorage_getUser_Some (d : PgStorage.t number) (id : Z) (u : User.t) :
  PgStorage.getUser d id = Some u ->
  exists rest,
    PgStorage.select_where (PgStorage.users d) (fun u' => Z.eqb (User.id u') id) = u :: rest.
Proof.
  unfold PgStorage.getUser, PgStorage.first.
  destruct (PgStorage.select_where _ _) as [|u' rest]; simpl; [discriminate|].
  intros [= ->]. now exists rest.
Qed.

(** [INSERT INTO events] goes through when the next id is fresh and the host
    exists: the row is appended, the sequence moves on. *)
Lemma PgStorage_insert_event_ok (now : Z) (payload : InsertEvent.t number)
    (d : PgStorage.t number) :
  (forall e, In e (PgStorage.events d) -> Event.id e <> PgStorage.events_id_seq d) ->
  PgStorage.getUser d (InsertEvent.hostId payload) <> None ->
  let row := event_of_payload (PgStorage.events_id_seq d) now payload in
  PgStorage.insert_event now payload d
  = (Returns [row],
     PgStorage.mk (PgStorage.users d) (PgStorage.events d ++ [row]) (PgStorage.attendees d)
       (PgStorage.users_id_seq d) (PgStorage.events_id_seq d + 1)
       (PgStorage.attendees_id_seq d)).
Proof.
  intros Hf Hh row.
  assert (Pk : existsb (fun e => Z.eqb (Event.id e) (PgStorage.events_id_seq d))
                 (PgStorage.events d) = false).
  { apply not_true_is_false. intros C. apply existsb_exists in C.
    destruct C as [e [He Ee]]. apply Z.eqb_eq in Ee. now apply (Hf e). }
  assert (Fk : existsb (fun u => Z.eqb (User.id u) (InsertEvent.hostId payload))
                 (PgStorage.users d) = true).
  { destruct (PgStorage.getUser d (InsertEvent.hostId payload)) as [host|] eqn:G;
      [|contradiction].
    destruct (PgStorage_getUser_Some _ _ G) as [rest Hs].
    apply existsb_exists. exists host. unfold PgStorage.select_where in Hs.
    assert (Hin : In host (filter (fun u' => Z.eqb (User.id u') (InsertEvent.hostId payload))
                             (PgStorage.users d))) by (rewrite Hs; now left).
    now apply filter_In in Hin. }
  unfold PgStorage.insert_event, PgStorage.nextval_events_id, bind, read, PgStorage.check,
    ret, throw.
  simpl. rewrite Pk, Fk. reflexivity.
Qed.

(** C5: a payload whose host exists is created under the next id, and
    [getEvent] of that id returns the created event unchanged with
    [attendees: 0], [attendeesList: []] and the host's summary, given that the
    id is fresh and no attendee row carries it.  The created event is the
    payload with the defaults filled in. *)
Theorem C5_createEvent_getEvent_round_trip (now : Z) (payload : InsertEvent.t number)
    (host : User.t) :
  (forall st : MemStorage.t number,
      MemStorage.getUser st (InsertEvent.hostId payload) = Some host ->
      MemStorage.getEventAttendees st (MemStorage.eventId st) = [] ->
      exists e st',
        MemStorage.createEvent now payload st = (Returns e, st') /\
        e = event_of_payload (MemStorage.eventId st) now payload /\
        MemStorage.getEvent st' (Event.id e)
          = Some (EventWithAttendees.mk e 0 [] (Summary.of_user host))) /\
  (forall d : PgStorage.t number,
      PgStorage.getUser d (InsertEvent.hostId payload) = Some host ->
      (forall e, In e (PgStorage.events d) -> Event.id e <> PgStorage.events_id_seq d) ->
      PgStorage.getEventAttendees d (PgStorage.events_id_seq d) = [] ->
      exists e d',
        PgStorage.createEvent now payload d = (Returns (Some e), d') /\
        e = event_of_payload (PgStorage.events_id_seq d) now payload /\
        PgStorage.getEvent d' (Event.id e)
          = Some (EventWithAttendees.mk e 0 [] (Summary.of_user host))).
Proof.
  split.
  - intros st Hh Ha. eexists. eexists. split; [reflexivity|]. split; [reflexivity|].
    unfold MemStorage.getEvent. simpl. rewrite JsMapFacts.get_set_eq.
    unfold MemStorage.getEventAttendees in Ha. rewrite Ha.
    unfold MemStorage.getUser in Hh. simpl. now rewrite Hh.
  - intros d Hh Hf Ha.
    destruct (PgStorage_getUser_Some _ _ Hh) as [rest Hs].
    eexists. eexists. split; [|split].
    + unfold PgStorage.createEvent, bind.
      rewrite PgStorage_insert_event_ok by (assumption || congruence).
      reflexivity.
    + reflexivity.
    + unfold PgStorage.getEvent, PgStorage.getFormattedAttendees. simpl.
      rewrite select_where_app.
      rewrite (select_where_nil (PgStorage.events d)).
      * simpl. rewrite Z.eqb_refl. simpl.
        unfold PgStorage.getEventAttendees in Ha. rewrite Ha. simpl.
        rewrite Hs. reflexivity.
      * intros x Hx. apply Z.eqb_neq. now apply Hf.
Qed.

Lemma PgStorage_getFormattedAttendees_eq (d : PgStorage.t number) (id : Z) :
  PgStorage.getFormattedAttendees d id
  = resolved_attendees (PgStorage.getUser d) (PgStorage.getEventAttendees d id).
Proof.
  unfold PgStorage.getFormattedAttendees, resolved_attendees, PgStorage.getEventAttendees.
  rewrite map_filter_Boolean_map.
  induction (PgStorage.select_where (PgStorage.attendees d) _) as [|a l IH];
    simpl; [reflexivity|].
  unfold PgStorage.getUser, PgStorage.first.
  destruct (PgStorage.select_where (PgStorage.users d) _); simpl; now rewrite IH.
Qed.

(** What is in the list of resolved attendees: the summary of a user that a
    row of the list names and [getUser] finds. *)
Lemma resolved_attendees_In (getUser : Z -> option User.t) (rows : list Attendee.t)
    (s : Summary.t) :
  In s (resolved_attendees getUser rows) <->
  exists a u, In a rows /\ getUser (Attendee.userId a) = Some u /\ s = Summary.of_user u.
Proof.
  unfold resolved_attendees. rewrite map_filter_Boolean_In. split.
  - intros [a [Ha E]]. destruct (getUser (Attendee.userId a)) as [u|] eqn:G; [|discriminate].
    injection E as <-. now exists a, u.
  - intros [a [u [Ha [G ->]]]]. exists a. now rewrite G.
Qed.


End Reading.

(** C5 on the sample stores: one more event hosted by "johndoe". *)
Lemma C5_on_the_sample_stores :
  (exists e st',
      MemStorage.createEvent 7 (Seed.event1 1) mem0 = (Returns e, st') /\
      e = event_of_payload (MemStorage.eventId mem0) 7 (Seed.event1 1) /\
      MemStorage.getEvent st' (Event.id e)
        = Some (EventWithAttendees.mk e 0 [] (Summary.of_user (johndoe 0)))) /\
  (exists e d',
      PgStorage.createEvent 7 (Seed.event1 1) pg0 = (Returns (Some e), d') /\
      e = event_of_payload (PgStorage.events_id_seq pg0) 7 (Seed.event1 1) /\
      PgStorage.getEvent d' (Event.id e)
        = Some (EventWithAttendees.mk e 0 [] (Summary.of_user (johndoe 0)))).
Proof.
  destruct (C5_createEvent_getEvent_round_trip (number := Q) 7 (Seed.event1 1) (johndoe 0))
    as [M P].
  split.
  - apply (M mem0); vm_compute; reflexivity.
  - apply (P pg0).
    + vm_compute. reflexivity.
    + vm_compute. intros e He C. repeat (destruct He as [<- | He]; [discriminate C|]).
      exact He.
    + vm_compute. reflexivity.
Defined.

(** a store of [MemStorage] with an event whose host does not exist, and an
    attendee row of event 3 whose user does not exist *)
Definition mem_dangling : MemStorage.t Q :=
  snd ((MemStorage.createEvent 0 (Seed.event1 99) ;;;
        MemStorage.createAttendee 0 (InsertAttendee.mk 99 3)) mem0).


(** In [mem_dangling] event 3 has three attendee rows and two attendees
    listed: the row of the unknown user 99 is left out of the list and
    counted. *)
Example attendee_without_user_is_left_out :
  match MemStorage.getEvent mem_dangling 3 with
  | Some r =>
    List.length (MemStorage.getEventAttendees mem_dangling 3) = 3%nat /\
    map Summary.id (EventWithAttendees.attendeesList r) = [1; 2] /\
    EventWithAttendees.attendees r = 3%nat
  | None => False
  end.
Proof. vm_compute. repeat split. Qed.

(** ** Registering for an event *)

Section Attending.
Context {number : Type}.

(** The handler on a store of any class, once the user is known to attend. *)
Lemma attend_isUserAttending {S : Type} `{IStorage number S}
    (now uid eid : Z) (session : Routes.Session) (id : string) (st : S) :
  Routes.userId session = Some uid -> uid <> 0 ->
  JsString.parseInt id = Some eid ->
  isUserAttending st uid eid = true ->
  Routes.attend now session id st
  = (Returns (Routes.mkResponse 400
                (Routes.Message "You are already registered for this event")), st).
Proof.
  intros Hs Hu Hp Ha. unfold Routes.attend, Routes.not_logged_in, try_catch, bind, read, ret.
  rewrite Hs, Hp. destruct (Z.eqb_spec uid 0) as [|_]; [contradiction|].
  now rewrite Ha.
Qed.

Lemma PgStorage_isUserAttending_iff (d : PgStorage.t number) (uid eid : Z) :
  PgStorage.isUserAttending d uid eid = true <->
  exists a, In a (PgStorage.attendees d) /\ Attendee.userId a = uid /\ Attendee.eventId a = eid.
Proof.
  unfold PgStorage.isUserAttending, PgStorage.select_where. split.
  - destruct (filter _ _) as [|a l] eqn:E; simpl; [discriminate|]. intros _.
    assert (Hin : In a (filter
                          (fun a => Z.eqb (Attendee.userId a) uid && Z.eqb (Attendee.eventId a) eid)
                          (PgStorage.attendees d))) by (rewrite E; now left).
    apply filter_In in Hin. destruct Hin as [Hin Hb].
    apply andb_true_iff in Hb. destruct Hb as [Hu He].
    apply Z.eqb_eq in Hu, He. now exists a.
  - intros [a [Hin [Hu He]]].
    assert (Hf : In a (filter
                         (fun a => Z.eqb (Attendee.userId a) uid && Z.eqb (Attendee.eventId a) eid)
                         (PgStorage.attendees d))).
    { apply filter_In. split; [assumption|]. rewrite Hu, He, !Z.eqb_refl. reflexivity. }
    destruct (filter _ _); [destruct Hf | reflexivity].
Qed.

Lemma MemStorage_isUserAttending_iff (st : MemStorage.t number) (uid eid : Z) :
  MemStorage.isUserAttending st uid eid = true <->
  exists a, In a (JsMap.values (MemStorage.attendees st)) /\
            Attendee.userId a = uid /\ Attendee.eventId a = eid.
Proof.
  unfold MemStorage.isUserAttending. rewrite existsb_exists. split.
  - intros [a [Hin Hb]]. apply andb_true_iff in Hb. destruct Hb as [Hu He].
    apply Z.eqb_eq in Hu, He. now exists a.
  - intros [a [Hin [Hu He]]]. exists a. split; [assumption|].
    rewrite Hu, He, !Z.eqb_refl. reflexivity.
Qed.

(** C8: with a logged-in user and an id that names an event, when an
    attendee row for the pair is already there the handler answers 400 with
    "You are already registered for this event" and leaves the store, hence
    the attendee rows, as it was; so on the database, so on a store of
    [MemStorage]. *)
Theorem C8_attend_twice_is_rejected
    (now uid eid : Z) (session : Routes.Session) (id : string) :
  Routes.userId session = Some uid -> uid <> 0 ->
  JsString.parseInt id = Some eid ->
  (forall d : PgStorage.t number,
      (exists a, In a (PgStorage.attendees d) /\
                 Attendee.userId a = uid /\ Attendee.eventId a = eid) ->
      Routes.attend now session id d
      = (Returns (Routes.mkResponse 400
                    (Routes.Message "You are already registered for this event")), d)) /\
  (forall st : MemStorage.t number,
      (exists a, In a (JsMap.values (MemStorage.attendees st)) /\
                 Attendee.userId a = uid /\ Attendee.eventId a = eid) ->
      Routes.attend now session id st
      = (Returns (Routes.mkResponse 400
                    (Routes.Message "You are already registered for this event")), st)).
Proof.
  intros Hs Hu Hp. split.
  - intros d Ha. apply attend_isUserAttending with (uid := uid) (eid := eid); try assumption.
    now apply PgStorage_isUserAttending_iff.
  - intros st Ha. apply attend_isUserAttending with (uid := uid) (eid := eid); try assumption.
    now apply MemStorage_isUserAttending_iff.
Qed.

End Attending.

(** C8 on the sample stores: "johndoe" registers for event 3 once more. *)
Lemma C8_on_the_sample_stores :
  Routes.attend 7 (Routes.mkSession (Some (johndoe 0)) (Some 1)) "3" pg0
  = (Returns (Routes.mkResponse 400
                (Routes.Message "You are already registered for this event")), pg0) /\
  Routes.attend 7 (Routes.mkSession (Some (johndoe 0)) (Some 1)) "3" mem0
  = (Returns (Routes.mkResponse 400
                (Routes.Message "You are already registered for this event")), mem0).
Proof.
  destruct (C8_attend_twice_is_rejected (number := Q) 7 (uid := 1) (eid := 3)
              (Routes.mkSession (Some (johndoe 0)) (Some 1)) "3"
              eq_refl ltac:(discriminate) eq_refl) as [P M].
  split.
  - apply P. eexists. split; [vm_compute; right; right; left; reflexivity|].
    split; reflexivity.
  - apply M. eexists. split; [vm_compute; right; right; left; reflexivity|].
    split; reflexivity.
Defined.

(** ** Logging in *)

Section LoggingIn.
Context {number : Type}.

(** C9, amended: a request that carries a username and a password, both
    non-empty, gets one and the same 401 response with the message "Invalid
    username or password", and keeps its session, whether the username is
    unknown to the store or known with another password. *)
Theorem C9_login_failures_are_indistinguishable
    {S1 S2 : Type} `{IStorage number S1} `{IStorage number S2}
    (st1 : S1) (st2 : S2) (session : Routes.Session) (username password : string)
    (user : User.t) :
  username <> "" -> password <> "" ->
  getUserByUsername st1 username = None ->
  getUserByUsername st2 username = Some user ->
  User.password user <> password ->
  Routes.login st1 session (Some username) (Some password) = (invalid_credentials, session) /\
  Routes.login st2 session (Some username) (Some password) = (invalid_credentials, session).
Proof.
  intros Nu Np G1 G2 Nw. unfold Routes.login, JsString.falsy. simpl.
  destruct (String.eqb_spec username ""); [contradiction|].
  destruct (String.eqb_spec password ""); [contradiction|]. simpl.
  rewrite G1, G2. split; [reflexivity|].
  destruct (String.eqb_spec (User.password user) password); [contradiction | reflexivity].
Qed.

(** A request without a username or without a password is answered 400
    before the store is looked at. *)
Lemma login_missing_credentials {S : Type} `{IStorage number S}
    (st : S) (session : Routes.Session) (username password : option string) :
  JsString.falsy username = true \/ JsString.falsy password = true ->
  Routes.login st session username password
  = (Routes.mkResponse 400 (Routes.Failure "Username and password are required"), session).
Proof.
  intros F. unfold Routes.login.
  destruct F as [-> | ->]; [reflexivity | now rewrite orb_true_r].
Qed.

End LoggingIn.

(** C9 on an empty database and on the sample database, for "johndoe" with a wrong password. *)
Lemma C9_on_the_sample_database :
  Routes.login (PgStorage.migrated (number := Q)) (Routes.mkSession None None)
    (Some "johndoe") (Some "letmein")
    = (invalid_credentials, Routes.mkSession None None) /\
  Routes.login pg0 (Routes.mkSession None None) (Some "johndoe") (Some "letmein")
    = (invalid_credentials, Routes.mkSession None None).
Proof.
  apply (C9_login_failures_are_indistinguishable (number := Q)
           (PgStorage.migrated (number := Q)) pg0 (Routes.mkSession None None)
           (username := "johndoe") (password := "letmein") (user := johndoe 0)).
  - discriminate.
  - discriminate.
  - reflexivity.
  - vm_compute. reflexivity.
  - discriminate.
Defined.

(** C9, as stated, fails: "johndoe" is a user of the sample database with the
    password "password123", and a login as "johndoe" with the empty password
    is answered 400, not 401. *)
Lemma C9_empty_password_is_answered_400 : ~ login_failure_is_always_401 Q.
Proof.
  intros C.
  specialize (C pg0 (Routes.mkSession None None) "johndoe" "").
  assert (P : PgStorage.getUserByUsername pg0 "johndoe" = None \/
              exists user,
                PgStorage.getUserByUsername pg0 "johndoe" = Some user /\
                User.password user <> "").
  { right. eexists. split; [vm_compute; reflexivity | discriminate]. }
  specialize (C P). vm_compute in C. discriminate C.
Qed.

(** ** Events whose host is missing *)

Section UnknownHost.
Context {number : Type} `{JSNumber number}.

(** C10: a row of [events] whose host is not found is not dropped by the
    three list methods of [PgStorage]: it is in [getAllEvents()], in
    [getEventsByCategory] of its category and in every [searchEvents] whose
    pattern it matches, with the host [{ id: 0, name: 'Unknown', avatar: '' }];
    [getEvent] of its id is [undefined].  Such a state exists. *)
Theorem C10_PgStorage_lists_keep_events_without_host :
  (forall (d : PgStorage.t number) (e : Event.t number),
      In e (PgStorage.events d) ->
      PgStorage.getUser d (Event.hostId e) = None ->
      In (with_unknown_host d e) (PgStorage.getAllEvents d) /\
      In (with_unknown_host d e) (PgStorage.getEventsByCategory d (Event.categoryId e)) /\
      (forall query, pg_search_test query e = true ->
                     In (with_unknown_host d e) (PgStorage.searchEvents d query)) /\
      (NoDup (map (@Event.id number) (PgStorage.events d)) ->
       PgStorage.getEvent d (Event.id e) = None)) /\
  (exists (d : PgStorage.t number) (x : EventWithAttendees.t number),
      In x (PgStorage.getAllEvents d) /\
      EventWithAttendees.host x = Summary.unknown /\
      PgStorage.getEvent d (Event.id (EventWithAttendees.event x)) = None).
Proof.
  split.
  - intros d e Hin G.
    pose proof (PgStorageFacts.withDetails_unknown_host d e G) as W.
    fold (with_unknown_host d e) in W.
    assert (A : In (with_unknown_host d e) (PgStorage.getAllEvents d)).
    { rewrite <- W. unfold PgStorage.getAllEvents. now apply in_map. }
    split; [exact A|]. split; [|split].
    + unfold PgStorage.getEventsByCategory.
      destruct (String.eqb (Event.categoryId e) "All"); [exact A|].
      rewrite <- W. apply in_map. apply filter_In. split; [assumption|].
      apply String.eqb_refl.
    + intros q M. unfold PgStorage.searchEvents. rewrite <- W. apply in_map.
      apply filter_In. split; [assumption | exact M].
    + intros ND. now apply PgStorageFacts.getEvent_unknown_host.
  - exists (orphan_event_db 0). eexists. split; [left; reflexivity|].
    split; reflexivity.
Qed.

End UnknownHost.

(** C10 on the database whose one event has no host. *)
Lemma C10_on_the_orphan_event :
  In (with_unknown_host (orphan_event_db (number := Q) 0) (event_of_payload 1 0 (Seed.event1 1)))
     (PgStorage.getAllEvents (orphan_event_db (number := Q) 0)) /\
  PgStorage.getEvent (orphan_event_db (number := Q) 0) 1 = None.
Proof.
  destruct (proj1 (C10_PgStorage_lists_keep_events_without_host (number := Q))
              (orphan_event_db 0) (event_of_payload 1 0 (Seed.event1 1))
              (or_introl eq_refl) eq_refl) as [A [_ [_ G]]].
  split; [exact A|]. apply G. repeat constructor. simpl. tauto.
Defined.


(** * Further properties *)

(** ** The invariant of [MemStorage] *)

Section MemInvariant.
Context {number : Type} `{JSNumber number}.
Implicit Types (st : MemStorage.t number).

Lemma below_has {V} (next : Z) (m : JsMap.t V) :
  below next m -> JsMap.has next m = false.
Proof.
  intros B. apply not_true_is_false. intros C.
  apply JsMapFacts.has_In, in_map_iff in C. destruct C as [p [E Hp]].
  unfold below in B. rewrite Forall_forall in B. specialize (B p Hp). lia.
Qed.

(** Under a key that is not there yet [set] appends. *)
Lemma set_fresh {V} (next : Z) (v : V) (m : JsMap.t V) :
  below next m -> JsMap.set next v m = m ++ [(next, v)].
Proof. intros B. unfold JsMap.set. now rewrite (below_has B). Qed.

Lemma below_set_next {V} (next : Z) (v : V) (m : JsMap.t V) :
  below next m -> below (next + 1) (JsMap.set next v m).
Proof.
  intros B. rewrite (set_fresh v B). apply Forall_app. split.
  - eapply Forall_impl; [|exact B]. simpl. intros p Hp. lia.
  - repeat constructor. simpl. lia.
Qed.

Lemma below_replace {V} (next k : Z) (v : V) (m : JsMap.t V) :
  JsMap.has k m = true -> below next m -> below next (JsMap.set k v m).
Proof.
  intros Hk B. unfold JsMap.set. rewrite Hk.
  assert (K : k < next).
  { apply JsMapFacts.has_In, in_map_iff in Hk. destruct Hk as [p [<- Hp]].
    unfold below in B. rewrite Forall_forall in B. now apply B. }
  unfold below in *. rewrite Forall_forall in *. intros p Hp.
  destruct (JsMapFacts.In_replace _ _ _ _ Hp) as [-> | Hin]; [exact K | now apply B].
Qed.

Lemma below_delete {V} (next k : Z) (m : JsMap.t V) :
  below next m -> below next (snd (JsMap.delete k m)).
Proof.
  unfold below, JsMap.delete. simpl. rewrite !Forall_forall.
  intros B p Hp. apply filter_In in Hp. now apply B.
Qed.

Lemma get_has {V} (k : Z) (m : JsMap.t V) (v : V) :
  JsMap.get k m = Some v -> JsMap.has k m = true.
Proof.
  intros G. destruct (JsMap.has k m) eqn:E; [reflexivity|].
  assert (N : JsMap.get k m = None).
  { apply JsMapFacts.get_None. rewrite <- JsMapFacts.has_In. congruence. }
  congruence.
Qed.

Lemma constructor_invariant (now : Z) :
  mem_invariant (MemStorage.constructor (number := number) now).
Proof.
  unfold mem_invariant, keyed, below.
  repeat split; cbv -[Z.add Z.lt];
    repeat (constructor; [simpl; first [lia | reflexivity | intuition discriminate]|]);
    constructor.
Qed.

Ltac mem_invariant_parts :=
  unfold mem_invariant; simpl;
  split; [|split; [|split; [|split; [|split]]]]; try assumption.

(** The invariant holds in every store a [MemStorage] object goes through. *)
Lemma reachable_mem_invariant st : reachable st -> mem_invariant st.
Proof.
  induction 1 as [now | now u st _ IH | now p st _ IH | id p st _ IH | id st _ IH
                 | now a st _ IH | uid eid st _ IH];
    [apply constructor_invariant | destruct IH as [Ku [Bu [Ke [Be [Ka Ba]]]]] ..].
  - mem_invariant_parts.
    + now apply JsMapFacts.keyed_set.
    + now apply below_set_next.
  - mem_invariant_parts.
    + now apply JsMapFacts.keyed_set.
    + now apply below_set_next.
  - unfold MemStorage.updateEvent.
    destruct (JsMap.get id (MemStorage.events st)) as [event|] eqn:G;
      mem_invariant_parts.
    + apply JsMapFacts.keyed_set; [|assumption].
      simpl. now apply (JsMapFacts.get_Some_key _ Ke G).
    + apply below_replace; [now apply get_has with event | assumption].
  - mem_invariant_parts.
    + now apply JsMapFacts.keyed_delete.
    + now apply below_delete.
  - mem_invariant_parts.
    + now apply JsMapFacts.keyed_set.
    + now apply below_set_next.
  - unfold MemStorage.deleteAttendee.
    destruct (Array_find _ _) as [a|]; mem_invariant_parts.
    + now apply JsMapFacts.keyed_delete.
    + now apply below_delete.
Qed.

Lemma keyed_ids {V} (key : V -> Z) (m : JsMap.t V) :
  keyed key m -> map key (JsMap.values m) = map fst m.
Proof.
  intros [_ F]. unfold JsMap.values. rewrite map_map. apply map_ext_in.
  intros q Hq. rewrite Forall_forall in F. now apply F.
Qed.

Lemma get_below {V} (next k : Z) (m : JsMap.t V) (v : V) :
  below next m -> JsMap.get k m = Some v -> k < next.
Proof.
  intros B G. apply get_has, JsMapFacts.has_In, in_map_iff in G.
  destruct G as [p [<- Hp]]. unfold below in B. rewrite Forall_forall in B. now apply B.
Qed.

(** X1: in every store a [MemStorage] object goes through, what a map holds
    under an id is a record with that id, the id is below the counter the next
    id comes from, and no two records of a map have the same id. *)
Theorem MemStorage_reachable_ids st :
  reachable st ->
  (forall id u, MemStorage.getUser st id = Some u ->
                User.id u = id /\ id < MemStorage.userId st) /\
  (forall id e, JsMap.get id (MemStorage.events st) = Some e ->
                Event.id e = id /\ id < MemStorage.eventId st) /\
  (forall id a, JsMap.get id (MemStorage.attendees st) = Some a ->
                Attendee.id a = id /\ id < MemStorage.attendeeId st) /\
  NoDup (map User.id (JsMap.values (MemStorage.users st))) /\
  NoDup (map (@Event.id number) (JsMap.values (MemStorage.events st))) /\
  NoDup (map Attendee.id (JsMap.values (MemStorage.attendees st))).
Proof.
  intros R. destruct (reachable_mem_invariant R) as [Ku [Bu [Ke [Be [Ka Ba]]]]].
  split; [|split; [|split; [|split; [|split]]]].
  - intros id u G. split;
      [now apply (JsMapFacts.get_Some_key _ Ku G) | now apply (@get_below _ _ _ _ _ Bu G)].
  - intros id e G. split;
      [now apply (JsMapFacts.get_Some_key _ Ke G) | now apply (@get_below _ _ _ _ _ Be G)].
  - intros id a G. split;
      [now apply (JsMapFacts.get_Some_key _ Ka G) | now apply (@get_below _ _ _ _ _ Ba G)].
  - rewrite (@keyed_ids _ _ _ Ku). apply Ku.
  - rewrite (@keyed_ids _ _ _ Ke). apply Ke.
  - rewrite (@keyed_ids _ _ _ Ka). apply Ka.
Qed.

End MemInvariant.


(** ** Creating, updating and deleting in [MemStorage] *)

Section MemOperations.
Context {number : Type} `{JSNumber number}.
Implicit Types (st : MemStorage.t number).

Lemma find_app_or {A} (f : A -> bool) (l l' : list A) :
  find f (l ++ l') = match find f l with Some x => Some x | None => find f l' end.
Proof.
  induction l as [|x l IH]; simpl; [reflexivity|]. now destruct (f x).
Qed.

Lemma values_app {V} (m m' : JsMap.t V) :
  JsMap.values (m ++ m') = JsMap.values m ++ JsMap.values m'.
Proof. apply map_app. Qed.

(** X2: in a store a [MemStorage] object goes through, [createEvent] hands out
    an id no stored event has, returns the payload with the defaults filled
    in, and puts it at the end of the events, the others staying as they are. *)
Theorem MemStorage_createEvent_appends (now : Z) (p : InsertEvent.t number) st :
  reachable st ->
  exists e st',
    MemStorage.createEvent now p st = (Returns e, st') /\
    e = event_of_payload (MemStorage.eventId st) now p /\
    JsMap.get (Event.id e) (MemStorage.events st) = None /\
    JsMap.values (MemStorage.events st') = JsMap.values (MemStorage.events st) ++ [e] /\
    MemStorage.eventId st' = MemStorage.eventId st + 1 /\
    MemStorage.users st' = MemStorage.users st /\
    MemStorage.attendees st' = MemStorage.attendees st.
Proof.
  intros R. destruct (reachable_mem_invariant R) as [_ [_ [_ [Be _]]]].
  eexists. eexists. split; [reflexivity|]. split; [reflexivity|]. simpl.
  split; [|split; [|auto]].
  - apply JsMapFacts.get_None. rewrite <- JsMapFacts.has_In. rewrite (below_has Be). discriminate.
  - rewrite (set_fresh _ Be). now rewrite values_app.
Qed.

(** X3: in a store a [MemStorage] object goes through, [createUser] stores the
    new user under a fresh id, where [getUser] finds it, and keeps the others;
    it does not look at the username: when the username is taken,
    [getUserByUsername] goes on answering with the earlier user. *)
Theorem MemStorage_createUser_lookup (now : Z) (u : InsertUser.t) st :
  reachable st ->
  exists user st',
    MemStorage.createUser now u st = (Returns user, st') /\
    User.id user = MemStorage.userId st /\
    User.username user = InsertUser.username u /\
    MemStorage.getUser st (User.id user) = None /\
    MemStorage.getUser st' (User.id user) = Some user /\
    (forall k, k <> User.id user -> MemStorage.getUser st' k = MemStorage.getUser st k) /\
    (forall name,
        MemStorage.getUserByUsername st' name =
        match MemStorage.getUserByUsername st name with
        | Some earlier => Some earlier
        | None => if String.eqb (InsertUser.username u) name then Some user else None
        end).
Proof.
  intros R. destruct (reachable_mem_invariant R) as [_ [Bu _]].
  eexists. eexists. split; [reflexivity|]. split; [reflexivity|]. split; [reflexivity|].
  unfold MemStorage.getUser, MemStorage.getUserByUsername, Array_find. simpl.
  split; [|split; [|split]].
  - apply JsMapFacts.get_None. rewrite <- JsMapFacts.has_In. rewrite (below_has Bu). discriminate.
  - apply JsMapFacts.get_set_eq.
  - intros k N. now apply JsMapFacts.get_set_neq.
  - intros name. rewrite (set_fresh _ Bu), values_app, find_app_or. simpl.
    destruct (find _ (JsMap.values (MemStorage.users st))); [reflexivity|].
    now destruct (String.eqb (InsertUser.username u) name).
Qed.

(** X4: [updateEvent] of an id that is not stored answers [undefined] and
    changes nothing; of a stored event it stores and returns the event with
    the given fields replaced, under the same id and creation time, at the
    same place in the listing, and touches no other event. *)
Theorem MemStorage_updateEvent_spec (id : Z) (p : PartialInsertEvent.t number) st :
  keyed (@Event.id number) (MemStorage.events st) ->
  (JsMap.get id (MemStorage.events st) = None ->
   MemStorage.updateEvent id p st = (Returns None, st)) /\
  (forall e,
      JsMap.get id (MemStorage.events st) = Some e ->
      exists st',
        MemStorage.updateEvent id p st = (Returns (Some (PartialInsertEvent.spread e p)), st') /\
        Event.id (PartialInsertEvent.spread e p) = id /\
        Event.createdAt (PartialInsertEvent.spread e p) = Event.createdAt e /\
        JsMap.get id (MemStorage.events st') = Some (PartialInsertEvent.spread e p) /\
        (forall k, k <> id ->
                   JsMap.get k (MemStorage.events st') = JsMap.get k (MemStorage.events st)) /\
        map (@Event.id number) (JsMap.values (MemStorage.events st'))
          = map (@Event.id number) (JsMap.values (MemStorage.events st)) /\
        MemStorage.users st' = MemStorage.users st /\
        MemStorage.attendees st' = MemStorage.attendees st).
Proof.
  intros K. unfold MemStorage.updateEvent. split.
  - now intros ->.
  - intros e G. rewrite G. eexists. split; [reflexivity|]. simpl.
    assert (Ei : Event.id e = id) by now apply (JsMapFacts.get_Some_key _ K G).
    split; [exact Ei|]. split; [reflexivity|]. split; [apply JsMapFacts.get_set_eq|].
    split; [intros k N; now apply JsMapFacts.get_set_neq|]. split; [|auto].
    assert (K' : keyed (@Event.id number)
                   (JsMap.set id (PartialInsertEvent.spread e p) (MemStorage.events st)))
      by (apply JsMapFacts.keyed_set; assumption).
    assert (ids : forall m : JsMap.t (Event.t number),
               keyed (@Event.id number) m ->
               map (@Event.id number) (JsMap.values m) = map fst m).
    { intros m [_ F]. unfold JsMap.values. rewrite map_map. apply map_ext_in.
      intros q Hq. rewrite Forall_forall in F. now apply F. }
    rewrite (ids _ K'), (ids _ K). unfold JsMap.set.
    rewrite (get_has _ _ G). apply JsMapFacts.keys_replace.
Qed.

(** X5: deleting an event that is not stored answers [false] and changes
    nothing; so does deleting an event a second time. *)
Theorem MemStorage_deleteEvent_absent (id : Z) st :
  (JsMap.get id (MemStorage.events st) = None ->
   MemStorage.deleteEvent id st = (Returns false, st)) /\
  MemStorage.deleteEvent id (snd (MemStorage.deleteEvent id st))
  = (Returns false, snd (MemStorage.deleteEvent id st)).
Proof.
  assert (A : forall st0 : MemStorage.t number,
             JsMap.get id (MemStorage.events st0) = None ->
             MemStorage.deleteEvent id st0 = (Returns false, st0)).
  { intros st0 G. unfold MemStorage.deleteEvent, JsMap.delete.
    assert (Hh : JsMap.has id (MemStorage.events st0) = false).
    { apply not_true_is_false. intros C. apply JsMapFacts.has_In in C.
      now apply JsMapFacts.get_None in G. }
    rewrite Hh. f_equal. rewrite filter_id; [now destruct st0|].
    rewrite Forall_forall. intros q Hq. apply negb_true_iff. apply Z.eqb_neq. intros E.
    apply JsMapFacts.get_None in G. apply G. rewrite <- E. now apply in_map. }
  split; [apply A|]. apply A. apply JsMapFacts.get_delete.
Qed.

End MemOperations.

(** the sample store is one a [MemStorage] object goes through *)
Lemma mem0_reachable : reachable mem0.
Proof. apply reach_constructor. Qed.

(** On the sample store. *)
Lemma MemStorage_reachable_ids_on_the_sample_store :
  (forall id u, MemStorage.getUser mem0 id = Some u ->
                User.id u = id /\ id < MemStorage.userId mem0) /\
  (forall id e, JsMap.get id (MemStorage.events mem0) = Some e ->
                Event.id e = id /\ id < MemStorage.eventId mem0) /\
  (forall id a, JsMap.get id (MemStorage.attendees mem0) = Some a ->
                Attendee.id a = id /\ id < MemStorage.attendeeId mem0) /\
  NoDup (map User.id (JsMap.values (MemStorage.users mem0))) /\
  NoDup (map (@Event.id Q) (JsMap.values (MemStorage.events mem0))) /\
  NoDup (map Attendee.id (JsMap.values (MemStorage.attendees mem0))).
Proof. exact (MemStorage_reachable_ids mem0_reachable). Defined.

(** On the sample store: the next event gets the id 7 and the seventh place. *)
Lemma MemStorage_createEvent_appends_on_the_sample_store :
  exists e st',
    MemStorage.createEvent 7 (Seed.event2 1) mem0 = (Returns e, st') /\
    e = event_of_payload (MemStorage.eventId mem0) 7 (Seed.event2 1) /\
    JsMap.get (Event.id e) (MemStorage.events mem0) = None /\
    JsMap.values (MemStorage.events st') = JsMap.values (MemStorage.events mem0) ++ [e] /\
    MemStorage.eventId st' = MemStorage.eventId mem0 + 1 /\
    MemStorage.users st' = MemStorage.users mem0 /\
    MemStorage.attendees st' = MemStorage.attendees mem0.
Proof. apply (MemStorage_createEvent_appends 7 (Seed.event2 1) mem0_reachable). Defined.

(** On the sample store: a second "johndoe". *)
Lemma MemStorage_createUser_lookup_on_the_sample_store :
  exists user st',
    MemStorage.createUser 7 Seed.user1 mem0 = (Returns user, st') /\
    User.id user = MemStorage.userId mem0 /\
    User.username user = InsertUser.username Seed.user1 /\
    MemStorage.getUser mem0 (User.id user) = None /\
    MemStorage.getUser st' (User.id user) = Some user /\
    (forall k, k <> User.id user -> MemStorage.getUser st' k = MemStorage.getUser mem0 k) /\
    (forall name,
        MemStorage.getUserByUsername st' name =
        match MemStorage.getUserByUsername mem0 name with
        | Some earlier => Some earlier
        | None => if String.eqb (InsertUser.username Seed.user1) name then Some user else None
        end).
Proof. apply (MemStorage_createUser_lookup 7 Seed.user1 mem0_reachable). Defined.

(** On the sample store: event 3 gets a new title. *)
Lemma MemStorage_updateEvent_on_the_sample_store :
  let p : PartialInsertEvent.t Q :=
    PartialInsertEvent.mk (Some "Food Fair") None None None None None None None None None
      None None None None in
  exists st',
    MemStorage.updateEvent 3 p mem0
      = (Returns (Some (PartialInsertEvent.spread (event_of_payload 3 0 (Seed.event3 1)) p)),
         st') /\
    JsMap.get 3 (MemStorage.events st')
      = Some (PartialInsertEvent.spread (event_of_payload 3 0 (Seed.event3 1)) p).
Proof.
  intros p.
  destruct (proj2 (MemStorage_updateEvent_spec 3 p mem0 (MemStorageFacts.constructor_keyed 0))
              (event_of_payload 3 0 (Seed.event3 1)))
    as [st' [E [_ [_ [G _]]]]].
  - vm_compute. reflexivity.
  - exists st'. split; assumption.
Defined.

(** On the sample store: no event 99. *)
Lemma MemStorage_deleteEvent_absent_on_the_sample_store :
  MemStorage.deleteEvent 99 mem0 = (Returns false, mem0).
Proof.
  apply (proj1 (MemStorage_deleteEvent_absent 99 mem0)). vm_compute. reflexivity.
Defined.


(** ** Registrations in the two classes *)

Section Registrations.
Context {number : Type}.
Implicit Types (d : PgStorage.t number) (st : MemStorage.t number).

Lemma registers_iff (userId eventId : Z) (a : Attendee.t) :
  registers userId eventId a = true <-> registration a = (userId, eventId).
Proof.
  unfold registers, registration. rewrite andb_true_iff, !Z.eqb_eq. split.
  - now intros [-> ->].
  - now intros [= -> ->].
Qed.

Lemma ltb_length_existsb {A} (p : A -> bool) (l : list A) :
  Nat.ltb 0 (List.length (filter p l)) = existsb p l.
Proof.
  induction l as [|x l IH]; simpl; [reflexivity|]. destruct (p x); simpl; [reflexivity | exact IH].
Qed.

Lemma PgStorage_isUserAttending_existsb d (userId eventId : Z) :
  PgStorage.isUserAttending d userId eventId
  = existsb (registers userId eventId) (PgStorage.attendees d).
Proof. unfold PgStorage.isUserAttending, PgStorage.select_where. apply ltb_length_existsb. Qed.

Lemma filter_filter_implied {A} (p q : A -> bool) (l : list A) :
  (forall x, p x = true -> q x = true) -> filter p (filter q l) = filter p l.
Proof.
  intros I. induction l as [|x l IH]; simpl; [reflexivity|].
  destruct (q x) eqn:Q; simpl.
  - now rewrite IH.
  - destruct (p x) eqn:P; [|exact IH]. rewrite (I x P) in Q. discriminate.
Qed.

(** X6: [PgStorage.createAttendee] for a pair that is registered throws on a
    constraint and leaves the three tables as they were: the database never
    holds a second row for the pair. *)
Theorem PgStorage_createAttendee_registered (now userId eventId : Z) d :
  PgStorage.isUserAttending d userId eventId = true ->
  exists constraint d',
    PgStorage.createAttendee now (InsertAttendee.mk userId eventId) d
      = (Throws (ConstraintViolation constraint), d') /\
    same_tables d d'.
Proof.
  rewrite PgStorage_isUserAttending_existsb. intros A.
  unfold PgStorage.createAttendee, PgStorage.insert_attendee, PgStorage.nextval_attendees_id,
    bind, read, PgStorage.check, ret, throw. simpl.
  destruct (existsb (fun a => Z.eqb (Attendee.id a) (PgStorage.attendees_id_seq d))
              (PgStorage.attendees d)); simpl.
  - eexists. eexists. split; [reflexivity|]. repeat split.
  - unfold registers in A. rewrite A. simpl. eexists. eexists. split; [reflexivity|].
    repeat split.
Qed.

(** The rows [PgStorage.deleteAttendee] leaves. *)
Lemma PgStorage_deleteAttendee_rows (userId eventId : Z) d :
  PgStorage.deleteAttendee userId eventId d
  = (Returns (PgStorage.isUserAttending d userId eventId),
     PgStorage.mk (PgStorage.users d) (PgStorage.events d)
       (filter (fun a => negb (registers userId eventId a)) (PgStorage.attendees d))
       (PgStorage.users_id_seq d) (PgStorage.events_id_seq d)
       (PgStorage.attendees_id_seq d)).
Proof. reflexivity. Qed.

(** X7: [PgStorage.deleteAttendee] answers whether the pair was registered,
    deletes every row of the pair and nothing else, so that the pair is not
    registered afterwards and every other pair is as before. *)
Theorem PgStorage_deleteAttendee_spec (userId eventId : Z) d :
  exists d',
    PgStorage.deleteAttendee userId eventId d
      = (Returns (PgStorage.isUserAttending d userId eventId), d') /\
    PgStorage.users d' = PgStorage.users d /\
    PgStorage.events d' = PgStorage.events d /\
    PgStorage.attendees d'
      = filter (fun a => negb (registers userId eventId a)) (PgStorage.attendees d) /\
    PgStorage.isUserAttending d' userId eventId = false /\
    (forall userId' eventId',
        (userId', eventId') <> (userId, eventId) ->
        PgStorage.isUserAttending d' userId' eventId'
        = PgStorage.isUserAttending d userId' eventId').
Proof.
  eexists. split; [apply PgStorage_deleteAttendee_rows|]. simpl. repeat split.
  - unfold PgStorage.isUserAttending, PgStorage.select_where. simpl.
    now rewrite (filter_filter_negb (registers userId eventId)).
  - intros u' e' N. unfold PgStorage.isUserAttending, PgStorage.select_where. simpl.
    rewrite (filter_filter_implied (registers u' e')
               (fun a => negb (registers userId eventId a))); [reflexivity|].
    intros a R. apply negb_true_iff, not_true_is_false. intros R'.
    apply registers_iff in R, R'. congruence.
Qed.

Lemma keyed_values_filter {V} (key : V -> Z) (k : Z) (m : JsMap.t V) :
  keyed key m ->
  JsMap.values (snd (JsMap.delete k m))
  = filter (fun v => negb (Z.eqb (key v) k)) (JsMap.values m).
Proof.
  intros [_ F]. unfold JsMap.delete, JsMap.values. simpl.
  induction m as [|p m IH]; simpl; [reflexivity|].
  inversion F as [|? ? Hp F']; subst. rewrite Hp.
  destruct (Z.eqb (fst p) k); simpl; now rewrite IH.
Qed.

Lemma keyed_delete_length {V} (key : V -> Z) (k : Z) (m : JsMap.t V) :
  keyed key m -> JsMap.has k m = true ->
  S (List.length (snd (JsMap.delete k m))) = List.length m.
Proof.
  intros [ND _]. unfold JsMap.has, JsMap.delete. simpl.
  induction m as [|p m IH]; simpl; [discriminate|].
  inversion ND as [|? ? Hn ND']; subst.
  destruct (Z.eqb_spec (fst p) k) as [E|N]; simpl.
  - intros _. f_equal. rewrite filter_id; [reflexivity|].
    rewrite Forall_forall. intros q Hq. apply negb_true_iff, Z.eqb_neq. intros C.
    apply Hn. rewrite E, <- C. now apply in_map.
  - intros Hh. f_equal. now apply IH.
Qed.

(** [MemStorage.deleteAttendee] when [find] comes upon a row. *)
Lemma MemStorage_deleteAttendee_first_row (userId eventId : Z) (a : Attendee.t) st :
  keyed Attendee.id (MemStorage.attendees st) ->
  Array_find (registers userId eventId) (JsMap.values (MemStorage.attendees st)) = Some a ->
  MemStorage.deleteAttendee userId eventId st
  = (Returns true,
     MemStorage.mk (MemStorage.users st) (MemStorage.events st)
       (snd (JsMap.delete (Attendee.id a) (MemStorage.attendees st)))
       (MemStorage.userId st) (MemStorage.eventId st) (MemStorage.attendeeId st)) /\
  JsMap.has (Attendee.id a) (MemStorage.attendees st) = true /\
  MemStorage.isUserAttending st userId eventId = true.
Proof.
  intros K F. unfold MemStorage.deleteAttendee, MemStorage.isUserAttending.
  fold (registers userId eventId). rewrite F.
  unfold Array_find in F. pose proof (find_some _ _ F) as [Hin Ra].
  assert (Hh : JsMap.has (Attendee.id a) (MemStorage.attendees st) = true).
  { apply get_has with a. now apply JsMapFacts.get_value. }
  split; [|split; [exact Hh|]].
  - unfold JsMap.delete at 1. now rewrite Hh.
  - apply existsb_exists. now exists a.
Qed.

(** X8: [MemStorage.deleteAttendee] answers whether the pair was registered
    and then removes one row, the first of the pair, and no other; when the
    pair was not registered it changes nothing. *)
Theorem MemStorage_deleteAttendee_spec (userId eventId : Z) st :
  keyed Attendee.id (MemStorage.attendees st) ->
  exists st',
    MemStorage.deleteAttendee userId eventId st
      = (Returns (MemStorage.isUserAttending st userId eventId), st') /\
    MemStorage.users st' = MemStorage.users st /\
    MemStorage.events st' = MemStorage.events st /\
    (MemStorage.isUserAttending st userId eventId = false -> st' = st) /\
    (MemStorage.isUserAttending st userId eventId = true ->
     exists a,
       Array_find (registers userId eventId) (JsMap.values (MemStorage.attendees st)) = Some a /\
       JsMap.values (MemStorage.attendees st')
         = filter (fun x => negb (Z.eqb (Attendee.id x) (Attendee.id a)))
             (JsMap.values (MemStorage.attendees st)) /\
       S (List.length (MemStorage.attendees st')) = List.length (MemStorage.attendees st)).
Proof.
  intros K.
  destruct (Array_find (registers userId eventId) (JsMap.values (MemStorage.attendees st)))
    as [a|] eqn:F.
  - destruct (MemStorage_deleteAttendee_first_row userId eventId st K F) as [E [Hh A]].
    rewrite E, A. eexists. split; [reflexivity|]. simpl. repeat split; try discriminate.
    intros _. exists a. split; [reflexivity|]. split.
    + apply (keyed_values_filter (Attendee.id a) K).
    + apply (keyed_delete_length (Attendee.id a) K Hh).
  - assert (Ex : MemStorage.isUserAttending st userId eventId = false).
    { apply not_true_is_false. intros C.
      unfold MemStorage.isUserAttending in C. fold (registers userId eventId) in C.
      apply existsb_exists in C. destruct C as [x [Hx Rx]]. unfold Array_find in F.
      rewrite (find_none _ _ F x Hx) in Rx. discriminate Rx. }
    rewrite Ex. exists st. unfold MemStorage.deleteAttendee.
    fold (registers userId eventId). rewrite F. repeat split; discriminate.
Qed.

End Registrations.

Section RegisteringTwice.
Context {number : Type} `{JSNumber number}.

(** X9: [MemStorage.createAttendee] does not look for an earlier row of the
    pair: in a store a [MemStorage] object goes through, registering a pair
    that is registered adds a second row, and cancelling once afterwards
    leaves the pair registered. *)
Theorem MemStorage_register_twice_cancel_once (now userId eventId : Z)
    (st : MemStorage.t number) :
  reachable st ->
  MemStorage.isUserAttending st userId eventId = true ->
  let st1 := snd (MemStorage.createAttendee now (InsertAttendee.mk userId eventId) st) in
  let st2 := snd (MemStorage.deleteAttendee userId eventId st1) in
  JsMap.values (MemStorage.attendees st1)
    = JsMap.values (MemStorage.attendees st)
      ++ [Attendee.mk (MemStorage.attendeeId st) userId eventId now] /\
  MemStorage.isUserAttending st2 userId eventId = true.
Proof.
  intros R A st1 st2.
  destruct (reachable_mem_invariant R) as [_ [_ [_ [_ [Ka Ba]]]]].
  assert (V1 : JsMap.values (MemStorage.attendees st1)
               = JsMap.values (MemStorage.attendees st)
                 ++ [Attendee.mk (MemStorage.attendeeId st) userId eventId now]).
  { unfold st1. simpl. rewrite (set_fresh _ Ba), values_app. reflexivity. }
  split; [exact V1|].
  assert (R1 : reachable st1) by (unfold st1; now apply reach_createAttendee).
  destruct (reachable_mem_invariant R1) as [_ [_ [_ [_ [Ka1 _]]]]].
  assert (A1 : MemStorage.isUserAttending st1 userId eventId = true).
  { unfold MemStorage.isUserAttending. rewrite V1, existsb_app.
    unfold MemStorage.isUserAttending in A. now rewrite A. }
  destruct (Array_find (registers userId eventId) (JsMap.values (MemStorage.attendees st1)))
    as [a|] eqn:F.
  2:{ unfold MemStorage.isUserAttending in A1. fold (registers userId eventId) in A1.
      apply existsb_exists in A1. destruct A1 as [x [Hx Rx]]. unfold Array_find in F.
      rewrite (find_none _ _ F x Hx) in Rx. discriminate Rx. }
  destruct (MemStorage_deleteAttendee_first_row userId eventId st1 Ka1 F) as [E _].
  unfold st2. rewrite E. unfold MemStorage.isUserAttending.
  cbn [snd MemStorage.attendees]. rewrite (keyed_values_filter (Attendee.id a) Ka1).
  fold (registers userId eventId). apply existsb_exists.
  exists (Attendee.mk (MemStorage.attendeeId st) userId eventId now). split.
  - apply filter_In. split; [rewrite V1; apply in_or_app; right; now left|].
    simpl. apply negb_true_iff, Z.eqb_neq.
    (* the row found first is an earlier one: its id is below the counter *)
    unfold Array_find in F. rewrite V1, find_app_or in F.
    unfold MemStorage.isUserAttending in A. fold (registers userId eventId) in A.
    destruct (find (registers userId eventId) (JsMap.values (MemStorage.attendees st)))
      as [a0|] eqn:F0.
    + injection F as <-. apply find_some in F0. destruct F0 as [Hin _].
      apply in_map_iff in Hin. destruct Hin as [q [Eq Hq]].
      destruct Ka as [_ Fk]. unfold below in Ba. rewrite Forall_forall in Fk, Ba.
      specialize (Fk q Hq). specialize (Ba q Hq). rewrite Eq in Fk. simpl in Ba.
      clear - Fk Ba. lia.
    + apply existsb_exists in A. destruct A as [x [Hx Rx]].
      rewrite (find_none _ _ F0 x Hx) in Rx. discriminate Rx.
  - unfold registers. simpl. now rewrite !Z.eqb_refl.
Qed.

End RegisteringTwice.

(** On the sample database: "johndoe" is registered for event 3. *)
Lemma PgStorage_createAttendee_registered_on_the_sample_database :
  exists constraint d',
    PgStorage.createAttendee 7 (InsertAttendee.mk 1 3) pg0
      = (Throws (ConstraintViolation constraint), d') /\
    same_tables pg0 d'.
Proof.
  apply (PgStorage_createAttendee_registered 7 1 3 pg0). vm_compute. reflexivity.
Defined.

(** On the sample store: "johndoe" cancels the registration for event 3. *)
Lemma MemStorage_deleteAttendee_on_the_sample_store :
  exists st',
    MemStorage.deleteAttendee 1 3 mem0 = (Returns true, st') /\
    S (List.length (MemStorage.attendees st')) = List.length (MemStorage.attendees mem0).
Proof.
  assert (K : keyed Attendee.id (MemStorage.attendees mem0)).
  { now destruct (reachable_mem_invariant mem0_reachable) as [_ [_ [_ [_ [K _]]]]]. }
  destruct (MemStorage_deleteAttendee_spec 1 3 mem0 K) as [st' [E [_ [_ [_ D]]]]].
  assert (A : MemStorage.isUserAttending mem0 1 3 = true) by (vm_compute; reflexivity).
  destruct (D A) as [a [_ [_ L]]]. exists st'. rewrite E, A. split; [reflexivity | exact L].
Defined.

(** On the sample store: "johndoe" registers for event 3 once more, then
    cancels. *)
Lemma MemStorage_register_twice_on_the_sample_store :
  MemStorage.isUserAttending
    (snd (MemStorage.deleteAttendee 1 3
            (snd (MemStorage.createAttendee 7 (InsertAttendee.mk 1 3) mem0))))
    1 3 = true.
Proof.
  assert (A : MemStorage.isUserAttending mem0 1 3 = true) by (vm_compute; reflexivity).
  exact (proj2 (MemStorage_register_twice_cancel_once 7 1 3 mem0_reachable A)).
Defined.

(** ** The constraints of the database *)

Section PgConstraints.
Context {number : Type}.
Implicit Types (d : PgStorage.t number).

Lemma NoDup_map_snoc {A B} (f : A -> B) (l : list A) (x : A) :
  NoDup (map f l) -> ~ In (f x) (map f l) -> NoDup (map f (l ++ [x])).
Proof.
  intros ND N. rewrite map_app. simpl.
  apply (Permutation_NoDup (Permutation_cons_append _ _)). now constructor.
Qed.

(** Deleting rows keeps a column unique. *)
Lemma NoDup_map_filter {Row K} (key : Row -> K) (keep : Row -> bool) (rows : list Row) :
  NoDup (map key rows) -> NoDup (map key (filter keep rows)).
Proof.
  intros ND. induction rows as [|row rows IH]; simpl; [constructor|].
  simpl in ND. apply NoDup_cons_iff in ND. destruct ND as [Hn ND].
  destruct (keep row); simpl; [|now apply IH].
  constructor; [|now apply IH]. intros C. apply Hn.
  apply in_map_iff in C. destruct C as [y [E Hy]]. apply filter_In in Hy.
  rewrite <- E. apply in_map. tauto.
Qed.

Lemma existsb_Z_In {A} (f : A -> Z) (k : Z) (l : list A) :
  existsb (fun x => Z.eqb (f x) k) l = true <-> In k (map f l).
Proof.
  rewrite existsb_exists, in_map_iff. split; intros [x [P Q]]; exists x.
  - apply Z.eqb_eq in Q. tauto.
  - split; [assumption|]. now apply Z.eqb_eq.
Qed.

Lemma existsb_string_In {A} (f : A -> string) (k : string) (l : list A) :
  existsb (fun x => String.eqb (f x) k) l = true <-> In k (map f l).
Proof.
  rewrite existsb_exists, in_map_iff. split; intros [x [P Q]]; exists x.
  - apply String.eqb_eq in Q. tauto.
  - split; [assumption|]. now apply String.eqb_eq.
Qed.

Lemma existsb_registers_In (userId eventId : Z) (l : list Attendee.t) :
  existsb (registers userId eventId) l = true <-> In (userId, eventId) (map registration l).
Proof.
  rewrite existsb_exists, in_map_iff. split; intros [x [P Q]]; exists x.
  - apply registers_iff in Q. tauto.
  - split; [assumption|]. now apply registers_iff.
Qed.

Ltac fresh_key :=
  let C := fresh "C" in
  intros C;
  first [apply existsb_Z_In in C | apply existsb_string_In in C
        | apply existsb_registers_In in C];
  unfold user_of_payload, event_of_payload in C; simpl in C; congruence.

(** The constraints are a property of the tables. *)
Lemma pg_integrity_same_tables d d' : same_tables d d' -> pg_integrity d -> pg_integrity d'.
Proof.
  intros [U [E A]] [].
  constructor; rewrite ?U, ?E, ?A; assumption.
Qed.

(** *** [INSERT INTO users] *)

Lemma PgStorage_createUser_cases (now : Z) (u : InsertUser.t) d :
  let id := PgStorage.users_id_seq d in
  let row := user_of_payload id now u in
  (existsb (fun x => Z.eqb (User.id x) id) (PgStorage.users d)
   || existsb (fun x => String.eqb (User.username x) (InsertUser.username u)) (PgStorage.users d)
   || existsb (fun x => String.eqb (User.email x) (InsertUser.email u)) (PgStorage.users d)
   = false /\
   PgStorage.createUser now u d
   = (Returns (Some row),
      PgStorage.mk (PgStorage.users d ++ [row]) (PgStorage.events d) (PgStorage.attendees d)
        (id + 1) (PgStorage.events_id_seq d) (PgStorage.attendees_id_seq d))) \/
  (existsb (fun x => Z.eqb (User.id x) id) (PgStorage.users d)
   || existsb (fun x => String.eqb (User.username x) (InsertUser.username u)) (PgStorage.users d)
   || existsb (fun x => String.eqb (User.email x) (InsertUser.email u)) (PgStorage.users d)
   = true /\
   exists constraint,
     PgStorage.createUser now u d
     = (Throws (ConstraintViolation constraint),
        PgStorage.mk (PgStorage.users d) (PgStorage.events d) (PgStorage.attendees d)
          (id + 1) (PgStorage.events_id_seq d) (PgStorage.attendees_id_seq d))).
Proof.
  intros id row.
  unfold PgStorage.createUser, PgStorage.insert_user, PgStorage.nextval_users_id,
    bind, read, PgStorage.check, ret, throw. simpl. fold id.
  destruct (existsb (fun x => Z.eqb (User.id x) id) (PgStorage.users d)); simpl;
    [right; split; [reflexivity | eexists; reflexivity]|].
  destruct (existsb (fun x => String.eqb (User.username x) (InsertUser.username u))
              (PgStorage.users d)); simpl;
    [right; split; [reflexivity | eexists; reflexivity]|].
  destruct (existsb (fun x => String.eqb (User.email x) (InsertUser.email u))
              (PgStorage.users d)); simpl;
    [right; split; [reflexivity | eexists; reflexivity]|].
  left. split; reflexivity.
Qed.

(** *** [INSERT INTO events] *)

Lemma PgStorage_createEvent_cases (now : Z) (p : InsertEvent.t number) d :
  let id := PgStorage.events_id_seq d in
  let row := event_of_payload id now p in
  (existsb (fun x => Z.eqb (Event.id x) id) (PgStorage.events d) = false /\
   existsb (fun x => Z.eqb (User.id x) (InsertEvent.hostId p)) (PgStorage.users d) = true /\
   PgStorage.createEvent now p d
   = (Returns (Some row),
      PgStorage.mk (PgStorage.users d) (PgStorage.events d ++ [row]) (PgStorage.attendees d)
        (PgStorage.users_id_seq d) (id + 1) (PgStorage.attendees_id_seq d))) \/
  ((existsb (fun x => Z.eqb (Event.id x) id) (PgStorage.events d) = true \/
    existsb (fun x => Z.eqb (User.id x) (InsertEvent.hostId p)) (PgStorage.users d) = false) /\
   exists constraint,
     PgStorage.createEvent now p d
     = (Throws (ConstraintViolation constraint),
        PgStorage.mk (PgStorage.users d) (PgStorage.events d) (PgStorage.attendees d)
          (PgStorage.users_id_seq d) (id + 1) (PgStorage.attendees_id_seq d))).
Proof.
  intros id row.
  unfold PgStorage.createEvent, PgStorage.insert_event, PgStorage.nextval_events_id,
    bind, read, PgStorage.check, ret, throw. simpl. fold id.
  destruct (existsb (fun x => Z.eqb (Event.id x) id) (PgStorage.events d)); simpl;
    [right; split; [now left | eexists; reflexivity]|].
  destruct (existsb (fun x => Z.eqb (User.id x) (InsertEvent.hostId p)) (PgStorage.users d));
    simpl; [|right; split; [now right | eexists; reflexivity]].
  left. repeat split.
Qed.

(** *** [INSERT INTO attendees] *)

Lemma PgStorage_createAttendee_cases (now userId eventId : Z) d :
  let id := PgStorage.attendees_id_seq d in
  let row := Attendee.mk id userId eventId now in
  (existsb (fun x => Z.eqb (Attendee.id x) id) (PgStorage.attendees d) = false /\
   existsb (registers userId eventId) (PgStorage.attendees d) = false /\
   existsb (fun x => Z.eqb (User.id x) userId) (PgStorage.users d) = true /\
   existsb (fun x => Z.eqb (Event.id x) eventId) (PgStorage.events d) = true /\
   PgStorage.createAttendee now (InsertAttendee.mk userId eventId) d
   = (Returns (Some row),
      PgStorage.mk (PgStorage.users d) (PgStorage.events d) (PgStorage.attendees d ++ [row])
        (PgStorage.users_id_seq d) (PgStorage.events_id_seq d) (id + 1))) \/
  ((existsb (fun x => Z.eqb (Attendee.id x) id) (PgStorage.attendees d) = true \/
    existsb (registers userId eventId) (PgStorage.attendees d) = true \/
    existsb (fun x => Z.eqb (User.id x) userId) (PgStorage.users d) = false \/
    existsb (fun x => Z.eqb (Event.id x) eventId) (PgStorage.events d) = false) /\
   exists constraint,
     PgStorage.createAttendee now (InsertAttendee.mk userId eventId) d
     = (Throws (ConstraintViolation constraint),
        PgStorage.mk (PgStorage.users d) (PgStorage.events d) (PgStorage.attendees d)
          (PgStorage.users_id_seq d) (PgStorage.events_id_seq d) (id + 1))).
Proof.
  intros id row.
  unfold PgStorage.createAttendee, PgStorage.insert_attendee, PgStorage.nextval_attendees_id,
    bind, read, PgStorage.check, ret, throw. simpl. fold id. fold (registers userId eventId).
  destruct (existsb (fun x => Z.eqb (Attendee.id x) id) (PgStorage.attendees d)); simpl;
    [right; split; [now left | eexists; reflexivity]|].
  destruct (existsb (registers userId eventId) (PgStorage.attendees d)); simpl;
    [right; split; [now right; left | eexists; reflexivity]|].
  destruct (existsb (fun x => Z.eqb (User.id x) userId) (PgStorage.users d)); simpl;
    [|right; split; [now right; right; left | eexists; reflexivity]].
  destruct (existsb (fun x => Z.eqb (Event.id x) eventId) (PgStorage.events d)); simpl;
    [|right; split; [now right; right; right | eexists; reflexivity]].
  left. repeat split.
Qed.

(** *** The invariant *)

Lemma Forall_below_next {A} (key : A -> Z) (next : Z) (l : list A) :
  Forall (fun x => 0 < key x < next) l -> Forall (fun x => 0 < key x < next + 1) l.
Proof. apply Forall_impl. intros x. lia. Qed.

Lemma Forall_below_fresh {A} (key : A -> Z) (next : Z) (l : list A) :
  Forall (fun x => 0 < key x < next) l -> ~ In next (map key l).
Proof.
  intros F C. apply in_map_iff in C. destruct C as [x [E Hx]].
  rewrite Forall_forall in F. specialize (F x Hx). lia.
Qed.

Lemma migrated_invariant : pg_integrity (@PgStorage.migrated number) /\
                           pg_sequences (@PgStorage.migrated number).
Proof.
  split.
  - constructor; simpl; try constructor; tauto.
  - unfold pg_sequences. simpl. repeat split; try lia; constructor.
Qed.

Lemma createUser_invariant (now : Z) (u : InsertUser.t) d :
  pg_integrity d /\ pg_sequences d ->
  pg_integrity (snd (PgStorage.createUser now u d)) /\
  pg_sequences (snd (PgStorage.createUser now u d)).
Proof.
  intros [I [Su [Se [Sa [Fu [Fe Fa]]]]]].
  destruct (PgStorage_createUser_cases now u d) as [[C ->] | [_ [c ->]]]; simpl.
  - apply orb_false_iff in C. destruct C as [C Ce].
    apply orb_false_iff in C. destruct C as [Ci Cn].
    split.
    + destruct I as [Pu Pn Pe Pv Pa Pr Kh Ku Ke]. constructor; simpl; try assumption.
      * apply NoDup_map_snoc; [assumption|].
        fresh_key.
      * apply NoDup_map_snoc; [assumption|].
        fresh_key.
      * apply NoDup_map_snoc; [assumption|].
        fresh_key.
      * intros e He. rewrite map_app. apply in_or_app. left. auto.
      * intros a Ha. rewrite map_app. apply in_or_app. left. auto.
    + unfold pg_sequences. simpl. repeat split; try lia; try assumption.
      apply Forall_app. split; [now apply Forall_below_next|].
      repeat constructor; simpl; lia.
  - split.
    + apply (pg_integrity_same_tables (d := d)); [repeat split | assumption].
    + unfold pg_sequences. simpl. repeat split; try lia; try assumption.
      now apply Forall_below_next.
Qed.

Lemma createEvent_invariant (now : Z) (p : InsertEvent.t number) d :
  pg_integrity d /\ pg_sequences d ->
  pg_integrity (snd (PgStorage.createEvent now p d)) /\
  pg_sequences (snd (PgStorage.createEvent now p d)).
Proof.
  intros [I [Su [Se [Sa [Fu [Fe Fa]]]]]].
  destruct (PgStorage_createEvent_cases now p d) as [[Ci [Ch ->]] | [_ [c ->]]]; simpl.
  - split.
    + destruct I as [Pu Pn Pe Pv Pa Pr Kh Ku Ke]. constructor; simpl; try assumption.
      * apply NoDup_map_snoc; [assumption|].
        fresh_key.
      * intros e He. apply in_app_or in He. destruct He as [He | [<- | []]]; [auto|].
        simpl. now apply existsb_Z_In.
      * intros a Ha. rewrite map_app. apply in_or_app. left. auto.
    + unfold pg_sequences. simpl. repeat split; try lia; try assumption.
      apply Forall_app. split; [now apply Forall_below_next|].
      repeat constructor; simpl; lia.
  - split.
    + apply (pg_integrity_same_tables (d := d)); [repeat split | assumption].
    + unfold pg_sequences. simpl. repeat split; try lia; try assumption.
      now apply Forall_below_next.
Qed.

Lemma createAttendee_invariant (now : Z) (a : InsertAttendee.t) d :
  pg_integrity d /\ pg_sequences d ->
  pg_integrity (snd (PgStorage.createAttendee now a d)) /\
  pg_sequences (snd (PgStorage.createAttendee now a d)).
Proof.
  intros [I [Su [Se [Sa [Fu [Fe Fa]]]]]]. destruct a as [userId eventId].
  destruct (PgStorage_createAttendee_cases now userId eventId d)
    as [[Ci [Cr [Cu [Ce ->]]]] | [_ [c ->]]]; simpl.
  - split.
    + destruct I as [Pu Pn Pe Pv Pa Pr Kh Ku Ke]. constructor; simpl; try assumption.
      * apply NoDup_map_snoc; [assumption|].
        fresh_key.
      * apply NoDup_map_snoc; [assumption|].
        fresh_key.
      * intros x Hx. apply in_app_or in Hx. destruct Hx as [Hx | [<- | []]]; [auto|].
        simpl. now apply existsb_Z_In.
      * intros x Hx. apply in_app_or in Hx. destruct Hx as [Hx | [<- | []]]; [auto|].
        simpl. now apply existsb_Z_In.
    + unfold pg_sequences. simpl. repeat split; try lia; try assumption.
      apply Forall_app. split; [now apply Forall_below_next|].
      repeat constructor; simpl; lia.
  - split.
    + apply (pg_integrity_same_tables (d := d)); [repeat split | assumption].
    + unfold pg_sequences. simpl. repeat split; try lia; try assumption.
      now apply Forall_below_next.
Qed.

Lemma Forall_filter {A} (P : A -> Prop) (p : A -> bool) (l : list A) :
  Forall P l -> Forall P (filter p l).
Proof.
  rewrite !Forall_forall. intros F x Hx. apply filter_In in Hx. now apply F.
Qed.

Lemma deleteAttendee_invariant (userId eventId : Z) d :
  pg_integrity d /\ pg_sequences d ->
  pg_integrity (snd (PgStorage.deleteAttendee userId eventId d)) /\
  pg_sequences (snd (PgStorage.deleteAttendee userId eventId d)).
Proof.
  intros [I [Su [Se [Sa [Fu [Fe Fa]]]]]]. simpl. split.
  - destruct I as [Pu Pn Pe Pv Pa Pr Kh Ku Ke]. constructor; simpl; try assumption.
    + now apply NoDup_map_filter.
    + now apply NoDup_map_filter.
    + intros x Hx. apply filter_In in Hx. now apply Ku.
    + intros x Hx. apply filter_In in Hx. now apply Ke.
  - unfold pg_sequences. simpl. repeat split; try lia; try assumption.
    now apply Forall_filter.
Qed.

(** [deleteEvent] draws no id. *)
Lemma deleteEvent_sequences (id : Z) d :
  PgStorage.users_id_seq (snd (PgStorage.deleteEvent id d)) = PgStorage.users_id_seq d /\
  PgStorage.events_id_seq (snd (PgStorage.deleteEvent id d)) = PgStorage.events_id_seq d /\
  PgStorage.attendees_id_seq (snd (PgStorage.deleteEvent id d))
  = PgStorage.attendees_id_seq d.
Proof. repeat split. Qed.

Lemma deleteEvent_invariant (id : Z) d :
  pg_integrity d /\ pg_sequences d ->
  pg_integrity (snd (PgStorage.deleteEvent id d)) /\
  pg_sequences (snd (PgStorage.deleteEvent id d)).
Proof.
  intros [I [Su [Se [Sa [Fu [Fe Fa]]]]]].
  pose proof (PgStorageFacts.deleteEvent_spec id d) as S.
  pose proof (deleteEvent_sequences id d) as Q.
  destruct (PgStorage.deleteEvent id d) as [r d']. destruct S as [_ [Ev [At Us]]].
  simpl in *. destruct Q as [Q1 [Q2 Q3]]. split.
  - destruct I as [Pu Pn Pe Pv Pa Pr Kh Ku Ke]. constructor; rewrite ?Ev, ?At, ?Us; try assumption.
    + now apply NoDup_map_filter.
    + now apply NoDup_map_filter.
    + now apply NoDup_map_filter.
    + intros e He. apply filter_In in He. now apply Kh.
    + intros x Hx. apply filter_In in Hx. now apply Ku.
    + intros x Hx. apply filter_In in Hx. destruct Hx as [Hx N].
      apply negb_true_iff, Z.eqb_neq in N.
      specialize (Ke x Hx).
      apply in_map_iff in Ke.
      destruct Ke as [e [E He]].
      apply in_map_iff. exists e. split; [assumption|].
      apply filter_In. split; [assumption|]. apply negb_true_iff, Z.eqb_neq. congruence.
  - unfold pg_sequences. rewrite Q1, Q2, Q3, Ev, At, Us.
    repeat split; try assumption; now apply Forall_filter.
Qed.

(** The constraints and the bounds hold in every database the methods lead
    to. *)
Lemma pg_reachable_invariant d :
  pg_reachable d -> pg_integrity d /\ pg_sequences d.
Proof.
  induction 1 as [| now u d _ IH | now p d _ IH | id d _ IH | now a d _ IH | uid eid d _ IH].
  - apply migrated_invariant.
  - now apply createUser_invariant.
  - now apply createEvent_invariant.
  - now apply deleteEvent_invariant.
  - now apply createAttendee_invariant.
  - now apply deleteAttendee_invariant.
Qed.

(** X10: in every database the methods lead to from a migrated one the
    constraints of the migration hold (primary keys, unique usernames and
    e-mail addresses, one row for a user and an event, the three foreign
    keys), and the ids are positive and below the next values of the
    sequences. *)
Theorem PgStorage_reachable_integrity d :
  pg_reachable d -> pg_integrity d /\ pg_sequences d.
Proof.
  induction 1 as [| now u d _ IH | now p d _ IH | id d _ IH | now a d _ IH | uid eid d _ IH].
  - apply migrated_invariant.
  - now apply createUser_invariant.
  - now apply createEvent_invariant.
  - now apply deleteEvent_invariant.
  - now apply createAttendee_invariant.
  - now apply deleteAttendee_invariant.
Qed.

(** a sequence of calls leads from such a database to such a database *)
Lemma pg_reachable_then {A B} (m : Async (PgStorage.t number) A)
    (k : Async (PgStorage.t number) B) d :
  (forall d0, pg_reachable d0 -> pg_reachable (snd (m d0))) ->
  (forall d0, pg_reachable d0 -> pg_reachable (snd (k d0))) ->
  pg_reachable d -> pg_reachable (snd ((m ;;; k) d)).
Proof.
  intros Hm Hk R. unfold bind. specialize (Hm d R).
  destruct (m d) as [[a|e] d']; simpl in *; [now apply Hk | assumption].
Qed.

End PgConstraints.

(** ** [PgStorage] under the constraints *)

Ltac pg_steps :=
  lazymatch goal with
  | |- pg_reachable (snd (bind _ _ _)) =>
    apply pg_reachable_then; [intros ? ?; pg_steps | intros ? ?; pg_steps | assumption]
  | |- pg_reachable (snd (PgStorage.createUser _ _ _)) =>
    apply pg_reach_createUser; assumption
  | |- pg_reachable (snd (PgStorage.createEvent _ _ _)) =>
    apply pg_reach_createEvent; assumption
  | |- pg_reachable (snd (PgStorage.createAttendee _ _ _)) =>
    apply pg_reach_createAttendee; assumption
  end.

(** the sample database is one the methods lead to *)
Lemma pg_sample_reachable {number} `{JSNumber number} (now : Z) :
  pg_reachable (pg_sample (number := number) now).
Proof.
  pose proof (@pg_reach_migrated number) as M. unfold pg_sample. pg_steps.
Qed.

Lemma pg0_reachable : pg_reachable pg0.
Proof. apply pg_sample_reachable. Qed.

(** On the sample database. *)
Lemma PgStorage_reachable_integrity_on_the_sample_database :
  pg_integrity pg0 /\ pg_sequences pg0.
Proof. exact (PgStorage_reachable_integrity pg0_reachable). Defined.

Section PgUnderConstraints.
Context {number : Type}.
Implicit Types (d : PgStorage.t number).

Lemma select_users_by_id d (k : Z) :
  In k (map User.id (PgStorage.users d)) ->
  exists u rest,
    PgStorage.select_where (PgStorage.users d) (fun x => Z.eqb (User.id x) k) = u :: rest /\
    In u (PgStorage.users d) /\ User.id u = k.
Proof.
  intros Hin. apply in_map_iff in Hin. destruct Hin as [u0 [E0 H0]].
  assert (F0 : In u0 (PgStorage.select_where (PgStorage.users d)
                        (fun x => Z.eqb (User.id x) k))).
  { apply filter_In. split; [assumption | now apply Z.eqb_eq]. }
  destruct (PgStorage.select_where (PgStorage.users d) (fun x => Z.eqb (User.id x) k))
    as [|u rest] eqn:S; [destruct F0|].
  exists u, rest. split; [reflexivity|].
  assert (Fu : In u (PgStorage.select_where (PgStorage.users d)
                       (fun x => Z.eqb (User.id x) k))) by (rewrite S; now left).
  apply filter_In in Fu. destruct Fu as [Hu Eu]. apply Z.eqb_eq in Eu. tauto.
Qed.

Lemma resolved_attendees_length (getUser : Z -> option User.t) (rows : list Attendee.t) :
  (forall a, In a rows -> getUser (Attendee.userId a) <> None) ->
  List.length (resolved_attendees getUser rows) = List.length rows.
Proof.
  unfold resolved_attendees. induction rows as [|a rows IH]; simpl; [reflexivity|].
  intros F. destruct (getUser (Attendee.userId a)) eqn:G.
  - simpl. f_equal. apply IH. intros b Hb. apply F. now right.
  - exfalso. apply (F a); [now left | assumption].
Qed.

Lemma listed_is_withDetails d (x : EventWithAttendees.t number) :
  In x (PgStorage.getAllEvents d) \/
  (exists categoryId, In x (PgStorage.getEventsByCategory d categoryId)) \/
  (exists query, In x (PgStorage.searchEvents d query)) ->
  exists e, In e (PgStorage.events d) /\ x = PgStorage.withDetails d e.
Proof.
  assert (M : forall l, (forall e, In e l -> In e (PgStorage.events d)) ->
                        In x (map (PgStorage.withDetails d) l) ->
                        exists e, In e (PgStorage.events d) /\ x = PgStorage.withDetails d e).
  { intros l Sub Hin. apply in_map_iff in Hin. destruct Hin as [e [E He]].
    exists e. split; [now apply Sub | now symmetry]. }
  intros [A | [[c C] | [q S]]].
  - apply (M (PgStorage.events d)); [auto | exact A].
  - unfold PgStorage.getEventsByCategory in C.
    destruct (String.eqb c "All").
    + apply (M (PgStorage.events d)); [auto | exact C].
    + apply (M _ (fun e He => proj1 (proj1 (filter_In _ _ _) He)) C).
  - apply (M _ (fun e He => proj1 (proj1 (filter_In _ _ _) He)) S).
Qed.

(** X11: in a database the methods lead to, an entry of one of the three
    listings is what [getEvent] returns for the id of its event; its host is
    the summary of the user who hosts the event, never the placeholder for an
    unknown host; and its number of attendees is the number of attendee rows
    of the event. *)
Theorem PgStorage_listed_event_details d (x : EventWithAttendees.t number) :
  pg_reachable d ->
  In x (PgStorage.getAllEvents d) \/
  (exists categoryId, In x (PgStorage.getEventsByCategory d categoryId)) \/
  (exists query, In x (PgStorage.searchEvents d query)) ->
  PgStorage.getEvent d (Event.id (EventWithAttendees.event x)) = Some x /\
  (exists host,
      PgStorage.getUser d (Event.hostId (EventWithAttendees.event x)) = Some host /\
      EventWithAttendees.host x = Summary.of_user host) /\
  EventWithAttendees.host x <> Summary.unknown /\
  EventWithAttendees.attendees x
  = List.length (PgStorage.getEventAttendees d (Event.id (EventWithAttendees.event x))).
Proof.
  intros R L. destruct (pg_reachable_invariant R) as [I Q].
  destruct (listed_is_withDetails d x L) as [e [He ->]].
  destruct I as [Pu Pn Pe Pv Pa Pr Kh Ku Ke].
  destruct (select_users_by_id d _ (Kh e He)) as [host [rest [Sh [Hh Eh]]]].
  assert (W : PgStorage.withDetails d e
              = EventWithAttendees.mk e
                  (List.length (PgStorage.getFormattedAttendees d (Event.id e)))
                  (PgStorage.getFormattedAttendees d (Event.id e)) (Summary.of_user host)).
  { unfold PgStorage.withDetails. now rewrite Sh. }
  rewrite W. simpl. split; [|split; [|split]].
  - unfold PgStorage.getEvent. rewrite (PgStorageFacts.select_by_id d e Pv He).
    now rewrite Sh.
  - exists host. split; [|reflexivity]. unfold PgStorage.getUser. now rewrite Sh.
  - intros C. injection C as C _ _.
    destruct Q as [_ [_ [_ [Fu _]]]]. rewrite Forall_forall in Fu.
    specialize (Fu host Hh). lia.
  - rewrite PgStorage_getFormattedAttendees_eq. apply resolved_attendees_length.
    intros a Ha. apply filter_In in Ha. destruct Ha as [Ha _].
    destruct (select_users_by_id d _ (Ku a Ha)) as [u [rest' [Su _]]].
    unfold PgStorage.getUser. now rewrite Su.
Qed.

(** [INSERT INTO users] with a username and an e-mail address that are
    free. *)
Lemma PgStorage_createUser_free (now : Z) (u : InsertUser.t) d :
  pg_sequences d ->
  ~ In (InsertUser.username u) (map User.username (PgStorage.users d)) ->
  ~ In (InsertUser.email u) (map User.email (PgStorage.users d)) ->
  let row := user_of_payload (PgStorage.users_id_seq d) now u in
  exists d',
    PgStorage.createUser now u d = (Returns (Some row), d') /\
    PgStorage.users d' = PgStorage.users d ++ [row] /\
    PgStorage.events d' = PgStorage.events d /\
    PgStorage.attendees d' = PgStorage.attendees d /\
    PgStorage.getUser d' (User.id row) = Some row /\
    PgStorage.getUserByUsername d' (InsertUser.username u) = Some row.
Proof.
  intros [_ [_ [_ [Fu _]]]] Nn Ne row.
  pose proof (Forall_below_fresh _ Fu) as Fresh.
  destruct (PgStorage_createUser_cases now u d) as [[C E] | [C _]].
  - apply orb_false_iff in C. destruct C as [C Ce].
    apply orb_false_iff in C. destruct C as [Ci Cn].
    eexists. split; [exact E|]. simpl. repeat split.
    + unfold PgStorage.getUser. simpl. rewrite select_where_app.
      rewrite (select_where_nil (PgStorage.users d)).
      * simpl. now rewrite Z.eqb_refl.
      * intros x Hx. apply Z.eqb_neq. intros Ex. apply Fresh.
        rewrite <- Ex. now apply in_map.
    + unfold PgStorage.getUserByUsername. simpl. rewrite select_where_app.
      rewrite (select_where_nil (PgStorage.users d)).
      * simpl. now rewrite String.eqb_refl.
      * intros x Hx. apply not_true_is_false. intros Ex.
        assert (T : existsb (fun x0 => String.eqb (User.username x0) (InsertUser.username u))
                      (PgStorage.users d) = true)
          by (apply existsb_exists; now exists x).
        congruence.
  - exfalso.
    apply orb_true_iff in C. destruct C as [C | C];
      [apply orb_true_iff in C; destruct C as [C | C]|].
    + apply existsb_Z_In in C. contradiction.
    + apply existsb_string_In in C. contradiction.
    + apply existsb_string_In in C. contradiction.
Qed.

(** X12: [createUser] goes through exactly when the username and the e-mail
    address are free: then the user gets the next id and is the one [getUser]
    finds under that id and [getUserByUsername] under the username; otherwise
    the call throws on a constraint and the tables stay as they were. *)
Theorem PgStorage_createUser_spec (now : Z) (u : InsertUser.t) d :
  pg_sequences d ->
  let row := user_of_payload (PgStorage.users_id_seq d) now u in
  (~ In (InsertUser.username u) (map User.username (PgStorage.users d)) ->
   ~ In (InsertUser.email u) (map User.email (PgStorage.users d)) ->
   exists d',
     PgStorage.createUser now u d = (Returns (Some row), d') /\
     PgStorage.users d' = PgStorage.users d ++ [row] /\
     PgStorage.events d' = PgStorage.events d /\
     PgStorage.attendees d' = PgStorage.attendees d /\
     PgStorage.getUser d' (User.id row) = Some row /\
     PgStorage.getUserByUsername d' (InsertUser.username u) = Some row) /\
  (In (InsertUser.username u) (map User.username (PgStorage.users d)) \/
   In (InsertUser.email u) (map User.email (PgStorage.users d)) ->
   exists constraint d',
     PgStorage.createUser now u d = (Throws (ConstraintViolation constraint), d') /\
     same_tables d d').
Proof.
  intros Q row. split.
  - intros Nn Ne. now apply PgStorage_createUser_free.
  - intros T.
    destruct (PgStorage_createUser_cases now u d) as [[C _] | [_ [c E]]].
    + exfalso. apply orb_false_iff in C. destruct C as [C Ce].
      apply orb_false_iff in C. destruct C as [_ Cn].
      destruct T as [T | T]; apply existsb_string_In in T; congruence.
    + exists c. eexists. split; [exact E|]. repeat split.
Qed.

(** X13: [createEvent] for a host that is no user throws on a constraint and
    leaves the tables as they were. *)
Theorem PgStorage_createEvent_unknown_host (now : Z) (p : InsertEvent.t number) d :
  PgStorage.getUser d (InsertEvent.hostId p) = None ->
  exists constraint d',
    PgStorage.createEvent now p d = (Throws (ConstraintViolation constraint), d') /\
    same_tables d d'.
Proof.
  intros G. destruct (PgStorage_createEvent_cases now p d) as [[_ [Ch _]] | [_ [c E]]].
  - exfalso. apply existsb_Z_In in Ch.
    destruct (select_users_by_id d _ Ch) as [u [rest [Su _]]].
    unfold PgStorage.getUser in G. rewrite Su in G. discriminate.
  - exists c. eexists. split; [exact E|]. repeat split.
Qed.

(** Deleting an event once more answers [false] and changes nothing. *)
Lemma PgStorage_deleteEvent_again (id : Z) d :
  PgStorage.deleteEvent id (snd (PgStorage.deleteEvent id d))
  = (Returns false, snd (PgStorage.deleteEvent id d)).
Proof.
  pose proof (PgStorageFacts.deleteEvent_spec id d) as S.
  destruct (PgStorage.deleteEvent id d) as [r d']. destruct S as [_ [Ev [At Us]]].
  simpl.
  pose proof (PgStorageFacts.deleteEvent_spec id d') as S'.
  pose proof (deleteEvent_sequences id d') as Q'.
  destruct (PgStorage.deleteEvent id d') as [r' d''].
  destruct S' as [-> [Ev' [At' Us']]]. simpl in Q'. destruct Q' as [Q1 [Q2 Q3]].
  f_equal.
  - f_equal. apply not_true_is_false. intros C. apply existsb_exists in C.
    destruct C as [e [He Ee]]. rewrite Ev in He. apply filter_In in He.
    destruct He as [_ He]. rewrite Ee in He. discriminate.
  - assert (Ev2 : PgStorage.events d'' = PgStorage.events d').
    { rewrite Ev', Ev. apply filter_filter_implied. auto. }
    assert (At2 : PgStorage.attendees d'' = PgStorage.attendees d').
    { rewrite At', At. apply filter_filter_implied. auto. }
    destruct d'', d'. simpl in *. congruence.
Qed.


End PgUnderConstraints.

(** On the sample database: the entry of the "Music" listing. *)
Lemma PgStorage_listed_event_details_on_the_sample_database :
  let x := PgStorage.withDetails pg0 (event_of_payload 1 0 (Seed.event1 1)) in
  PgStorage.getEventsByCategory pg0 "Music" = [x] /\
  PgStorage.getEvent pg0 1 = Some x /\
  EventWithAttendees.host x <> Summary.unknown /\
  EventWithAttendees.attendees x = 1%nat.
Proof.
  intros x.
  assert (L : PgStorage.getEventsByCategory pg0 "Music" = [x]) by (vm_compute; reflexivity).
  destruct (@PgStorage_listed_event_details Q pg0 x pg0_reachable) as [G [_ [U N]]].
  { right. left. exists "Music". rewrite L. now left. }
  split; [exact L|]. split; [exact G|]. split; [exact U|].
  rewrite N. vm_compute. reflexivity.
Defined.

(** On the sample database: a new user, and a second "johndoe". *)
Lemma PgStorage_createUser_on_the_sample_database :
  let alice := InsertUser.mk "alice" "secret" "alice@example.com" "Alice" None in
  (exists d',
      PgStorage.createUser 7 alice pg0 = (Returns (Some (user_of_payload 3 7 alice)), d') /\
      PgStorage.getUserByUsername d' "alice" = Some (user_of_payload 3 7 alice)) /\
  (exists constraint d',
      PgStorage.createUser 7 Seed.user1 pg0 = (Throws (ConstraintViolation constraint), d') /\
      same_tables pg0 d').
Proof.
  intros alice.
  pose proof (proj2 (pg_reachable_invariant pg0_reachable)) as Q0.
  split.
  - destruct (proj1 (PgStorage_createUser_spec 7 alice Q0)) as [d' [E [_ [_ [_ [_ G]]]]]].
    + vm_compute. intuition discriminate.
    + vm_compute. intuition discriminate.
    + exists d'. split; [exact E | exact G].
  - apply (proj2 (PgStorage_createUser_spec 7 Seed.user1 Q0)).
    left. vm_compute. now left.
Defined.

(** On the sample database: no user 99 to host an event. *)
Lemma PgStorage_createEvent_unknown_host_on_the_sample_database :
  exists constraint d',
    PgStorage.createEvent 7 (Seed.event1 99) pg0
    = (Throws (ConstraintViolation constraint), d') /\
    same_tables pg0 d'.
Proof.
  apply (@PgStorage_createEvent_unknown_host Q 7 (Seed.event1 99) pg0).
  vm_compute. reflexivity.
Defined.

(** ** The handlers on the database *)

Section HandlersOnPgStorage.
Context {number : Type}.
Implicit Types (d : PgStorage.t number).


(** What the methods read is in the tables. *)
Lemma PgStorage_reads_same_tables d d' :
  same_tables d d' ->
  (forall id, PgStorage.getEvent d' id = PgStorage.getEvent d id) /\
  (forall id, PgStorage.getUser d' id = PgStorage.getUser d id) /\
  (forall name, PgStorage.getUserByUsername d' name = PgStorage.getUserByUsername d name) /\
  (forall userId eventId,
      PgStorage.isUserAttending d' userId eventId = PgStorage.isUserAttending d userId eventId) /\
  (forall id, PgStorage.getEventAttendees d' id = PgStorage.getEventAttendees d id).
Proof.
  intros [U [E A]].
  unfold PgStorage.getEvent, PgStorage.getFormattedAttendees, PgStorage.getUser,
    PgStorage.getUserByUsername, PgStorage.isUserAttending, PgStorage.getEventAttendees.
  rewrite U, E, A. repeat split.
Qed.

Lemma getUserByUsername_None d (name : string) :
  PgStorage.getUserByUsername d name = None <->
  ~ In name (map User.username (PgStorage.users d)).
Proof.
  unfold PgStorage.getUserByUsername, PgStorage.first, PgStorage.select_where.
  rewrite <- existsb_string_In, <- ltb_length_existsb.
  destruct (filter _ (PgStorage.users d)); unfold Nat.ltb; simpl; split;
    intros C; solve [congruence | exfalso; now apply C].
Qed.

Lemma getUser_Some_In d (id : Z) (user : User.t) :
  PgStorage.getUser d id = Some user -> In user (PgStorage.users d) /\ User.id user = id.
Proof.
  intros G. destruct (PgStorage_getUser_Some _ _ G) as [rest S].
  assert (F : In user (PgStorage.select_where (PgStorage.users d)
                         (fun u' => Z.eqb (User.id u') id))) by (rewrite S; now left).
  apply filter_In in F. destruct F as [F E]. apply Z.eqb_eq in E. tauto.
Qed.

(** *** Signing up, logging in *)

Lemma signup_PgStorage (now : Z) (u : InsertUser.t) d :
  Endpoints.signup (number := number) now (Endpoints.Valid u) d
  = match PgStorage.getUserByUsername d (InsertUser.username u) with
    | Some _ =>
      (Returns (Endpoints.mkResponse 400 (Endpoints.Message "Username already exists")), d)
    | None =>
      match PgStorage.createUser now u d with
      | (Returns (Some newUser), d') =>
        (Returns (Endpoints.mkResponse 201
                    (Endpoints.UserBody (Routes.without_password newUser))), d')
      | (_, d') =>
        (Returns (Endpoints.mkResponse 500 (Endpoints.Message "Failed to create user")), d')
      end
    end.
Proof.
  unfold Endpoints.signup, try_catch, bind, read, ret, throw. simpl.
  destruct (PgStorage.getUserByUsername d (InsertUser.username u)); [reflexivity|].
  destruct (PgStorage.createUser now u d) as [[[newUser|]|e] d']; reflexivity.
Qed.

(** X15: a visitor who signs up with a username and an e-mail address that are
    free is answered 201 with the new user, the password left out; with the
    same username and password, both not empty, [login] then answers 200 with
    that user and puts the user's id in the session, and with that session
    [me] answers 200 with that user. When the username or the password signed
    up with is empty, [login] answers 400 instead. *)
Theorem signup_then_login (now : Z) (u : InsertUser.t) (session : Routes.Session) d :
  pg_reachable d ->
  PgStorage.getUserByUsername d (InsertUser.username u) = None ->
  ~ In (InsertUser.email u) (map User.email (PgStorage.users d)) ->
  let user := user_of_payload (PgStorage.users_id_seq d) now u in
  let logged_in := Routes.mkSession (Some user) (Some (User.id user)) in
  exists d',
    Endpoints.signup (number := number) now (Endpoints.Valid u) d
    = (Returns (Endpoints.mkResponse 201 (Endpoints.UserBody (Routes.without_password user))),
       d') /\
    (InsertUser.username u <> "" -> InsertUser.password u <> "" ->
     Routes.login (number := number) d' session
       (Some (InsertUser.username u)) (Some (InsertUser.password u))
     = (Routes.mkResponse 200 (Routes.LoggedIn (Routes.without_password user)), logged_in) /\
     Endpoints.me (number := number) d' logged_in
     = (Endpoints.mkResponse 200 (Endpoints.UserBody (Routes.without_password user)),
        logged_in)) /\
    (InsertUser.username u = "" \/ InsertUser.password u = "" ->
     Routes.login (number := number) d' session
       (Some (InsertUser.username u)) (Some (InsertUser.password u))
     = (Routes.mkResponse 400 (Routes.Failure "Username and password are required"),
        session)).
Proof.
  intros R Free Fe user logged_in.
  destruct (pg_reachable_invariant R) as [_ Q].
  destruct (PgStorage_createUser_free now u Q) as [d' [E [_ [_ [_ [G Gn]]]]]];
    [now apply getUserByUsername_None | assumption |].
  exists d'. split; [|split].
  - rewrite signup_PgStorage, Free, E. reflexivity.
  - intros Nu Np. split.
    + unfold Routes.login. simpl.
      destruct (String.eqb_spec (InsertUser.username u) ""); [contradiction|].
      destruct (String.eqb_spec (InsertUser.password u) ""); [contradiction|].
      simpl. rewrite Gn. simpl. now rewrite String.eqb_refl.
    + unfold Endpoints.me, Routes.not_logged_in, Endpoints.session_userId. simpl.
      destruct Q as [Su _].
      destruct (Z.eqb_spec (PgStorage.users_id_seq d) 0) as [Z0|_]; [lia|].
      simpl in G. now rewrite G.
  - intros [Eu | Ep]; unfold Routes.login; simpl.
    + rewrite Eu. reflexivity.
    + rewrite Ep. simpl. now rewrite orb_true_r.
Qed.

(** X16: a username that is taken is answered 400 and nothing is written; an
    e-mail address that is taken, under a username that is free, is answered
    500 "Failed to create user", and the tables stay as they were. *)
Theorem signup_conflict (now : Z) (u : InsertUser.t) d :
  In (InsertUser.username u) (map User.username (PgStorage.users d)) \/
  In (InsertUser.email u) (map User.email (PgStorage.users d)) ->
  exists message d',
    Endpoints.signup (number := number) now (Endpoints.Valid u) d
    = (Returns (Endpoints.mkResponse
                  (if existsb (fun x => String.eqb (User.username x) (InsertUser.username u))
                        (PgStorage.users d)
                   then 400 else 500)
                  (Endpoints.Message message)), d') /\
    message = (if existsb (fun x => String.eqb (User.username x) (InsertUser.username u))
                    (PgStorage.users d)
               then "Username already exists" else "Failed to create user") /\
    same_tables d d'.
Proof.
  intros T. rewrite signup_PgStorage.
  destruct (existsb (fun x => String.eqb (User.username x) (InsertUser.username u))
              (PgStorage.users d)) eqn:Ex.
  - destruct (PgStorage.getUserByUsername d (InsertUser.username u)) eqn:G.
    + eexists. exists d. repeat split.
    + apply getUserByUsername_None in G. apply existsb_string_In in Ex. contradiction.
  - assert (G : PgStorage.getUserByUsername d (InsertUser.username u) = None).
    { apply getUserByUsername_None. intros C. apply existsb_string_In in C. congruence. }
    rewrite G.
    destruct (PgStorage_createUser_cases now u d) as [[C E] | [C [c E]]].
    + exfalso. apply orb_false_iff in C. destruct C as [C Ce].
      destruct T as [T | T]; apply existsb_string_In in T; congruence.
    + rewrite E. eexists. eexists. repeat split.
Qed.

(** *** Registering for an event and cancelling *)

Lemma attend_PgStorage (now uid eid : Z) (session : Routes.Session) (id : string) d :
  Routes.userId session = Some uid -> uid <> 0 ->
  JsString.parseInt id = Some eid ->
  PgStorage.isUserAttending d uid eid = false ->
  Routes.attend (number := number) now session id d
  = match PgStorage.createAttendee now (InsertAttendee.mk uid eid) d with
    | (Returns _, d') =>
      (Returns (Routes.mkResponse 201 (Routes.UpdatedEvent (PgStorage.getEvent d' eid))), d')
    | (Throws _, d') =>
      (Returns (Routes.mkResponse 500 (Routes.Message "Failed to register for event")), d')
    end.
Proof.
  intros Hs Hu Hp Ha. unfold Routes.attend, Routes.not_logged_in, try_catch, bind, read, ret.
  rewrite Hs, Hp. destruct (Z.eqb_spec uid 0) as [|_]; [contradiction|].
  simpl. rewrite Ha.
  destruct (PgStorage.createAttendee now (InsertAttendee.mk uid eid) d) as [[a|e] d'];
    reflexivity.
Qed.

Lemma unattend_PgStorage (uid eid : Z) (session : Routes.Session) (id : string) d :
  Routes.userId session = Some uid -> uid <> 0 ->
  JsString.parseInt id = Some eid ->
  PgStorage.isUserAttending d uid eid = true ->
  Endpoints.unattend (number := number) session id d
  = match PgStorage.deleteAttendee uid eid d with
    | (Returns true, d') =>
      (Returns (Endpoints.mkResponse 200 (Endpoints.EventBody (PgStorage.getEvent d' eid))), d')
    | (Returns false, d') =>
      (Returns (Endpoints.mkResponse 404 (Endpoints.Message "Registration not found")), d')
    | (Throws _, d') =>
      (Returns (Endpoints.mkResponse 500 (Endpoints.Message "Failed to cancel registration")),
       d')
    end.
Proof.
  intros Hs Hu Hp Ha.
  unfold Endpoints.unattend, Endpoints.session_userId, Routes.not_logged_in,
    try_catch, bind, read, ret.
  rewrite Hs, Hp. destruct (Z.eqb_spec uid 0) as [|_]; [contradiction|].
  change (@isUserAttending number (PgStorage.t number) _ d uid eid)
    with (PgStorage.isUserAttending d uid eid).
  rewrite Ha. cbn [negb].
  change (@deleteAttendee number (PgStorage.t number) _ uid eid d)
    with (PgStorage.deleteAttendee uid eid d).
  destruct (PgStorage.deleteAttendee uid eid d) as [[[|]|e] d']; reflexivity.
Qed.

Lemma map_filter_Boolean_app {A B} (f : A -> option B) (l l' : list A) :
  map_filter_Boolean f (l ++ l') = map_filter_Boolean f l ++ map_filter_Boolean f l'.
Proof.
  induction l as [|x l IH]; simpl; [reflexivity|]. destruct (f x); simpl; now rewrite IH.
Qed.

(** X17: a logged-in user who is not registered for an event registers:
    [attend] answers 201 with the event as [getEvent] gave it before, one
    attendee more and the user's summary at the end of the list. When the user
    then cancels, [unattend] answers 200 with the event as it was before, and
    the tables are as they were before. *)
Theorem attend_then_unattend (now uid eid : Z) (session : Routes.Session) (id : string)
    (x : EventWithAttendees.t number) (user : User.t) d :
  pg_reachable d ->
  Routes.userId session = Some uid ->
  JsString.parseInt id = Some eid ->
  PgStorage.getEvent d eid = Some x ->
  PgStorage.getUser d uid = Some user ->
  PgStorage.isUserAttending d uid eid = false ->
  let x1 :=
    EventWithAttendees.mk (EventWithAttendees.event x) (S (EventWithAttendees.attendees x))
      (EventWithAttendees.attendeesList x ++ [Summary.of_user user])
      (EventWithAttendees.host x) in
  exists d1 d2,
    Routes.attend (number := number) now session id d
    = (Returns (Routes.mkResponse 201 (Routes.UpdatedEvent (Some x1))), d1) /\
    PgStorage.isUserAttending d1 uid eid = true /\
    Endpoints.unattend (number := number) session id d1
    = (Returns (Endpoints.mkResponse 200 (Endpoints.EventBody (Some x))), d2) /\
    same_tables d d2.
Proof.
  intros R Hs Hp Gx Gu Na x1.
  destruct (pg_reachable_invariant R) as [I Q].
  destruct (getUser_Some_In d uid Gu) as [Hin Eid].
  assert (Hu : uid <> 0).
  { destruct Q as [_ [_ [_ [Fu _]]]]. rewrite Forall_forall in Fu.
    specialize (Fu user Hin). lia. }
  (* the insert goes through *)
  assert (Fresh : ~ In (PgStorage.attendees_id_seq d) (map Attendee.id (PgStorage.attendees d))).
  { destruct Q as [_ [_ [_ [_ [_ Fa]]]]]. now apply (Forall_below_fresh Attendee.id). }
  assert (Ev : existsb (fun e : Event.t number => Z.eqb (Event.id e) eid) (PgStorage.events d)
               = true).
  { unfold PgStorage.getEvent in Gx.
    destruct (PgStorage.select_where (PgStorage.events d)
                (fun e : Event.t number => Z.eqb (Event.id e) eid)) as [|e l] eqn:S;
      [discriminate|].
    apply existsb_exists. exists e.
    assert (F : In e (PgStorage.select_where (PgStorage.events d)
                        (fun e : Event.t number => Z.eqb (Event.id e) eid)))
      by (rewrite S; now left).
    now apply filter_In in F. }
  pose proof Na as Nr. rewrite PgStorage_isUserAttending_existsb in Nr.
  set (row := Attendee.mk (PgStorage.attendees_id_seq d) uid eid now).
  set (d1 := PgStorage.mk (PgStorage.users d) (PgStorage.events d)
               (PgStorage.attendees d ++ [row])
               (PgStorage.users_id_seq d) (PgStorage.events_id_seq d)
               (PgStorage.attendees_id_seq d + 1)).
  assert (C1 : PgStorage.createAttendee now (InsertAttendee.mk uid eid) d
               = (Returns (Some row), d1)).
  { destruct (PgStorage_createAttendee_cases now uid eid d)
      as [[_ [_ [_ [_ E]]]] | [[C | [C | [C | C]]] _]]; [exact E | exfalso ..].
    - apply existsb_Z_In in C. contradiction.
    - congruence.
    - assert (T : existsb (fun x0 => Z.eqb (User.id x0) uid) (PgStorage.users d) = true)
        by (apply existsb_exists; exists user; split; [assumption | now apply Z.eqb_eq]).
      congruence.
    - congruence. }
  (* what [getEvent] reads afterwards *)
  assert (Rows : PgStorage.getFormattedAttendees d1 eid
                 = PgStorage.getFormattedAttendees d eid ++ [Summary.of_user user]).
  { unfold PgStorage.getFormattedAttendees. simpl.
    rewrite select_where_app, map_app, map_filter_Boolean_app. f_equal.
    unfold PgStorage.select_where at 1. simpl. rewrite Z.eqb_refl. simpl.
    destruct (PgStorage_getUser_Some _ _ Gu) as [rest Su].
    unfold PgStorage.select_where in Su. now rewrite Su. }
  assert (G1 : PgStorage.getEvent d1 eid = Some x1).
  { unfold PgStorage.getEvent in Gx |- *. rewrite Rows. simpl.
    destruct (PgStorage.select_where (PgStorage.events d)
                (fun e : Event.t number => Z.eqb (Event.id e) eid)) as [|e l];
      [discriminate|].
    destruct (PgStorage.select_where (PgStorage.users d)
                (fun u : User.t => Z.eqb (User.id u) (Event.hostId e))) as [|h l'];
      [discriminate|].
    injection Gx as <-. unfold x1. simpl. f_equal. f_equal.
    rewrite length_app. simpl. lia. }
  assert (A1 : PgStorage.isUserAttending d1 uid eid = true).
  { rewrite PgStorage_isUserAttending_existsb. simpl. rewrite existsb_app. simpl.
    unfold registers at 2. simpl. rewrite !Z.eqb_refl. simpl. now rewrite orb_true_r. }
  pose proof (PgStorage_deleteAttendee_rows uid eid d1) as D2.
  set (d2 := PgStorage.mk (PgStorage.users d1) (PgStorage.events d1)
               (filter (fun a => negb (registers uid eid a)) (PgStorage.attendees d1))
               (PgStorage.users_id_seq d1) (PgStorage.events_id_seq d1)
               (PgStorage.attendees_id_seq d1)) in D2.
  assert (Back : PgStorage.attendees d2 = PgStorage.attendees d).
  { simpl. rewrite filter_app. simpl.
    unfold registers at 2. simpl. rewrite !Z.eqb_refl. simpl. rewrite app_nil_r.
    apply filter_id. rewrite Forall_forall. intros a Ha. apply negb_true_iff.
    apply not_true_is_false. intros C.
    assert (T : existsb (registers uid eid) (PgStorage.attendees d) = true)
      by (apply existsb_exists; now exists a).
    congruence. }
  assert (Same : same_tables d d2) by (split; [reflexivity | split; [reflexivity | exact Back]]).
  exists d1, d2. split; [|split; [|split]].
  - rewrite (@attend_PgStorage now uid eid session id d Hs Hu Hp Na), C1, G1. reflexivity.
  - exact A1.
  - rewrite (@unattend_PgStorage uid eid session id d1 Hs Hu Hp A1), D2, A1.
    destruct (@PgStorage_reads_same_tables d d2 Same) as [Ge _]. now rewrite Ge, Gx.
  - exact Same.
Qed.

(** X18: a logged-in user who asks to register for an event that does not
    exist is answered 500 "Failed to register for event", and the tables stay
    as they were. *)
Theorem attend_unknown_event (now uid eid : Z) (session : Routes.Session) (id : string) d :
  pg_reachable d ->
  Routes.userId session = Some uid -> uid <> 0 ->
  JsString.parseInt id = Some eid ->
  ~ In eid (map (@Event.id number) (PgStorage.events d)) ->
  exists d',
    Routes.attend (number := number) now session id d
    = (Returns (Routes.mkResponse 500 (Routes.Message "Failed to register for event")), d') /\
    same_tables d d'.
Proof.
  intros R Hs Hu Hp Ne.
  destruct (pg_reachable_invariant R) as [I _].
  assert (Na : PgStorage.isUserAttending d uid eid = false).
  { apply not_true_is_false. intros C. apply PgStorage_isUserAttending_iff in C.
    destruct C as [a [Ha [_ Ea]]]. apply Ne. rewrite <- Ea.
    now apply (attendees_event_id_fkey I). }
  rewrite (@attend_PgStorage now uid eid session id d Hs Hu Hp Na).
  destruct (PgStorage_createAttendee_cases now uid eid d)
    as [[_ [_ [_ [C _]]]] | [_ [c E]]].
  - apply existsb_Z_In in C. contradiction.
  - rewrite E. eexists. repeat split.
Qed.

(** *** Deleting an event *)

Lemma delete_event_PgStorage (eid : Z) (id : string) d :
  JsString.parseInt id = Some eid ->
  Endpoints.delete_event (number := number) id d
  = match PgStorage.deleteEvent eid d with
    | (Returns true, d') => (Returns (Endpoints.mkResponse 204 Endpoints.Empty), d')
    | (Returns false, d') =>
      (Returns (Endpoints.mkResponse 404 (Endpoints.Message "Event not found")), d')
    | (Throws _, d') =>
      (Returns (Endpoints.mkResponse 500 (Endpoints.Message "Failed to delete event")), d')
    end.
Proof.
  intros Hp. unfold Endpoints.delete_event, try_catch, bind, ret. rewrite Hp.
  change (@deleteEvent number (PgStorage.t number) _ eid d) with (PgStorage.deleteEvent eid d).
  destruct (PgStorage.deleteEvent eid d) as [[[|]|e] d']; reflexivity.
Qed.

(** On the database the two handlers that only read answer 500 for an id
    outside [int4], and what the read gives for an id inside. *)
Lemma get_event_PgStorage (eid : Z) (id : string) d :
  JsString.parseInt id = Some eid ->
  Endpoints.get_event (number := number) d id
  = if int4 eid then
      match PgStorage.getEvent d eid with
      | Some event => Endpoints.mkResponse 200 (Endpoints.EventBody (Some event))
      | None => Endpoints.mkResponse 404 (Endpoints.Message "Event not found")
      end
    else Endpoints.mkResponse 500 (Endpoints.Message "Failed to retrieve event").
Proof.
  intros Hp. unfold Endpoints.get_event, Endpoints.awaited. rewrite Hp.
  change (@answers number (PgStorage.t number) _ d eid) with (int4 eid).
  destruct (int4 eid); [|reflexivity].
  change (@getEvent number (PgStorage.t number) _ d eid) with (PgStorage.getEvent d eid).
  now destruct (PgStorage.getEvent d eid).
Qed.

Lemma list_attendees_PgStorage (eid : Z) (id : string) d :
  JsString.parseInt id = Some eid ->
  Endpoints.list_attendees (number := number) d id
  = if int4 eid then
      Endpoints.mkResponse 200 (Endpoints.AttendeesBody (PgStorage.getEventAttendees d eid))
    else Endpoints.mkResponse 500 (Endpoints.Message "Failed to retrieve event attendees").
Proof.
  intros Hp. unfold Endpoints.list_attendees, Endpoints.awaited. rewrite Hp.
  change (@answers number (PgStorage.t number) _ d eid) with (int4 eid).
  now destruct (int4 eid).
Qed.

(** X19: [DELETE /api/events/:id] answers 204 when the id names a row of
    [events] and 404 otherwise, and a second [DELETE] answers 404 and changes
    nothing. After the first, for an id that fits the four bytes of the
    column, [GET /api/events/:id] answers 404 and [GET
    /api/events/:id/attendees] answers with no rows; for an id that does not
    fit, such as 2147483648, both answer 500. *)
Theorem delete_event_then_not_found (eid : Z) (id : string) d :
  JsString.parseInt id = Some eid ->
  exists d',
    Endpoints.delete_event (number := number) id d
    = (Returns
         (if existsb (fun e : Event.t number => Z.eqb (Event.id e) eid) (PgStorage.events d)
          then Endpoints.mkResponse 204 Endpoints.Empty
          else Endpoints.mkResponse 404 (Endpoints.Message "Event not found")), d') /\
    Endpoints.get_event (number := number) d' id
    = (if int4 eid
       then Endpoints.mkResponse 404 (Endpoints.Message "Event not found")
       else Endpoints.mkResponse 500 (Endpoints.Message "Failed to retrieve event")) /\
    Endpoints.list_attendees (number := number) d' id
    = (if int4 eid
       then Endpoints.mkResponse 200 (Endpoints.AttendeesBody [])
       else Endpoints.mkResponse 500
              (Endpoints.Message "Failed to retrieve event attendees")) /\
    Endpoints.delete_event (number := number) id d'
    = (Returns (Endpoints.mkResponse 404 (Endpoints.Message "Event not found")), d').
Proof.
  intros Hp.
  pose proof (PgStorageFacts.deleteEvent_spec eid d) as S.
  pose proof (PgStorageFacts.deleteEvent_clears_attendees eid d) as [A G].
  pose proof (PgStorage_deleteEvent_again eid d) as D'.
  destruct (PgStorage.deleteEvent eid d) as [r d'] eqn:D.
  destruct S as [-> _]. simpl in A, G, D'.
  exists d'. split; [|split; [|split]].
  - rewrite (@delete_event_PgStorage eid id d Hp), D.
    now destruct (existsb _ (PgStorage.events d)).
  - rewrite (@get_event_PgStorage eid id d' Hp). now rewrite G.
  - rewrite (@list_attendees_PgStorage eid id d' Hp). now rewrite A.
  - now rewrite (@delete_event_PgStorage eid id d' Hp), D'.
Qed.

End HandlersOnPgStorage.

(** On the sample database: "alice" signs up, logs in and asks who is logged in. *)
Lemma signup_then_login_on_the_sample_database :
  let alice := InsertUser.mk "alice" "secret" "alice@example.com" "Alice" None in
  let user := user_of_payload 3 7 alice in
  let logged_in := Routes.mkSession (Some user) (Some 3) in
  exists d',
    Endpoints.signup (number := Q) 7 (Endpoints.Valid alice) pg0
    = (Returns (Endpoints.mkResponse 201 (Endpoints.UserBody (Routes.without_password user))),
       d') /\
    Routes.login (number := Q) d' (Routes.mkSession None None) (Some "alice") (Some "secret")
    = (Routes.mkResponse 200 (Routes.LoggedIn (Routes.without_password user)), logged_in) /\
    Endpoints.me (number := Q) d' logged_in
    = (Endpoints.mkResponse 200 (Endpoints.UserBody (Routes.without_password user)),
       logged_in).
Proof.
  intros alice user logged_in.
  destruct (@signup_then_login Q 7 alice (Routes.mkSession None None) pg0 pg0_reachable)
    as [d' [E [L _]]].
  - vm_compute. reflexivity.
  - vm_compute. intuition discriminate.
  - exists d'. split; [exact E|]. apply L; discriminate.
Defined.

(** On the sample database: "johndoe" is taken. *)
Lemma signup_conflict_on_the_sample_database :
  exists d',
    Endpoints.signup (number := Q) 7 (Endpoints.Valid Seed.user1) pg0
    = (Returns (Endpoints.mkResponse 400 (Endpoints.Message "Username already exists")), d') /\
    same_tables pg0 d'.
Proof.
  destruct (@signup_conflict Q 7 Seed.user1 pg0) as [message [d' [E [M S]]]].
  - left. vm_compute. now left.
  - exists d'. split; [|exact S]. rewrite E, M. vm_compute. reflexivity.
Defined.

(** On the sample database: "janedoe" registers for event 2 and cancels. *)
Lemma attend_then_unattend_on_the_sample_database :
  let session := Routes.mkSession (Some (janedoe 0)) (Some 2) in
  let x := PgStorage.withDetails pg0 (event_of_payload 2 0 (Seed.event2 2)) in
  exists d1 d2,
    Routes.attend (number := Q) 7 session "2" pg0
    = (Returns
         (Routes.mkResponse 201
            (Routes.UpdatedEvent
               (Some (EventWithAttendees.mk (EventWithAttendees.event x) 2
                        (EventWithAttendees.attendeesList x ++ [Summary.of_user (janedoe 0)])
                        (EventWithAttendees.host x))))), d1) /\
    Endpoints.unattend (number := Q) session "2" d1
    = (Returns (Endpoints.mkResponse 200 (Endpoints.EventBody (Some x))), d2) /\
    same_tables pg0 d2.
Proof.
  intros session x.
  destruct (@attend_then_unattend Q 7 2 2 session "2" x (janedoe 0) pg0 pg0_reachable)
    as [d1 [d2 [A [_ [U S]]]]]; try (vm_compute; reflexivity).
  exists d1, d2. split; [exact A|]. split; [exact U | exact S].
Defined.

(** On the sample database: no event 99. *)
Lemma attend_unknown_event_on_the_sample_database :
  exists d',
    Routes.attend (number := Q) 7 (Routes.mkSession (Some (janedoe 0)) (Some 2)) "99" pg0
    = (Returns (Routes.mkResponse 500 (Routes.Message "Failed to register for event")), d') /\
    same_tables pg0 d'.
Proof.
  apply (@attend_unknown_event Q 7 2 99 (Routes.mkSession (Some (janedoe 0)) (Some 2)) "99"
           pg0 pg0_reachable).
  - reflexivity.
  - discriminate.
  - vm_compute. reflexivity.
  - vm_compute. intuition discriminate.
Defined.

(** On the sample database: event 3 is deleted; and an id of ten digits
    that no [INTEGER] column holds. *)
Lemma delete_event_on_the_sample_database :
  (exists d',
     Endpoints.delete_event (number := Q) "3" pg0
     = (Returns (Endpoints.mkResponse 204 Endpoints.Empty), d') /\
     Endpoints.get_event (number := Q) d' "3"
     = Endpoints.mkResponse 404 (Endpoints.Message "Event not found") /\
     Endpoints.list_attendees (number := Q) d' "3"
     = Endpoints.mkResponse 200 (Endpoints.AttendeesBody [])) /\
  (exists d',
     Endpoints.delete_event (number := Q) "2147483648" pg0
     = (Returns (Endpoints.mkResponse 404 (Endpoints.Message "Event not found")), d') /\
     Endpoints.get_event (number := Q) d' "2147483648"
     = Endpoints.mkResponse 500 (Endpoints.Message "Failed to retrieve event") /\
     Endpoints.list_attendees (number := Q) d' "2147483648"
     = Endpoints.mkResponse 500 (Endpoints.Message "Failed to retrieve event attendees")).
Proof.
  split.
  - destruct (@delete_event_then_not_found Q 3 "3" pg0) as [d' [D [G [A _]]]].
    + vm_compute. reflexivity.
    + exists d'. split; [|split; assumption]. rewrite D. vm_compute. reflexivity.
  - destruct (@delete_event_then_not_found Q 2147483648 "2147483648" pg0)
      as [d' [D [G [A _]]]].
    + vm_compute. reflexivity.
    + exists d'. split; [|split; assumption]. rewrite D. vm_compute. reflexivity.
Defined.

(** ** An event whose host is no user, in [MemStorage] *)

Section MemUnknownHost.
Context {number : Type} `{JSNumber number}.

(** X20: [MemStorage.createEvent] does not look for the host: for a host that
    is no user it stores the event all the same; [getEvent] of the new id is
    then [undefined], the handler of [POST /api/events] answers 201 with that,
    the listing of all events has an [undefined] entry, and
    [getEventsNearLocation] throws a [TypeError] whatever the place asked for. *)
Theorem MemStorage_createEvent_unknown_host (now : Z) (p : InsertEvent.t number)
    (lat lng distance : number) (st : MemStorage.t number) :
  MemStorage.getUser st (InsertEvent.hostId p) = None ->
  exists e st',
    MemStorage.createEvent now p st = (Returns e, st') /\
    JsMap.get (Event.id e) (MemStorage.events st') = Some e /\
    MemStorage.getEvent st' (Event.id e) = None /\
    Endpoints.create_event now (Endpoints.Valid p) st
    = (Returns (Endpoints.mkResponse 201 (Endpoints.EventBody None)), st') /\
    In None (MemStorage.getAllEvents st') /\
    MemStorage.getEventsNearLocation st' lat lng distance = Throws TypeError.
Proof.
  intros G. eexists. eexists. split; [reflexivity|].
  set (e := event_of_payload (MemStorage.eventId st) now p).
  set (st' := snd (MemStorage.createEvent now p st)).
  assert (Ge : JsMap.get (Event.id e) (MemStorage.events st') = Some e)
    by apply JsMapFacts.get_set_eq.
  assert (N : MemStorage.getEvent st' (Event.id e) = None).
  { unfold MemStorage.getEvent. rewrite Ge.
    unfold MemStorage.getUser in G. simpl. now rewrite G. }
  assert (L : In None (MemStorage.getAllEvents st')).
  { unfold MemStorage.getAllEvents. apply in_map_iff. exists e. split; [exact N|].
    now apply JsMapFacts.get_Some_In with (Event.id e). }
  split; [exact Ge|]. split; [exact N|]. split; [|split; [exact L|]].
  - unfold Endpoints.create_event, try_catch, bind, read, ret.
    change (@createEvent number (MemStorage.t number) _ now p st)
      with ((event <- MemStorage.createEvent now p ;; ret (Some event)) st).
    unfold bind, ret. simpl. unfold st' in N. simpl in N. now rewrite N.
  - unfold MemStorage.getEventsNearLocation. now rewrite attach_distances_None.
Qed.

End MemUnknownHost.

(** On the sample store: an event hosted by user 99. *)
Lemma MemStorage_createEvent_unknown_host_on_the_sample_store :
  exists st',
    Endpoints.create_event 7 (Endpoints.Valid (Seed.event1 99)) mem0
    = (Returns (Endpoints.mkResponse 201 (Endpoints.EventBody None)), st') /\
    MemStorage.getEventsNearLocation st' 40.7%Q (-74)%Q 10%Q = Throws TypeError.
Proof.
  destruct (@MemStorage_createEvent_unknown_host Q _ 7 (Seed.event1 99) 40.7%Q (-74)%Q 10%Q mem0)
    as [e [st' [_ [_ [_ [C [_ N]]]]]]].
  - vm_compute. reflexivity.
  - exists st'. split; assumption.
Defined.

(** ** The id in the path of a request *)

Section PathId.

Lemma decimal_digit_value (c : ascii) :
  decimal c = true ->
  exists n, JsString.digit_value c = Some n /\ 0 <= n < 10.
Proof.
  unfold decimal, JsString.digit_value. intros D. rewrite D.
  apply andb_true_iff in D. destruct D as [D1 D2].
  apply Nat.leb_le in D1, D2. eexists. split; [reflexivity|]. lia.
Qed.

Lemma not_decimal_stops (c : ascii) (acc : option Z) (rest : string) :
  decimal c = false -> JsString.digits 10 acc (String c rest) = acc.
Proof.
  unfold decimal. intros D. simpl. unfold JsString.digit_value. rewrite D.
  destruct (Nat.leb 97 (nat_of_ascii c) && Nat.leb (nat_of_ascii c) 122)%bool eqn:L.
  - apply andb_true_iff in L. destruct L as [L1 L2]. apply Nat.leb_le in L1, L2.
    destruct (Z.ltb_spec (Z.of_nat (nat_of_ascii c - 87)) 10); [lia | reflexivity].
  - destruct (Nat.leb 65 (nat_of_ascii c) && Nat.leb (nat_of_ascii c) 90)%bool eqn:U;
      [|reflexivity].
    apply andb_true_iff in U. destruct U as [U1 U2]. apply Nat.leb_le in U1, U2.
    destruct (Z.ltb_spec (Z.of_nat (nat_of_ascii c - 55)) 10); [lia | reflexivity].
Qed.

Lemma digits_ignore_tail (s rest : string) (c : ascii) (acc : option Z) :
  decimals s = true -> decimal c = false ->
  JsString.digits 10 acc (s ++ String c rest) = JsString.digits 10 acc s.
Proof.
  intros Ds Dc. revert acc. induction s as [|a s IH]; intros acc.
  - simpl. now apply not_decimal_stops.
  - simpl in Ds. apply andb_true_iff in Ds. destruct Ds as [Da Ds].
    destruct (decimal_digit_value a Da) as [n [E B]].
    simpl. rewrite E. destruct (Z.ltb_spec n 10); [|lia]. now apply IH.
Qed.

Lemma digits_Some (s : string) (a : Z) :
  exists n, JsString.digits 10 (Some a) s = Some n.
Proof.
  revert a. induction s as [|c s IH]; intros a; simpl; [now exists a|].
  destruct (JsString.digit_value c) as [d|]; [|now exists a].
  destruct (Z.ltb d 10); [apply IH | now exists a].
Qed.

(** [parseInt] reads the digits in front and ignores what follows them. *)
Lemma parseInt_ignores_tail (a c : ascii) (s rest : string) :
  decimal a = true -> a <> "0"%char -> decimals s = true -> decimal c = false ->
  JsString.parseInt (String a s ++ String c rest) = JsString.parseInt (String a s) /\
  JsString.parseInt (String a s) <> None.
Proof.
  intros Da Na Ds Dc.
  assert (P : forall t,
             JsString.parseInt (String a t)
             = match JsString.digits 10 None (String a t) with
               | Some n => Some n
               | None => None
               end).
  { intros t. clear Ds Dc.
    destruct a as [[] [] [] [] [] [] [] []];
      try (vm_compute in Da; discriminate); try (exfalso; now apply Na); reflexivity. }
  split.
  - change (String a s ++ String c rest)%string with (String a (s ++ String c rest)).
    rewrite !P.
    change (String a (s ++ String c rest)) with (String a s ++ String c rest)%string.
    rewrite digits_ignore_tail; [reflexivity | | assumption].
    simpl. now rewrite Da, Ds.
  - rewrite P. destruct (decimal_digit_value a Da) as [n [E B]].
    simpl. rewrite E. destruct (Z.ltb_spec n 10); [|lia].
    destruct (digits_Some s n) as [m ->]. discriminate.
Qed.

Context {number : Type} {S : Type} `{IStorage number S} `{IStorageRest number S}.


End PathId.


(** ** The request log *)

Section RequestLog.

Lemma length_append (a b : string) :
  String.length (a ++ b) = (String.length a + String.length b)%nat.
Proof. induction a as [|c a IH]; simpl; [reflexivity | now rewrite IH]. Qed.

Lemma length_substring_0 (n : nat) (s : string) :
  (n <= String.length s)%nat -> String.length (substring 0 n s) = n.
Proof.
  revert s. induction n as [|n IH]; intros s L.
  - now destruct s.
  - destruct s as [|c s]; simpl in *; [lia|]. rewrite IH; [reflexivity | lia].
Qed.

Lemma append_empty_r (a : string) : (a ++ "" = a)%string.
Proof. induction a as [|x a IH]; simpl; [reflexivity | now rewrite IH]. Qed.

(** X22: a request is logged when its path starts with "/api", and only then.
    A line of at most 80 characters is logged as it is. A longer one is cut to
    its first 79 characters, followed by the three characters of the literal:
    82 characters, two more than the 80 the listener tests for. No logged line
    is longer than 82 characters. *)
Theorem logLine_spec (method path statusCode duration : string)
    (capturedJsonResponse : option string) :
  let full := full_line method path statusCode duration capturedJsonResponse in
  (JsString.startsWith path "/api" = false ->
   Logging.logLine method path statusCode duration capturedJsonResponse = None) /\
  (JsString.startsWith path "/api" = true ->
   exists line,
     Logging.logLine method path statusCode duration capturedJsonResponse = Some line /\
     (String.length line <= 82)%nat /\
     ((String.length full <= 80)%nat -> line = full) /\
     ((80 < String.length full)%nat ->
      line = (substring 0 79 full ++ Logging.ellipsis)%string /\
      String.length line = 82%nat)).
Proof.
  intros full. unfold Logging.logLine. split; [now intros ->|]. intros ->.
  assert (F : match capturedJsonResponse with
              | Some json =>
                ((method ++ " " ++ path ++ " " ++ statusCode ++ " in " ++ duration ++ "ms")
                 ++ " :: " ++ json)%string
              | None =>
                (method ++ " " ++ path ++ " " ++ statusCode ++ " in " ++ duration ++ "ms")%string
              end = full).
  { unfold full, full_line. destruct capturedJsonResponse; [reflexivity|].
    now rewrite append_empty_r. }
  cbv zeta. rewrite F.
  assert (Cut : (80 < String.length full)%nat ->
                String.length (substring 0 79 full ++ Logging.ellipsis) = 82%nat).
  { intros L. rewrite length_append, length_substring_0 by lia. reflexivity. }
  destruct (Nat.ltb_spec 80 (String.length full)) as [L|L]; eexists; split; try reflexivity.
  - split; [rewrite (Cut L); lia|]. split; [lia|]. intros _. split; [reflexivity | now apply Cut].
  - split; [lia|]. split; [reflexivity | lia].
Qed.

End RequestLog.

(** A request that took 12 ms and was answered with [thirty_numbers]: the
    line is cut, and is 82 characters long. *)
Lemma logLine_on_a_request :
  exists line,
    Logging.logLine "GET" "/api/numbers" "200" "12"
      (Some thirty_numbers)
    = Some line /\
    String.length line = 82%nat.
Proof.
  destruct (proj2 (logLine_spec "GET" "/api/numbers" "200" "12"
                     (Some thirty_numbers)))
    as [line [E [_ [_ C]]]]; [reflexivity|].
  exists line. split; [exact E|]. apply C. vm_compute. lia.
Defined.

(** ** Who is in the list of attendees *)

Section AttendeesList.
Context {number : Type}.
Implicit Types (d : PgStorage.t number).

Lemma getEvent_attendeesList d (id : Z) (x : EventWithAttendees.t number) :
  PgStorage.getEvent d id = Some x ->
  EventWithAttendees.attendeesList x
  = resolved_attendees (PgStorage.getUser d) (PgStorage.getEventAttendees d id).
Proof.
  unfold PgStorage.getEvent. rewrite <- PgStorage_getFormattedAttendees_eq.
  destruct (PgStorage.select_where (PgStorage.events d) _) as [|e l]; [discriminate|].
  destruct (PgStorage.select_where (PgStorage.users d) _) as [|h l']; [discriminate|].
  now intros [= <-].
Qed.

(** X23: for an event and a user that [getEvent] and [getUser] find, the user
    is attending, as [isUserAttending] tells, exactly when the user's summary
    is in the [attendeesList] of the event. *)
Theorem PgStorage_attendeesList_registered (userId eventId : Z) (user : User.t)
    (x : EventWithAttendees.t number) d :
  PgStorage.getEvent d eventId = Some x ->
  PgStorage.getUser d userId = Some user ->
  PgStorage.isUserAttending d userId eventId = true <->
  In (Summary.of_user user) (EventWithAttendees.attendeesList x).
Proof.
  intros Gx Gu. rewrite (getEvent_attendeesList d eventId Gx), resolved_attendees_In.
  rewrite PgStorage_isUserAttending_iff. split.
  - intros [a [Ha [Eu Ee]]]. exists a, user. split; [|split; [|reflexivity]].
    + apply filter_In. split; [assumption | now apply Z.eqb_eq].
    + now rewrite Eu.
  - intros [a [u [Ha [Ga E]]]]. exists a. apply filter_In in Ha. destruct Ha as [Ha Ee].
    apply Z.eqb_eq in Ee. split; [assumption|]. split; [|assumption].
    destruct (getUser_Some_In d _ Ga) as [_ <-].
    destruct (getUser_Some_In d _ Gu) as [_ <-].
    injection E as E _ _. now symmetry.
Qed.

End AttendeesList.

(** On the sample database: "johndoe" and event 3. *)
Lemma PgStorage_attendeesList_on_the_sample_database :
  PgStorage.isUserAttending pg0 1 3 = true /\
  In (Summary.of_user (johndoe 0))
     (EventWithAttendees.attendeesList
        (PgStorage.withDetails pg0 (event_of_payload 3 0 (Seed.event3 1)))).
Proof.
  assert (A : PgStorage.isUserAttending pg0 1 3 = true) by (vm_compute; reflexivity).
  assert (Gx : PgStorage.getEvent pg0 3
               = Some (PgStorage.withDetails pg0 (event_of_payload 3 0 (Seed.event3 1))))
    by (vm_compute; reflexivity).
  assert (Gu : PgStorage.getUser pg0 1 = Some (johndoe 0)) by (vm_compute; reflexivity).
  split; [exact A|].
  exact (proj1 (@PgStorage_attendeesList_registered Q 1 3 (johndoe 0) _ pg0 Gx Gu) A).
Defined.

(** ** A query with the special characters of [LIKE] *)

Section Wildcards.
Context {number : Type}.
Implicit Types (d : PgStorage.t number).

Lemma like_percents (t : string) : Sql.like t "%%" = true /\ Sql.like t "%%%" = true.
Proof.
  unfold Sql.like. split.
  - rewrite SqlFacts.like_from_percent, SqlFacts.like_from_any. reflexivity.
  - rewrite SqlFacts.like_from_percent, SqlFacts.like_from_percent,
      SqlFacts.like_from_any. reflexivity.
Qed.

Lemma like_one_character (t : string) :
  Sql.like t "%_%" = negb (String.eqb t "").
Proof.
  unfold Sql.like. induction t as [|x t IH]; rewrite SqlFacts.like_from_percent.
  - reflexivity.
  - simpl. now rewrite SqlFacts.like_from_any.
Qed.

(** X24: [PgStorage.searchEvents] puts the query into the pattern as it is:
    the query [%], like the empty query, finds every event, and the query [_]
    finds every event whose title, description or location is not empty. *)
Theorem PgStorage_searchEvents_wildcards d :
  PgStorage.searchEvents d "" = PgStorage.getAllEvents d /\
  PgStorage.searchEvents d "%" = PgStorage.getAllEvents d /\
  PgStorage.searchEvents d "_"
  = map (PgStorage.withDetails d)
      (filter
         (fun e => negb (String.eqb (Event.title e) "")
                   || negb (String.eqb (Event.description e) "")
                   || negb (String.eqb (Event.location e) ""))
         (PgStorage.events d)).
Proof.
  rewrite !PgStorage_searchEvents_eq. unfold PgStorage.getAllEvents, pg_search_test.
  cbv zeta. split; [|split]; f_equal.
  - apply filter_id. rewrite Forall_forall. intros e _.
    change ("%" ++ "" ++ "%")%string with "%%". now rewrite (proj1 (like_percents _)).
  - apply filter_id. rewrite Forall_forall. intros e _.
    change ("%" ++ "%" ++ "%")%string with "%%%". now rewrite (proj2 (like_percents _)).
  - apply filter_ext. intros e.
    change ("%" ++ "_" ++ "%")%string with "%_%". now rewrite !like_one_character.
Qed.

End Wildcards.

(** ** The distance of [calculateDistance] *)

(** *** The rational numbers satisfy the laws of signs and of zeros *)

Module QSignsFacts.

Local Open Scope Q_scope.

Lemma neg_neg (a : Q) : - - a = a.
Proof. destruct a as [n d]. unfold Qopp. simpl. now rewrite Z.opp_involutive. Qed.

Lemma sub_swap (a b : Q) :
  Qred (b - a) = - Qred (a - b) \/ Qred (b - a) = Qred (a - b).
Proof. left. rewrite <- Qred_opp. apply Qred_complete. ring. Qed.

Lemma mul_comm (a b : Q) : Qred (a * b) = Qred (b * a).
Proof. apply Qred_complete. ring. Qed.

Lemma mul_neg (a b : Q) : Qred (- a * b) = - Qred (a * b).
Proof. rewrite <- Qred_opp. apply Qred_complete. ring. Qed.

Lemma div_neg (a b : Q) : Qred (- a / b) = - Qred (a / b).
Proof. rewrite <- Qred_opp. apply Qred_complete. unfold Qdiv. ring. Qed.

Lemma sin_neg (a : Q) : QNumber.sin (- a) = - QNumber.sin a.
Proof. unfold QNumber.sin. rewrite <- Qred_opp. apply Qred_complete. field. Qed.

End QSignsFacts.

#[export] Instance Q_JSNumberSigns : JSNumberSigns Q := {
  num_neg := Qopp;
  num_neg_neg := QSignsFacts.neg_neg;
  num_sub_swap := QSignsFacts.sub_swap;
  num_mul_comm := QSignsFacts.mul_comm;
  num_mul_neg := QSignsFacts.mul_neg;
  num_div_neg := QSignsFacts.div_neg;
  Math_sin_neg := QSignsFacts.sin_neg
}.

Module QZerosFacts.

Local Open Scope Q_scope.

(** a rational number is [== 0] when it is the number zero *)
Lemma is_zero_iff (z : Q) : num_is_zero z = true <-> z == 0.
Proof.
  unfold num_is_zero, num_eq. simpl. unfold QNumber.le.
  rewrite andb_true_iff, !Qle_bool_iff. split.
  - intros [A B]. now apply Qle_antisym.
  - intros ->. split; apply Qle_refl.
Qed.

Lemma sub_self (a : Q) : true = true -> num_is_zero (Qred (a - a)) = true.
Proof. intros _. apply is_zero_iff. rewrite Qred_correct. ring. Qed.

Lemma mul_zero (z a : Q) :
  num_is_zero z = true -> true = true ->
  num_is_zero (Qred (z * a)) = true /\ num_is_zero (Qred (a * z)) = true.
Proof.
  rewrite !is_zero_iff, !Qred_correct. intros E _. rewrite E. split; ring.
Qed.

Lemma half_zero (z : Q) : num_is_zero z = true -> num_is_zero (Qred (z / 2)) = true.
Proof. rewrite !is_zero_iff, Qred_correct. intros ->. reflexivity. Qed.

Lemma add_zero (z w : Q) :
  num_is_zero z = true -> num_is_zero w = true -> num_is_zero (Qred (z + w)) = true.
Proof. rewrite !is_zero_iff, Qred_correct. intros -> ->. reflexivity. Qed.

Lemma sin_zero (z : Q) : num_is_zero z = true -> num_is_zero (QNumber.sin z) = true.
Proof.
  rewrite !is_zero_iff. intros E. unfold QNumber.sin. rewrite Qred_correct, E.
  reflexivity.
Qed.

Lemma sqrt_zero (z : Q) : num_is_zero z = true -> num_is_zero (QNumber.sqrt z) = true.
Proof.
  rewrite !is_zero_iff. intros E. unfold QNumber.sqrt. rewrite Qred_correct.
  assert (N : Qnum z = 0%Z).
  { unfold Qeq in E. simpl in E. now rewrite Z.mul_1_r in E. }
  rewrite N. reflexivity.
Qed.

Lemma one_sub_zero (z : Q) : num_is_zero z = true -> Qred (1 - z) = 1.
Proof.
  rewrite is_zero_iff. intros E. change 1 with (Qred 1) at 2.
  apply Qred_complete. rewrite E. reflexivity.
Qed.

Lemma atan2_zero (z : Q) :
  num_is_zero z = true -> num_is_zero (QNumber.atan2 z 1) = true.
Proof.
  rewrite !is_zero_iff. intros E. unfold QNumber.atan2.
  change (Qle_bool 1 0) with false. cbv iota zeta. rewrite Qred_correct, E.
  reflexivity.
Qed.

Lemma toFixed1_zero (z : Q) :
  num_is_zero z = true -> num_is_zero (QNumber.toFixed1 z) = true.
Proof.
  rewrite !is_zero_iff. intros E. unfold QNumber.toFixed1. rewrite Qred_correct.
  rewrite (Qfloor_comp (z * 10 + (1 # 2)) (1 # 2)) by (rewrite E; reflexivity).
  reflexivity.
Qed.

End QZerosFacts.

(** every rational number is finite *)
#[export] Instance Q_JSNumberZeros : JSNumberZeros Q := {
  num_isFinite := fun _ => true;
  num_zero_finite := fun _ _ => eq_refl;
  num_lit_finite := fun _ _ _ => eq_refl;
  num_deg_finite := eq_refl;
  num_mul_deg_finite := fun _ _ => eq_refl;
  Math_cos_finite := fun _ _ _ _ => eq_refl;
  num_sub_self := QZerosFacts.sub_self;
  num_mul_zero := QZerosFacts.mul_zero;
  num_half_zero := QZerosFacts.half_zero;
  num_add_zero := QZerosFacts.add_zero;
  Math_sin_zero := QZerosFacts.sin_zero;
  Math_sqrt_zero := QZerosFacts.sqrt_zero;
  num_one_sub_zero := QZerosFacts.one_sub_zero;
  Math_sqrt_one := eq_refl;
  Math_atan2_zero := QZerosFacts.atan2_zero;
  num_toFixed1_zero := QZerosFacts.toFixed1_zero
}.

(** *** The two helpers are the two parts *)

Section Parts.
Context {number : Type} `{JSNumber number}.

Lemma MemStorage_calculateDistance_parts (lat1 lon1 lat2 lon2 : number) :
  MemStorage.calculateDistance lat1 lon1 lat2 lon2
  = arc_length (num_lit 3958.8) (haversine lat1 lon1 lat2 lon2).
Proof. reflexivity. Qed.

Lemma PgStorage_calculateDistance_parts (lat1 lon1 lat2 lon2 : number) :
  PgStorage.calculateDistance lat1 lon1 lat2 lon2
  = arc_length (num_lit 6371) (haversine lat1 lon1 lat2 lon2).
Proof. reflexivity. Qed.

End Parts.

(** *** The two orders of the points *)

Section Symmetry.
Context {number : Type} `{JSNumberSigns number}.

Lemma num_mul_neg_r (a b : number) : num_mul a (num_neg b) = num_neg (num_mul a b).
Proof. now rewrite num_mul_comm, num_mul_neg, num_mul_comm. Qed.

(** the sine of half the angle changes sign with the difference of the
    degrees *)
Lemma half_angle_sine_neg (d : number) :
  Math_sin (num_div (MemStorage.deg2rad (num_neg d)) (num_lit 2))
  = num_neg (Math_sin (num_div (MemStorage.deg2rad d) (num_lit 2))).
Proof.
  unfold MemStorage.deg2rad. now rewrite num_mul_neg, num_div_neg, Math_sin_neg.
Qed.

(** and its square, with or without a factor, does not *)
Lemma half_angle_square (d d' : number) :
  d' = num_neg d \/ d' = d ->
  let s := fun x => Math_sin (num_div (MemStorage.deg2rad x) (num_lit 2)) in
  num_mul (s d') (s d') = num_mul (s d) (s d) /\
  forall c, num_mul (num_mul c (s d')) (s d') = num_mul (num_mul c (s d)) (s d).
Proof.
  intros [-> | ->]; cbv beta zeta; [|split; reflexivity].
  rewrite half_angle_sine_neg. split; [|intros c].
  - now rewrite num_mul_neg, num_mul_neg_r, num_neg_neg.
  - now rewrite !num_mul_neg_r, num_mul_neg, num_neg_neg.
Qed.

Lemma haversine_swap (lat1 lon1 lat2 lon2 : number) :
  haversine lat1 lon1 lat2 lon2 = haversine lat2 lon2 lat1 lon1.
Proof.
  unfold haversine. cbv zeta.
  destruct (half_angle_square (num_sub_swap lat1 lat2)) as [Elat _].
  destruct (half_angle_square (num_sub_swap lon1 lon2)) as [_ Elon].
  cbv beta zeta in Elat, Elon. rewrite Elat, Elon.
  now rewrite (num_mul_comm (Math_cos (MemStorage.deg2rad lat1))).
Qed.

(** X25: in either class [calculateDistance] gives the same value for two
    points in either order, when differences, products and quotients are those
    of binary64 and the sine of the engine is odd. The two values are then
    [==], unless the value is [NaN], which is [==] to no number. *)
Theorem calculateDistance_symmetric (lat1 lon1 lat2 lon2 : number) :
  let ab := MemStorage.calculateDistance lat1 lon1 lat2 lon2 in
  let ba := MemStorage.calculateDistance lat2 lon2 lat1 lon1 in
  let ab' := PgStorage.calculateDistance lat1 lon1 lat2 lon2 in
  let ba' := PgStorage.calculateDistance lat2 lon2 lat1 lon1 in
  ab = ba /\ ab' = ba' /\
  (num_le ab ab = true -> num_eq ab ba = true) /\
  (num_le ab' ab' = true -> num_eq ab' ba' = true).
Proof.
  intros ab ba ab' ba'.
  assert (E : ab = ba).
  { unfold ab, ba. rewrite !MemStorage_calculateDistance_parts.
    now rewrite haversine_swap. }
  assert (E' : ab' = ba').
  { unfold ab', ba'. rewrite !PgStorage_calculateDistance_parts.
    now rewrite haversine_swap. }
  split; [exact E|]. split; [exact E'|].
  unfold num_eq. rewrite <- E, <- E'. split; intros ->; reflexivity.
Qed.

End Symmetry.

(** New York and London, in the rational numbers. *)
Lemma calculateDistance_symmetric_on_two_cities :
  let ab := MemStorage.calculateDistance 40.7%Q (-74)%Q 51.5%Q (-0.1)%Q in
  let ba := MemStorage.calculateDistance 51.5%Q (-0.1)%Q 40.7%Q (-74)%Q in
  ab = ba /\ num_eq ab ba = true.
Proof.
  intros ab ba.
  destruct (@calculateDistance_symmetric Q _ _ 40.7%Q (-74)%Q 51.5%Q (-0.1)%Q)
    as [E [_ [N _]]].
  split; [exact E|]. apply N.
  apply Qle_bool_iff, Qle_refl.
Defined.

(** *** One point *)

Section SamePoint.
Context {number : Type} `{JSNumberZeros number}.

Lemma num_zero_mul (z a : number) :
  num_is_zero z = true -> num_isFinite a = true -> num_is_zero (num_mul z a) = true.
Proof. intros Z F. exact (proj1 (num_mul_zero z a Z F)). Qed.

Lemma num_mul_zero_r (z a : number) :
  num_is_zero z = true -> num_isFinite a = true -> num_is_zero (num_mul a z) = true.
Proof. intros Z F. exact (proj2 (num_mul_zero z a Z F)). Qed.

(** the sum [a] is a zero when the two points are one *)
Lemma haversine_same_point (lat lon : number) :
  num_isFinite lat = true -> num_isFinite lon = true ->
  num_is_zero (haversine lat lon lat lon) = true.
Proof.
  intros Flat Flon. unfold haversine. cbv zeta.
  assert (Half : forall x, num_isFinite x = true ->
            num_is_zero
              (Math_sin (num_div (MemStorage.deg2rad (num_sub x x)) (num_lit 2))) = true).
  { intros x Fx. apply Math_sin_zero, num_half_zero. unfold MemStorage.deg2rad.
    apply num_zero_mul; [now apply num_sub_self | exact num_deg_finite]. }
  pose proof (Half lat Flat) as Zlat. pose proof (Half lon Flon) as Zlon.
  apply num_add_zero.
  - apply num_zero_mul; [exact Zlat | now apply num_zero_finite].
  - apply num_zero_mul; [|now apply num_zero_finite].
    apply num_mul_zero_r; [exact Zlon|].
    apply Math_cos_finite; unfold MemStorage.deg2rad; now apply num_mul_deg_finite.
Qed.

(** the distance a zero sum gives is a zero, whatever the radius *)
Lemma arc_length_zero (q : Q) (a : number) :
  (- inject_Z (2 ^ 1023) <= q)%Q -> (q <= inject_Z (2 ^ 1023))%Q ->
  num_is_zero a = true ->
  num_is_zero (arc_length (num_lit q) a) = true.
Proof.
  intros Lo Hi Za. unfold arc_length.
  apply num_toFixed1_zero.
  apply num_mul_zero_r; [|apply num_lit_finite; assumption].
  apply num_mul_zero_r; [|apply num_lit_finite; vm_compute; discriminate].
  rewrite (num_one_sub_zero a Za), Math_sqrt_one.
  now apply Math_atan2_zero, Math_sqrt_zero.
Qed.

(** X26: in either class the distance of a point with finite coordinates from
    itself is [== 0], when a zero and a finite number give the zeros of
    binary64 under the operations of [calculateDistance]. *)
Theorem calculateDistance_same_point (lat lon : number) :
  num_isFinite lat = true -> num_isFinite lon = true ->
  num_eq (MemStorage.calculateDistance lat lon lat lon) (num_lit 0) = true /\
  num_eq (PgStorage.calculateDistance lat lon lat lon) (num_lit 0) = true.
Proof.
  intros Flat Flon.
  pose proof (haversine_same_point lat lon Flat Flon) as Z.
  rewrite MemStorage_calculateDistance_parts, PgStorage_calculateDistance_parts.
  split; apply arc_length_zero; try exact Z; vm_compute; discriminate.
Qed.

End SamePoint.

(** New York, in the rational numbers. *)
Lemma calculateDistance_same_point_in_New_York :
  num_eq (MemStorage.calculateDistance 40.7%Q (-74)%Q 40.7%Q (-74)%Q) (num_lit 0) = true /\
  num_eq (PgStorage.calculateDistance 40.7%Q (-74)%Q 40.7%Q (-74)%Q) (num_lit 0) = true.
Proof.
  exact (@calculateDistance_same_point Q Q_JSNumber Q_JSNumberZeros 40.7%Q (-74)%Q
           eq_refl eq_refl).
Defined.
